(** * Trivia bots orchestrator: a shallow embedding and its properties

    The development follows the JavaScript sources of the orchestration
    core: [utils/timing.js], [players/behaviorEngine.js],
    [crowdlive/gameState.js], [crowdlive/triviaBot.js],
    [orchestrator/playerPool.js] and [orchestrator/gameSession.js].

    Conventions.
    - JavaScript numbers are idealised as rationals ([Q]); counters and
      millisecond delays that the code only ever builds from integers are
      [Z] or [nat].
    - [Math.random()] is a draw taken from a stream of rationals; the
      properties quantify over every stream whose draws lie in [0, 1).
    - The browser driver and the clock are an explicit world that is
      threaded through the agent's operations.
    - Asynchronous code is modelled at its suspension points: a task runs
      from one [await] to the next without interruption, as on the
      JavaScript event loop. *)

From Stdlib Require Import Ascii String QArith Qround Lqa Lia.
From stdpp Require Import gmap strings list.

Local Open Scope Z_scope.

(** ** JavaScript helpers *)

Module Js.

(** [Math.max] and [Math.min] on (finite) numbers. *)
Definition Math_max (a b : Q) : Q := if Qle_bool a b then b else a.
Definition Math_min (a b : Q) : Q := if Qle_bool a b then a else b.

(** Truthiness of a number: zero is falsy. *)
Definition truthy_num (a : Q) : bool := negb (Qeq_bool a 0).

(** [a < b] on numbers, as a boolean. *)
Definition lt_num (a b : Q) : bool := negb (Qle_bool b a).

(** A stream of [Math.random()] draws. *)
Definition rng : Type := nat -> Q.

Definition Math_random (g : rng) : Q * rng := (g 0%nat, fun n => g (S n)).

(** Every draw lies in the half-open unit interval, as [Math.random]
    guarantees. *)
Definition unit_draws (g : rng) : Prop := forall n, (0 <= g n)%Q /\ (g n < 1)%Q.

(** [String.prototype.includes]. *)
Fixpoint includes (needle hay : string) : bool :=
  if String.prefix needle hay then true
  else match hay with
       | EmptyString => false
       | String _ rest => includes needle rest
       end.

(** Array indexing with a JavaScript number that is known to be an
    integer: out of range yields [undefined] ([None]). *)
Definition index {A} (l : list A) (i : Z) : option A :=
  if i <? 0 then None else l !! Z.to_nat i.

(** Truthiness of a string that may be [undefined]. *)
Definition truthy_str (s : option string) : bool :=
  match s with
  | Some s => negb (String.eqb s "")
  | None => false
  end.

(** [array.map((_, i) => f i)]. *)
Definition mapi {A B} (f : nat -> A -> B) (l : list A) : list B := imap f l.

(** The members every plain object inherits from [Object.prototype]. *)
Definition Object_prototype_keys : list string :=
  [ "constructor"; "hasOwnProperty"; "isPrototypeOf"; "propertyIsEnumerable";
    "toLocaleString"; "toString"; "valueOf"; "__proto__";
    "__defineGetter__"; "__defineSetter__"; "__lookupGetter__"; "__lookupSetter__" ].

(** What [object[key]] finds on a plain object whose own properties are
    the entries of [own]: an own property, a member inherited from
    [Object.prototype] (a function, or the prototype object itself for
    [__proto__]), or nothing ([undefined]).  An own property hides an
    inherited one. *)
Inductive Member (A : Type) :=
  | Own (a : A)
  | Inherited
  | Missing.
Arguments Own {A} a.
Arguments Inherited {A}.
Arguments Missing {A}.

Definition get_member {A} (own : gmap string A) (key : string) : Member A :=
  match own !! key with
  | Some a => Own a
  | None => if bool_decide (key ∈ Object_prototype_keys) then Inherited else Missing
  end.

End Js.

(** ** utils/timing.js *)

Module Timing.
Import Js.

(** [randomDelay(min, max)]: [Math.floor(Math.random() * (max - min + 1)) + min]. *)
Definition randomDelay (min max : Z) (g : rng) : Z * rng :=
  let '(r, g) := Math_random g in
  (Qfloor (r * inject_Z (max - min + 1)) + min, g).

Record ReactionTime := {
  rt_min : Q;
  rt_max : Q;
  rt_average : Q;
}.

(** The part of a player profile the core reads.  [lateJoinChance] and
    [noShowChance] are optional because [calculateJoinTiming]
    destructures them with defaults. *)
Record Profile := {
  id : string;
  accuracy : Q;
  knowledgeAreas : option (gmap string Q);
  reactionTime : ReactionTime;
  personality : string;
  consistency : Q;
  lateJoinChance : option Q;
  noShowChance : option Q;
}.

(** [calculateAnswerDelay(profile, questionDifficulty)]. *)
Definition calculateAnswerDelay (profile : Profile) (questionDifficulty : Q)
    (g : rng) : Q * rng :=
  let min := rt_min (reactionTime profile) in
  let max := rt_max (reactionTime profile) in
  let average := rt_average (reactionTime profile) in
  let delay := average in
  let variance := ((max - min) * 0.3)%Q in
  let '(r, g) := Math_random g in
  let delay := (delay + (r - 0.5) * variance)%Q in
  let '(d, g) := randomDelay 500 2000 g in
  let delay := (delay + questionDifficulty * inject_Z d)%Q in
  let '(delay, g) :=
    if String.eqb (personality profile) "fast" then ((delay * 0.7)%Q, g)
    else if String.eqb (personality profile) "cautious" then ((delay * 1.3)%Q, g)
    else if String.eqb (personality profile) "random" then
      let '(r, g) := Math_random g in ((delay * (0.5 + r))%Q, g)
    else (delay, g) in
  (Math_max min (Math_min max (inject_Z (Qfloor delay))), g).

Record JoinTiming := {
  shouldJoin : bool;
  delay : Z;
  reason : string;
}.

(** [calculateJoinTiming(profile)]: the no-show check comes first, then
    the late-join check. *)
Definition calculateJoinTiming (profile : Profile) (g : rng) : JoinTiming * rng :=
  let lateJoinChance := default 0.15%Q (lateJoinChance profile) in
  let noShowChance := default 0.05%Q (noShowChance profile) in
  let '(r, g) := Math_random g in
  if lt_num r noShowChance then
    ({| shouldJoin := false; delay := 0; reason := "no-show" |}, g)
  else
    let '(r, g) := Math_random g in
    if lt_num r lateJoinChance then
      let '(lateDelay, g) := randomDelay 30000 120000 g in
      ({| shouldJoin := true; delay := lateDelay; reason := "late" |}, g)
    else
      let '(normalDelay, g) := randomDelay 1000 10000 g in
      ({| shouldJoin := true; delay := normalDelay; reason := "on-time" |}, g).

(** [calculateTypingDuration(textLength, options)]: the loop, with
    [totalDelay] as its accumulator. *)
Fixpoint typingLoop (textLength : nat) (min max : Z) (totalDelay : Z) (g : rng)
    : Z * rng :=
  match textLength with
  | O => (totalDelay, g)
  | S rest =>
      let '(d, g) := randomDelay min max g in
      let totalDelay := totalDelay + d in
      let '(r, g) := Math_random g in
      let '(totalDelay, g) :=
        if lt_num r 0.1 then
          let '(pause, g) := randomDelay 200 500 g in (totalDelay + pause, g)
        else (totalDelay, g) in
      typingLoop rest min max totalDelay g
  end.

Definition calculateTypingDuration (textLength : nat) (min max : option Z) (g : rng)
    : Z * rng :=
  typingLoop textLength (default 50 min) (default 150 max) 0 g.

End Timing.

(** ** players/behaviorEngine.js *)

Module Behavior.
Import Js Timing.

(** [class PlayerState] (the back pointer to the profile is not read by
    any method and is left out). *)
Record PlayerState := {
  questionsAnswered : nat;
  correctAnswers : nat;
  currentStreak : Z;
  isHot : bool;
  isCold : bool;
  lastAnswerCorrect : option bool;
  fatigue : Q;
}.

(** The constructor. *)
Definition newPlayerState : PlayerState :=
  {| questionsAnswered := 0; correctAnswers := 0; currentStreak := 0;
     isHot := false; isCold := false; lastAnswerCorrect := None;
     fatigue := 0 |}.

(** [recordAnswer(wasCorrect)].  The counters and the streak are
    integers; [fatigue] is summed here in exact rationals, where the code
    adds 0.02 in doubles, so its exact value is not that of the code and
    no property below states it. *)
Definition recordAnswer (wasCorrect : bool) (s : PlayerState) : PlayerState :=
  let streak :=
    if wasCorrect then Z.max 0 (currentStreak s) + 1
    else Z.min 0 (currentStreak s) - 1 in
  {| questionsAnswered := S (questionsAnswered s);
     correctAnswers := if wasCorrect then S (correctAnswers s) else correctAnswers s;
     currentStreak := streak;
     isHot := 3 <=? streak;
     isCold := streak <=? -3;
     lastAnswerCorrect := Some wasCorrect;
     fatigue := (fatigue s + 0.02)%Q |}.

Definition getAccuracyModifier (s : PlayerState) : Q :=
  let modifier := 0%Q in
  let modifier := if isHot s then (modifier + 0.1)%Q else modifier in
  let modifier := if isCold s then (modifier - 0.1)%Q else modifier in
  (modifier - fatigue s * 0.5)%Q.

Definition reset (s : PlayerState) : PlayerState :=
  {| questionsAnswered := 0; correctAnswers := 0; currentStreak := 0;
     isHot := false; isCold := false; lastAnswerCorrect := None;
     fatigue := 0 |}.

(** [class BehaviorEngine]: the map from profile ids to player states. *)
Record BehaviorEngine := { playerStates : gmap string PlayerState }.

Definition newBehaviorEngine : BehaviorEngine := {| playerStates := ∅ |}.

Definition getPlayerState (profile : Profile) (e : BehaviorEngine)
    : PlayerState * BehaviorEngine :=
  match playerStates e !! id profile with
  | Some s => (s, e)
  | None =>
      (newPlayerState,
       {| playerStates := <[id profile := newPlayerState]> (playerStates e) |})
  end.

(** The [options] argument of [shouldAnswerCorrectly] and
    [selectAnswer]; an absent key is [None]. *)
Record DecisionOptions := {
  category : option string;
  difficulty : option Q;
}.

(** The accuracy [shouldAnswerCorrectly] has computed just before it
    rolls the dice; [r] is the draw used for the consistency jitter.
    [None] is [NaN].  [profile.knowledgeAreas[category]] is a property
    lookup on a plain object: for a category that names an inherited
    member it yields a function (or the prototype), which is truthy and is
    assigned to [accuracy]; [accuracy += modifier] then makes a string,
    [accuracy -= difficulty * 0.2] makes [NaN], and [Math.min] and
    [Math.max] return [NaN] when an argument is [NaN]. *)
Definition effectiveAccuracy (profile : Profile) (state : PlayerState)
    (options : DecisionOptions) (r : Q) : option Q :=
  let category := default "general" (category options) in
  let difficulty := default 0.5%Q (difficulty options) in
  let accuracy := accuracy profile in
  let accuracy :=
    match knowledgeAreas profile with
    | Some areas =>
        match get_member areas category with
        | Own a => if truthy_num a then Some a else Some accuracy
        | Inherited => None
        | Missing => Some accuracy
        end
    | None => Some accuracy
    end in
  match accuracy with
  | Some accuracy =>
      let accuracy := (accuracy + getAccuracyModifier state)%Q in
      let accuracy := (accuracy - difficulty * 0.2)%Q in
      let variance := ((1 - consistency profile) * 0.2)%Q in
      let accuracy := (accuracy + (r - 0.5) * variance)%Q in
      Some (Math_max 0.1 (Math_min 0.95 accuracy))
  | None => None
  end.

Definition shouldAnswerCorrectly (profile : Profile) (options : DecisionOptions)
    (e : BehaviorEngine) (g : rng) : bool * BehaviorEngine * rng :=
  let '(state, e) := getPlayerState profile e in
  let '(r, g) := Math_random g in
  let accuracy := effectiveAccuracy profile state options r in
  let '(roll, g) := Math_random g in
  (* [roll < accuracy]: a comparison with [NaN] is false *)
  (match accuracy with
   | Some accuracy => lt_num roll accuracy
   | None => false
   end, e, g).

(** [weightedRandom(weights)]; the loop is [scan], started at index 0
    with [random = Math.random() * total], and the closing
    [return weights.length - 1] is taken when the loop ends without
    returning.  The sums are exact rationals here; in doubles the running
    difference can stay positive after the last weight, so which of the
    two returns is taken is not stated by any property below, only the
    range of the result. *)
Fixpoint scan (weights : list Q) (i : Z) (random : Q) : option Z :=
  match weights with
  | [] => None
  | w :: rest =>
      let random := (random - w)%Q in
      if Qle_bool random 0 then Some i else scan rest (i + 1) random
  end.

Definition weightedRandom (weights : list Q) (g : rng) : Z * rng :=
  let total := foldl Qplus 0%Q weights in
  let '(r, g) := Math_random g in
  let random := (r * total)%Q in
  (default (Z.of_nat (length weights) - 1) (scan weights 0 random), g).

Record Decision := {
  index : option Z;          (* [None] is [undefined] *)
  delay : Q;
  reason : string;
  expectedCorrect : bool;
}.

(** [selectAnswer(profile, options, correctIndex, decisionOptions)];
    only the length of [options] is read. *)
Definition selectAnswer {A} (profile : Profile) (options : list A)
    (correctIndex : option Z) (decisionOptions : DecisionOptions)
    (e : BehaviorEngine) (g : rng) : Decision * BehaviorEngine * rng :=
  let '(shouldBeCorrect, e, g) :=
    shouldAnswerCorrectly profile decisionOptions e g in
  let difficulty :=
    match difficulty decisionOptions with
    | Some d => if truthy_num d then d else 0.5%Q
    | None => 0.5%Q
    end in
  let '(delay, g) := calculateAnswerDelay profile difficulty g in
  let '(selectedIndex, reason, g) :=
    match correctIndex with
    | Some c =>
        if shouldBeCorrect then (Some c, "correct-known", g)
        else
          let wrongIndices :=
            filter (fun i => i <> c) (mapi (fun i _ => Z.of_nat i) options) in
          let '(r, g) := Math_random g in
          (Js.index wrongIndices
             (Qfloor (r * inject_Z (Z.of_nat (length wrongIndices)))),
           "intentional-wrong", g)
    | None =>
        if shouldBeCorrect then
          let weights :=
            mapi (fun i _ => Math_max 0.1 (1 - inject_Z (Z.of_nat i) * 0.2)) options in
          let '(i, g) := weightedRandom weights g in
          (Some i, "guess-biased", g)
        else
          let '(r, g) := Math_random g in
          (Some (Qfloor (r * inject_Z (Z.of_nat (length options)))),
           "guess-random", g)
    end in
  let '(_, e) := getPlayerState profile e in
  ({| index := selectedIndex; delay := delay; reason := reason;
      expectedCorrect := shouldBeCorrect |}, e, g).

(** [BehaviorEngine.recordAnswer] and [resetPlayer]. *)
Definition engineRecordAnswer (profile : Profile) (wasCorrect : bool)
    (e : BehaviorEngine) : BehaviorEngine :=
  let '(state, e) := getPlayerState profile e in
  {| playerStates := <[id profile := recordAnswer wasCorrect state]> (playerStates e) |}.

Definition resetPlayer (profile : Profile) (e : BehaviorEngine) : BehaviorEngine :=
  let '(state, e) := getPlayerState profile e in
  {| playerStates := <[id profile := reset state]> (playerStates e) |}.

(** [getPlayerStats(profile)]. *)
Record PlayerStats := {
  stats_questionsAnswered : nat;
  stats_correctAnswers : nat;
  stats_accuracy : Q;
  stats_currentStreak : Z;
  stats_isHot : bool;
  stats_isCold : bool;
  stats_fatigue : Q;
}.

Definition getPlayerStats (profile : Profile) (e : BehaviorEngine)
    : PlayerStats * BehaviorEngine :=
  let '(state, e) := getPlayerState profile e in
  ({| stats_questionsAnswered := questionsAnswered state;
      stats_correctAnswers := correctAnswers state;
      stats_accuracy :=
        if (0 <? questionsAnswered state)%nat
        then (inject_Z (Z.of_nat (correctAnswers state))
              / inject_Z (Z.of_nat (questionsAnswered state)))%Q
        else 0%Q;
      stats_currentStreak := currentStreak state;
      stats_isHot := isHot state;
      stats_isCold := isCold state;
      stats_fatigue := fatigue state |}, e).

(** [planTyping(profile, text)].  The text is its list of character
    codes; a correction records the code that [String.fromCharCode]
    receives. *)
Record Correction := {
  position : nat;
  wrongCharCode : Z;
  correctionDelay : Z;
}.

Definition baseDelay (profile : Profile) : Z * Z :=
  if String.eqb (personality profile) "fast" then (30, 80)
  else if String.eqb (personality profile) "cautious" then (80, 200)
  else (50, 120).

Definition is_pause_char (a : ascii) : bool :=
  (Ascii.eqb a " " || Ascii.eqb a "." || Ascii.eqb a ",")%char.

Fixpoint planLoop (chars : list ascii) (i : nat) (base : Z * Z)
    (delays : list Z) (corrections : list Correction) (g : rng)
    : list Z * list Correction * rng :=
  match chars with
  | [] => (delays, corrections, g)
  | a :: rest =>
      let '(delay, g) := randomDelay base.1 base.2 g in
      let '(delay, g) :=
        if is_pause_char a then
          let '(extra, g) := randomDelay 50 150 g in (delay + extra, g)
        else (delay, g) in
      let '(r, g) := Math_random g in
      let '(delay, g) :=
        if lt_num r 0.05 then
          let '(extra, g) := randomDelay 200 500 g in (delay + extra, g)
        else (delay, g) in
      let delays := delays ++ [delay] in
      let '(r, g) := Math_random g in
      let '(corrections, g) :=
        if lt_num r 0.02 && (0 <? i)%nat then
          let '(offset, g) := randomDelay (-2) 2 g in
          let '(d, g) := randomDelay 100 300 g in
          (corrections ++
             [{| position := i;
                 wrongCharCode := Z.of_nat (nat_of_ascii a) + offset;
                 correctionDelay := d |}], g)
        else (corrections, g) in
      planLoop rest (S i) base delays corrections g
  end.

Definition planTyping (profile : Profile) (text : string) (g : rng)
    : list Z * list Correction * rng :=
  planLoop (list_ascii_of_string text) 0 (baseDelay profile) [] [] g.

End Behavior.

(** ** crowdlive/gameState.js *)

Module GameState.
Import Js.

Inductive GameStates :=
  | REGISTRATION | WAITING | COUNTDOWN | QUESTION | ANSWER_REVEAL
  | RANKING | BETWEEN_QUESTIONS | GAME_ENDED | ERROR | UNKNOWN.

#[global] Instance GameStates_eq_dec : EqDecision GameStates.
Proof. solve_decision. Defined.

(** The string each state stands for. *)
Definition state_name (s : GameStates) : string :=
  match s with
  | REGISTRATION => "registration" | WAITING => "waiting"
  | COUNTDOWN => "countdown" | QUESTION => "question"
  | ANSWER_REVEAL => "answer_reveal" | RANKING => "ranking"
  | BETWEEN_QUESTIONS => "between_questions" | GAME_ENDED => "game_ended"
  | ERROR => "error" | UNKNOWN => "unknown"
  end.

(** What one call of [detectState] reads from the page.  Each read can
    raise; [None] stands for a read that raised.
    - [innerText]: [document.body.innerText.toLowerCase()];
    - [answerButtons]: how many letter buttons and grip buttons the two
      [page.$$] queries return;
    - [registrationForm]: whether the nickname input is found. *)
Record Snapshot := {
  innerText : option string;
  answerButtons : option (nat * nat);
  registrationForm : option bool;
}.

(** The mutable fields of [GameStateManager]; registered callbacks run
    inside a try/catch and cannot influence the manager. *)
Record Manager := {
  currentState : GameStates;
  previousState : option GameStates;
  questionNumber : nat;
}.

Definition newManager : Manager :=
  {| currentState := UNKNOWN; previousState := None; questionNumber := 0 |}.

(** The regular expression [/(\d+):(\d{2})/]. *)
Definition is_digit (a : ascii) : bool :=
  let n := nat_of_ascii a in (48 <=? n)%nat && (n <=? 57)%nat.

Fixpoint span_digits (s : string) : string * string :=
  match s with
  | String a rest =>
      if is_digit a then
        let '(ds, tl) := span_digits rest in (String a ds, tl)
      else (EmptyString, s)
  | EmptyString => (EmptyString, EmptyString)
  end.

(** A match starting at the first character of [s]: a maximal run of
    digits (a shorter run would be followed by a digit, not by the
    colon), the colon, two digits. *)
Definition match_here (s : string) : option (string * string) :=
  let '(ds, tl) := span_digits s in
  match ds, tl with
  | String _ _, String ":"%char (String a (String b _)) =>
      if is_digit a && is_digit b
      then Some (ds, String a (String b EmptyString)) else None
  | _, _ => None
  end.

(** [pageText.match(...)]: the leftmost match, as its two groups. *)
Fixpoint timerMatch (s : string) : option (string * string) :=
  match match_here s with
  | Some m => Some m
  | None =>
      match s with
      | String _ rest => timerMatch rest
      | EmptyString => None
      end
  end.

(** [parseInt] on a string of decimal digits. *)
Definition parseInt (s : string) : Z :=
  fold_left (fun acc a => 10 * acc + (Z.of_nat (nat_of_ascii a) - 48))
            (list_ascii_of_string s) 0.

Definition includes_any (needles : list string) (text : string) : bool :=
  existsb (fun needle => includes needle text) needles.

(** [setState(newState)]. *)
Definition setState (newState : GameStates) (m : Manager) : GameStates * Manager :=
  if decide (newState <> currentState m) then
    let previous := currentState m in
    let m' :=
      {| currentState := newState;
         previousState := Some previous;
         questionNumber :=
           if decide (newState = QUESTION /\ previous <> QUESTION)
           then S (questionNumber m) else questionNumber m |} in
    (currentState m', m')
  else (currentState m, m).

(** [detectState()].  A failed text read and a failed registration
    query both return the committed state; a failed button query leaves
    the button count at zero. *)
Definition detectState (snap : Snapshot) (m : Manager) : GameStates * Manager :=
  match innerText snap with
  | None => (currentState m, m)
  | Some pageText =>
      let answerButtonCount :=
        match answerButtons snap with
        | Some (letterButtons, gripButtons) => (letterButtons + gripButtons)%nat
        | None => 0%nat
        end in
      let hasYourRanking := includes "your ranking" pageText in
      let timerMatch := timerMatch pageText in
      let timerSeconds :=
        match timerMatch with
        | Some (minutes, seconds) => parseInt minutes * 60 + parseInt seconds
        | None => -1
        end in
      if includes_any ["welcome back"; "continue playing"] pageText then
        setState REGISTRATION m
      else
        match registrationForm snap with
        | None => (currentState m, m)
        | Some hasRegistrationForm =>
            if hasRegistrationForm then setState REGISTRATION m
            else if includes_any ["you finished"; "game over";
                                  "thank you for playing"; "final results"] pageText
            then setState GAME_ENDED m
            else if (0 <? answerButtonCount)%nat && (0 <? timerSeconds)
            then setState QUESTION m
            else if hasYourRanking then setState RANKING m
            else if (timerSeconds =? 0) || includes "time has run out" pageText
            then setState ANSWER_REVEAL m
            else if includes_any ["will be activated shortly"; "waiting";
                                  "game will start"; "hang tight"] pageText
            then setState WAITING m
            else if bool_decide (is_Some timerMatch)
            then setState BETWEEN_QUESTIONS m
            else if includes_any ["something went wrong"; "unable to join";
                                  "error occurred"] pageText
            then setState ERROR m
            else if includes_any ["sign out"; "my profile"] pageText
            then setState WAITING m
            else (currentState m, m)
        end
  end.

End GameState.

(** ** crowdlive/triviaBot.js *)

Module Bot.
Import Js Timing Behavior GameState.

(** *** The world an agent runs in *)

(** Values the browser driver hands back (JavaScript is untyped; the
    agent coerces what it receives). *)
Inductive Value :=
  | VUndefined
  | VNull
  | VBool (b : bool)
  | VNum (n : Z)
  | VStr (s : string)
  | VOptions (type : string) (options : nat).   (* [{ type, options }] *)

Definition truthy (v : Value) : bool :=
  match v with
  | VUndefined | VNull => false
  | VBool b => b
  | VNum n => negb (n =? 0)
  | VStr s => negb (String.eqb s "")
  | VOptions _ _ => true
  end.

Inductive Reply := Returns (v : Value) | Raises (message : string).

(** The clock, the random source, the shared behaviour engine, the
    successive page reads of [detectState] and the successive replies of
    the browser driver. *)
Record World := {
  now : Z;
  random : rng;
  engine : BehaviorEngine;
  page : nat -> Snapshot;
  driver : nat -> Reply;
}.

Definition set_now (t : Z) (w : World) : World :=
  {| now := t; random := random w; engine := engine w; page := page w;
     driver := driver w |}.
Definition set_random (g : rng) (w : World) : World :=
  {| now := now w; random := g; engine := engine w; page := page w;
     driver := driver w |}.
Definition set_engine (e : BehaviorEngine) (w : World) : World :=
  {| now := now w; random := random w; engine := e; page := page w;
     driver := driver w |}.
Definition set_page (p : nat -> Snapshot) (w : World) : World :=
  {| now := now w; random := random w; engine := engine w; page := p;
     driver := driver w |}.
Definition set_driver (d : nat -> Reply) (w : World) : World :=
  {| now := now w; random := random w; engine := engine w; page := page w;
     driver := d |}.

(** *** The agent *)

Record GameResults := {
  questionsAnswered : nat;
  correctAnswers : nat;
  finalScore : Value;
  finalRank : Value;
}.

Record BotOptions := {
  gameUrl : option string;
  headless : bool;
  maxRetries : nat;
  retryDelay : Z;
}.

(** The fields of [TriviaBot].  [page], [pageActions] and [stateManager]
    are null until [initialize] has run; browser, context and page are
    set and cleared together and are one flag here.  The handlers that
    [setupErrorHandlers] registers fire from the browser's side; the one
    for a page crash calls [attemptRecovery], which is modelled below. *)
Record TriviaBot := {
  profile : Profile;
  options : BotOptions;
  hasPage : bool;
  pageActions : bool;
  stateManager : option Manager;
  isRunning : bool;
  questionNumber : nat;
  retryCount : nat;
  lastError : option string;
  gameResults : GameResults;
}.

(** The constructor, [options.gameUrl || config.game.url] already
    resolved by the caller. *)
Definition newTriviaBot (profile : Profile) (options : BotOptions) : TriviaBot :=
  {| profile := profile; options := options;
     hasPage := false; pageActions := false; stateManager := None;
     isRunning := false; questionNumber := 0; retryCount := 0;
     lastError := None;
     gameResults := {| questionsAnswered := 0; correctAnswers := 0;
                       finalScore := VNull; finalRank := VNull |} |}.

Definition set_resources (pg pa : bool) (sm : option Manager) (b : TriviaBot) : TriviaBot :=
  {| profile := profile b; options := options b;
     hasPage := pg; pageActions := pa; stateManager := sm;
     isRunning := isRunning b; questionNumber := questionNumber b;
     retryCount := retryCount b; lastError := lastError b;
     gameResults := gameResults b |}.
Definition set_isRunning (r : bool) (b : TriviaBot) : TriviaBot :=
  {| profile := profile b; options := options b;
     hasPage := hasPage b; pageActions := pageActions b;
     stateManager := stateManager b;
     isRunning := r; questionNumber := questionNumber b;
     retryCount := retryCount b; lastError := lastError b;
     gameResults := gameResults b |}.
Definition set_questionNumber (n : nat) (b : TriviaBot) : TriviaBot :=
  {| profile := profile b; options := options b;
     hasPage := hasPage b; pageActions := pageActions b;
     stateManager := stateManager b;
     isRunning := isRunning b; questionNumber := n;
     retryCount := retryCount b; lastError := lastError b;
     gameResults := gameResults b |}.
Definition set_retryCount (n : nat) (b : TriviaBot) : TriviaBot :=
  {| profile := profile b; options := options b;
     hasPage := hasPage b; pageActions := pageActions b;
     stateManager := stateManager b;
     isRunning := isRunning b; questionNumber := questionNumber b;
     retryCount := n; lastError := lastError b;
     gameResults := gameResults b |}.
Definition set_gameResults (r : GameResults) (b : TriviaBot) : TriviaBot :=
  {| profile := profile b; options := options b;
     hasPage := hasPage b; pageActions := pageActions b;
     stateManager := stateManager b;
     isRunning := isRunning b; questionNumber := questionNumber b;
     retryCount := retryCount b; lastError := lastError b;
     gameResults := r |}.

(** *** Computations of the agent

    A computation returns a value, raises an error (carrying its
    message) or is still inside a loop when the fuel of the model runs
    out. *)
Inductive Outcome (A : Type) :=
  | Ret (a : A)
  | Throw (message : string)
  | Unfinished.
Arguments Ret {A} a.
Arguments Throw {A} message.
Arguments Unfinished {A}.

Definition M (A : Type) : Type := World -> TriviaBot -> Outcome A * World * TriviaBot.

#[export] Instance M_ret : MRet M := fun A a w b => (Ret a, w, b).
#[export] Instance M_bind : MBind M := fun A B f c w b =>
  match c w b with
  | (Ret a, w, b) => f a w b
  | (Throw e, w, b) => (Throw e, w, b)
  | (Unfinished, w, b) => (Unfinished, w, b)
  end.

Definition throw {A} (message : string) : M A := fun w b => (Throw message, w, b).
Definition getBot : M TriviaBot := fun w b => (Ret b, w, b).
Definition modifyBot (f : TriviaBot -> TriviaBot) : M unit := fun w b => (Ret tt, w, f b).
Definition modifyWorld (f : World -> World) : M unit := fun w b => (Ret tt, f w, b).

(** [try { c } catch (error) { h error.message }]. *)
Definition try_catch {A} (c : M A) (h : string -> M A) : M A := fun w b =>
  match c w b with
  | (Throw e, w, b) => h e w b
  | r => r
  end.

(** [try { c } finally { f }], for an [f] that does not raise. *)
Definition try_finally {A} (c : M A) (f : M unit) : M A := fun w b =>
  match c w b with
  | (Unfinished, w, b) => (Unfinished, w, b)
  | (r, w, b) =>
      match f w b with
      | (Ret _, w, b) => (r, w, b)
      | (Throw e, w, b) => (Throw e, w, b)
      | (Unfinished, w, b) => (Unfinished, w, b)
      end
  end.

(** [await sleep(ms)]: the clock advances. *)
Definition sleep (ms : Z) : M unit :=
  modifyWorld (fun w => set_now (now w + Z.max 0 ms) w).

(** Run a function of the random source. *)
Definition withRandom {A} (f : rng -> A * rng) : M A := fun w b =>
  let '(a, g) := f (random w) in (Ret a, set_random g w, b).

(** [await randomSleep(min, max)]. *)
Definition randomSleep (min max : Z) : M Z :=
  d ← withRandom (randomDelay min max); sleep d;; mret d.

(** The next reply of the browser. *)
Definition call : M Value := fun w b =>
  let w' := set_driver (fun n => driver w (S n)) w in
  match driver w 0%nat with
  | Returns v => (Ret v, w', b)
  | Raises e => (Throw e, w', b)
  end.

Definition TypeError_null : string := "Cannot read properties of null".

(** A call through [this.pageActions]. *)
Definition viaPageActions : M Value :=
  b ← getBot;
  if pageActions b then call else throw TypeError_null.

(** [this.stateManager.detectState()]. *)
Definition detect : M GameStates := fun w b =>
  match stateManager b with
  | None => (Throw TypeError_null, w, b)
  | Some m =>
      let '(state, m') := detectState (page w 0%nat) m in
      (Ret state, set_page (fun n => page w (S n)) w,
       set_resources (hasPage b) (pageActions b) (Some m') b)
  end.

(** [initialize()]: launch the browser, open context and page (one
    reply of the browser stands for the three of them), build the page
    actions and the state manager, reset the behaviour engine's state for
    this player. *)
Definition initialize : M unit :=
  _ ← call;
  modifyBot (set_resources true true (Some newManager));;
  b ← getBot;
  modifyWorld (fun w => set_engine (resetPlayer (profile b) (engine w)) w).

(** [cleanupSilent()] and [cleanup()]; neither raises. *)
Definition cleanupSilent : M unit := modifyBot (set_resources false false None).

Definition cleanup : M unit :=
  modifyBot (fun b => set_resources false (pageActions b) (stateManager b) b).

(** [attemptRecovery()]. *)
Definition attemptRecovery : M bool :=
  b ← getBot;
  if (maxRetries (options b) <=? retryCount b)%nat then
    modifyBot (set_isRunning false);; mret false
  else
    modifyBot (set_retryCount (S (retryCount b)));;
    try_catch
      (cleanupSilent;;
       sleep (retryDelay (options b));;
       initialize;;
       (if truthy_str (gameUrl (options b))
        then _ ← viaPageActions; mret tt else mret tt);;
       mret true)
      (fun _ => mret false).

(** [needsRecovery(error)]. *)
Definition recoveryErrors : list string :=
  [ "Target closed";
    "Target page, context or browser has been closed";
    "Execution context was destroyed";
    "Protocol error";
    "Connection closed";
    "Browser closed";
    "Page crashed" ].

Definition needsRecovery (message : string) : bool :=
  existsb (fun msg => includes msg message) recoveryErrors.

(** [withRetry(operation, operationName)] with its default of three
    attempts: [attempt] is the loop counter and [more] the number of
    attempts left after this one, so [attempt < maxRetries] reads
    [more > 0]. *)
Fixpoint withRetry_from {A} (operation : M A) (attempt more : nat) : M A :=
  fun w b =>
  match operation w b with
  | (Throw e, w, b) =>
      match more with
      | O => (Throw e, w, b)
      | S more' =>
          if needsRecovery e then
            match attemptRecovery w b with
            | (Ret true, w, b) => withRetry_from operation (S attempt) more' w b
            | (Ret false, w, b) => (Throw e, w, b)
            | (Throw e', w, b) => (Throw e', w, b)
            | (Unfinished, w, b) => (Unfinished, w, b)
            end
          else
            match sleep (1000 * Z.of_nat attempt) w b with
            | (_, w, b) => withRetry_from operation (S attempt) more' w b
            end
      end
  | r => r
  end.

Definition withRetry {A} (operation : M A) : M A := withRetry_from operation 1 2.

(** [joinGame(gameUrl)].  [proceed] is false when the function has
    returned [false] from inside the registration branch. *)
Definition joinGame (url : option string) : M bool :=
  b ← getBot;
  joinTiming ← withRandom (calculateJoinTiming (profile b));
  if negb (shouldJoin joinTiming) then mret false
  else
    proceed ←
      ((if 0 <? Timing.delay joinTiming then sleep (Timing.delay joinTiming) else mret tt);;
       withRetry viaPageActions;;                     (* navigateToGame *)
       state ← detect;
       if decide (state = REGISTRATION) then
         withRetry viaPageActions;;                   (* fillRegistrationForm *)
         randomSleep 500 1500;;
         joined ← withRetry viaPageActions;           (* clickJoin *)
         if negb (truthy joined) then mret false
         else randomSleep 1000 2000;; mret true
       else mret true);
    if negb proceed then mret false
    else modifyBot (set_retryCount 0);; mret true.

(** [stateManager.waitForState(targetStates, timeout)].  Every turn of
    the loop sleeps 500 ms, so [polls] turns exhaust a timeout of
    [500 * polls] ms; the loop is entered with enough of them. *)
Fixpoint waitForState_from (targets : list GameStates) (timeout startTime : Z)
    (polls : nat) : M GameStates :=
  fun w b =>
  if now w - startTime <? timeout then
    match polls with
    | O => (Unfinished, w, b)
    | S polls' =>
        (currentState ← detect;
         if bool_decide (currentState ∈ targets) then mret currentState
         else if decide (currentState = GAME_ENDED) then mret currentState
         else sleep 500;; waitForState_from targets timeout startTime polls') w b
    end
  else (Throw ("Timeout waiting for state: "
                 +:+ String.concat ", " (state_name <$> targets)), w, b).

Definition waitForState (targets : list GameStates) (timeout : Z) : M GameStates :=
  fun w b =>
  match stateManager b with
  | None => (Throw TypeError_null, w, b)
  | Some _ =>
      waitForState_from targets timeout (now w) (Z.to_nat (timeout / 500 + 1)) w b
  end.

(** [waitForGameStart(timeout)]. *)
Definition waitForGameStart (timeout : Z) : M bool :=
  try_catch
    (state ← waitForState
       [COUNTDOWN; QUESTION; ANSWER_REVEAL; BETWEEN_QUESTIONS; GAME_ENDED] timeout;
     if decide (state = GAME_ENDED) then mret false
     else
       (if decide (state = COUNTDOWN) then
          try_catch (_ ← waitForState [QUESTION; GAME_ENDED] 180000; mret tt)
                    (fun _ => mret tt)
        else mret tt);;
       currentState ← detect;
       if decide (currentState = GAME_ENDED) then mret false else mret true)
    (fun _ => mret false).

(** [waitAndLogRanking()]: the page read only feeds the log and its
    failure is caught. *)
Definition waitAndLogRanking : M unit := sleep 3000;; sleep 1000.

(** [handleQuestion()].  The index the behaviour engine selects is handed
    to the driver, whose reply is whatever the world gives. *)
Definition handleQuestion : M unit :=
  modifyBot (fun b => set_questionNumber (S (questionNumber b)) b);;
  _ ← viaPageActions;                                 (* getQuestionText *)
  answer ← viaPageActions;                            (* getAnswerOptions *)
  match answer with
  | VOptions questionType n =>
      if (n =? 0)%nat then sleep 2000;; waitAndLogRanking
      else
        b ← getBot;
        decision ← (fun w b' =>
          let '(d, e, g) :=
            selectAnswer (profile b) (replicate n tt) None
              {| category := None; difficulty := Some 0.5%Q |}
              (engine w) (random w) in
          (Ret d, set_random g (set_engine e w), b'));
        sleep (Qfloor (Math_min (Behavior.delay decision) 1000));;
        clicked ← viaPageActions;                     (* clickAnswer *)
        if truthy clicked then
          modifyBot (fun b =>
            let r := gameResults b in
            set_gameResults
              {| questionsAnswered := S (questionsAnswered r);
                 correctAnswers := correctAnswers r;
                 finalScore := finalScore r; finalRank := finalRank r |} b);;
          sleep 1500;;
          wasCorrect ← viaPageActions;                (* checkAnswerResult *)
          match wasCorrect with
          | VBool true =>
              modifyBot (fun b =>
                let r := gameResults b in
                set_gameResults
                  {| questionsAnswered := questionsAnswered r;
                     correctAnswers := S (correctAnswers r);
                     finalScore := finalScore r; finalRank := finalRank r |} b);;
              modifyWorld (fun w =>
                set_engine (engineRecordAnswer (profile b) true (engine w)) w)
          | VBool false =>
              modifyWorld (fun w =>
                set_engine (engineRecordAnswer (profile b) false (engine w)) w)
          | _ => mret tt
          end;;
          waitAndLogRanking
        else sleep 2000;; waitAndLogRanking
  | _ => throw "Cannot read properties of undefined"
  end.

(** The [while (this.isRunning)] loop of [playGame], with its
    consecutive-error counter; [maxErrors] is the constant 10. *)
Definition maxErrors : nat := 10.

Fixpoint gameLoop (fuel : nat) (errorCount : nat) : M unit :=
  fun w b =>
  if negb (isRunning b) then (Ret tt, w, b)
  else
    match fuel with
    | O => (Unfinished, w, b)
    | S fuel' =>
        (state ← detect;
         match state with
         | QUESTION => handleQuestion;; sleep 500;; gameLoop fuel' 0
         | RANKING | ANSWER_REVEAL | BETWEEN_QUESTIONS =>
             sleep 500;; gameLoop fuel' 0
         | GAME_ENDED =>
             score ← viaPageActions;                  (* getCurrentScore *)
             modifyBot (fun b =>
               let r := gameResults b in
               set_gameResults
                 {| questionsAnswered := questionsAnswered r;
                    correctAnswers := correctAnswers r;
                    finalScore := score; finalRank := finalRank r |} b);;
             modifyBot (set_isRunning false);;
             gameLoop fuel' errorCount
         | REGISTRATION =>
             _ ← viaPageActions;                      (* clickContinuePlaying *)
             sleep 1000;; gameLoop fuel' 0
         | ERROR =>
             let errorCount := S errorCount in
             if (maxErrors <=? errorCount)%nat then
               modifyBot (set_isRunning false);; gameLoop fuel' errorCount
             else sleep 1000;; gameLoop fuel' errorCount
         | WAITING | COUNTDOWN => sleep 500;; gameLoop fuel' 0
         | UNKNOWN => sleep 500;; gameLoop fuel' errorCount
         end) w b
    end.

(** [playGame()].  Starting the poller on a null state manager raises
    before the guarded loop is entered; any error inside the loop is
    caught and logged. *)
Definition playGame (fuel : nat) : M GameResults :=
  modifyBot (set_isRunning true);;
  b ← getBot;
  if bool_decide (is_Some (stateManager b)) then
    try_catch (gameLoop fuel 0) (fun _ => mret tt);;
    b ← getBot;
    mret (gameResults b)
  else throw TypeError_null.

(** [run(gameUrl)]: [None] is the [null] returned when the agent did
    not join or the game did not start. *)
Definition run (url : option string) (fuel : nat) : M (option GameResults) :=
  try_finally
    (try_catch
       (initialize;;
        joined ← joinGame url;
        if negb joined then mret None
        else
          gameStarted ← waitForGameStart 300000;
          if negb gameStarted then mret None
          else results ← playGame fuel; mret (Some results))
       (fun e => throw e))
    cleanup.

(** [stop()]. *)
Definition stop : M unit := modifyBot (set_isRunning false).

End Bot.

(** ** orchestrator/playerPool.js *)

Module Pool.
Import Js Timing Bot.

(** A JavaScript [Map] with string keys: insertion order is kept, which
    [startAll] relies on when it walks [this.bots.keys()]. *)
Section JsMap.
Context {V : Type}.

Definition map_has (k : string) (m : list (string * V)) : bool :=
    bool_decide (k ∈ m.*1).

Fixpoint map_get (k : string) (m : list (string * V)) : option V :=
    match m with
    | [] => None
    | (k', v) :: rest => if decide (k' = k) then Some v else map_get k rest
    end.

Fixpoint map_set (k : string) (v : V) (m : list (string * V)) : list (string * V) :=
    match m with
    | [] => [(k, v)]
    | (k', v') :: rest =>
        if decide (k' = k) then (k, v) :: rest else (k', v') :: map_set k v rest
    end.

Definition map_keys (m : list (string * V)) : list string := m.*1.
End JsMap.

(** What [startBot] stores in [this.results]: the value [bot.run]
    returned ([null] or the game results) or [{ error: message }]. *)
Inductive Result :=
  | RNull
  | RGame (results : GameResults)
  | RError (message : string).

Record PlayerPool := {
  maxConcurrent : nat;
  headless : bool;
  bots : list (string * TriviaBot);
  activeBots : gset string;
  results : list (string * Result);
  isRunning : bool;
}.

(** Site configuration ([config/default.js]). *)
Record Config := {
  game_url : string;
  browser_maxConcurrent : nat;
  browser_headless : bool;
}.

(** [x || fallback] for a count. *)
Definition or_count (x : option nat) (fallback : nat) : nat :=
  match x with
  | Some (S n) => S n
  | _ => fallback
  end.

(** The constructor. *)
Definition newPlayerPool (config : Config) (maxC : option nat) (hl : option bool)
    : PlayerPool :=
  {| maxConcurrent := or_count maxC (browser_maxConcurrent config);
     headless := default (browser_headless config) hl;
     bots := []; activeBots := ∅; results := []; isRunning := false |}.

Definition set_bots (bs : list (string * TriviaBot)) (p : PlayerPool) : PlayerPool :=
  {| maxConcurrent := maxConcurrent p; headless := headless p; bots := bs;
     activeBots := activeBots p; results := results p; isRunning := isRunning p |}.
Definition set_activeBots (a : gset string) (p : PlayerPool) : PlayerPool :=
  {| maxConcurrent := maxConcurrent p; headless := headless p; bots := bots p;
     activeBots := a; results := results p; isRunning := isRunning p |}.
Definition set_results (r : list (string * Result)) (p : PlayerPool) : PlayerPool :=
  {| maxConcurrent := maxConcurrent p; headless := headless p; bots := bots p;
     activeBots := activeBots p; results := r; isRunning := isRunning p |}.
Definition set_isRunning (r : bool) (p : PlayerPool) : PlayerPool :=
  {| maxConcurrent := maxConcurrent p; headless := headless p; bots := bots p;
     activeBots := activeBots p; results := results p; isRunning := r |}.

(** [addPlayer(profile)] and [addPlayers(profiles)]. *)
Definition addPlayer (config : Config) (profile : Profile) (p : PlayerPool) : PlayerPool :=
  if map_has (id profile) (bots p) then p
  else
    let bot :=
      newTriviaBot profile
        {| gameUrl := Some (game_url config); Bot.headless := headless p;
           maxRetries := 3; retryDelay := 2000 |} in
    set_bots (map_set (id profile) bot (bots p)) p.

Definition addPlayers (config : Config) (profiles : list Profile) (p : PlayerPool)
    : PlayerPool :=
  foldl (fun p profile => addPlayer config profile p) p profiles.

(** *** [startBot], split at its only suspension point *)

(** Up to [await bot.run(gameUrl)]. *)
Inductive Started :=
  | NotFound            (* the promise is rejected: player not found *)
  | AlreadyRunning      (* the promise resolves to [null] at once *)
  | Running.            (* the agent's run is in flight *)

Definition startBot_begin (playerId : string) (p : PlayerPool) : Started * PlayerPool :=
  match map_get playerId (bots p) with
  | None => (NotFound, p)
  | Some _ =>
      if bool_decide (playerId ∈ activeBots p) then (AlreadyRunning, p)
      else (Running, set_activeBots ({[playerId]} ∪ activeBots p) p)
  end.

(** How [bot.run] settled. *)
Inductive Ran :=
  | RanReturned (value : option GameResults)
  | RanThrew (message : string).

(** From the moment [bot.run] settles: record the result, or the error
    message, and in either case leave the active set.  The value is what
    [startBot] resolves to. *)
Definition startBot_end (playerId : string) (ran : Ran) (p : PlayerPool)
    : Result * PlayerPool :=
  let r :=
    match ran with
    | RanReturned (Some g) => RGame g
    | RanReturned None => RNull
    | RanThrew e => RError e
    end in
  let p := set_results (map_set playerId r (results p)) p in
  (r, set_activeBots (activeBots p ∖ {[playerId]}) p).

(** [startBot(playerId, gameUrl)] run to completion for one agent in a
    given world.  The stored bot object is updated with the agent's
    final state. *)
Definition startBot (playerId : string) (url : option string) (fuel : nat)
    (w : World) (p : PlayerPool) : Outcome Result * World * PlayerPool :=
  match map_get playerId (bots p) with
  | None => (Throw ("Player not found: " +:+ playerId), w, p)
  | Some bot =>
      match startBot_begin playerId p with
      | (Running, p) =>
          match run url fuel w bot with
          | (Unfinished, w, bot) => (Unfinished, w, p)
          | (Ret v, w, bot) =>
              let p := set_bots (map_set playerId bot (bots p)) p in
              let '(r, p) := startBot_end playerId (RanReturned v) p in
              (Ret r, w, p)
          | (Throw e, w, bot) =>
              let p := set_bots (map_set playerId bot (bots p)) p in
              let '(r, p) := startBot_end playerId (RanThrew e) p in
              (Ret r, w, p)
          end
      | (_, p) => (Ret RNull, w, p)
      end
  end.

(** *** [getResults] *)

Record Results := {
  totalPlayers : nat;
  completed : nat;
  failed : nat;
  players : list (string * Result);
}.

(** The test [result && !result.error]. *)
Definition counts_completed (r : Result) : bool :=
  match r with
  | RNull => false
  | RGame _ => true
  | RError message => String.eqb message ""
  end.

(** The callback of [this.results.forEach]. *)
Definition tally (acc : Results) (entry : string * Result) : Results :=
  let '(playerId, result) := entry in
  if counts_completed result then
    {| totalPlayers := totalPlayers acc; completed := S (completed acc);
       failed := failed acc;
       players := map_set playerId result (players acc) |}
  else
    {| totalPlayers := totalPlayers acc; completed := completed acc;
       failed := S (failed acc);
       players := map_set playerId result (players acc) |}.

Definition getResults (p : PlayerPool) : Results :=
  foldl tally
    {| totalPlayers := length (bots p); completed := 0; failed := 0; players := [] |}
    (results p).

(** *** Removing and stopping agents *)

Definition map_delete {V} (k : string) (m : list (string * V)) : list (string * V) :=
  filter (fun kv => kv.1 <> k) m.

(** [bot.stop()] followed by [bot.cleanup()]; neither reads the world. *)
Definition stop_and_cleanup (w : World) (bot : TriviaBot) : TriviaBot :=
  ((Bot.stop;; Bot.cleanup) w bot).2.

(** [removePlayer(playerId)]: the removed bot is stopped and cleaned up
    before it is dropped. *)
Definition removePlayer (playerId : string) (p : PlayerPool) : PlayerPool :=
  match map_get playerId (bots p) with
  | Some _ =>
      set_activeBots (activeBots p ∖ {[playerId]})
        (set_bots (map_delete playerId (bots p)) p)
  | None => p
  end.

(** [stopAll()], run to its end. *)
Definition stopAll (w : World) (p : PlayerPool) : PlayerPool :=
  let p := set_isRunning false p in
  let p := set_bots ((fun kv => (kv.1, stop_and_cleanup w kv.2)) <$> bots p) p in
  set_activeBots ∅ p.

(** [clear()]. *)
Definition clear (w : World) (p : PlayerPool) : PlayerPool :=
  set_results [] (set_bots [] (stopAll w p)).

(** [getStats()]. *)
Record Stats := {
  stats_totalPlayers : nat;
  stats_activePlayers : nat;
  stats_maxConcurrent : nat;
  stats_isRunning : bool;
}.

Definition getStats (p : PlayerPool) : Stats :=
  {| stats_totalPlayers := length (bots p);
     stats_activePlayers := size (activeBots p);
     stats_maxConcurrent := maxConcurrent p;
     stats_isRunning := isRunning p |}.

(** *** [startAll] as a task on the event loop

    The task runs without interruption between two of its [await]s.
    [Loc] names the [await] it is suspended in. *)

Inductive Loc :=
  | AtWhile (i : nat)                (* [await sleep(500)], waiting for a free slot *)
  | AtStagger (i : nat) (delay : Z)  (* [await sleep(delay)] before agent [i] starts *)
  | AtJoin                           (* [await Promise.all(promises)] *)
  | Returned (r : Results).

Record Task := {
  loc : Loc;
  playerIds : list string;
  stagger : Z * Z;                   (* [staggerDelay.min], [staggerDelay.max] *)
  limit : nat;                       (* the local [maxConcurrent] *)
  launched : list string;            (* agents whose [bot.run] was begun, in order *)
  pending : gset string;             (* those whose promise has not settled *)
  rand : rng;
}.

Record System := {
  pool : PlayerPool;
  task : Task;
}.

Definition at_loc (l : Loc) (s : System) : System :=
  {| pool := pool s;
     task := {| loc := l; playerIds := playerIds (task s);
                stagger := stagger (task s); limit := limit (task s);
                launched := launched (task s); pending := pending (task s);
                rand := rand (task s) |} |}.

(** [this.startBot(playerId, gameUrl)] called from the loop: it runs up
    to its [await], the promise is pushed. *)
Definition launch (i : nat) (s : System) : System :=
  match playerIds (task s) !! i with
  | None => s
  | Some playerId =>
      let '(started, p) := startBot_begin playerId (pool s) in
      let t := task s in
      match started with
      | Running =>
          {| pool := p;
             task := {| loc := loc t; playerIds := playerIds t;
                        stagger := stagger t; limit := limit t;
                        launched := launched t ++ [playerId];
                        pending := {[playerId]} ∪ pending t;
                        rand := rand t |} |}
      | _ => {| pool := p; task := t |}
      end
  end.

(** The test of the admission [while] and the [break] after it: the
    task suspends, leaves the loop, or ([None]) goes on to the launch. *)
Definition suspend_or_break (i : nat) (s : System) : option System :=
  if (limit (task s) <=? size (activeBots (pool s)))%nat && isRunning (pool s)
  then Some (at_loc (AtWhile i) s)
  else if negb (isRunning (pool s)) then Some (at_loc AtJoin s)
  else None.

(** [await sleep(randomDelay(staggerDelay.min, staggerDelay.max))]. *)
Definition stagger_sleep (i : nat) (s : System) : System :=
  let t := task s in
  let '(delay, g) := randomDelay (stagger t).1 (stagger t).2 (rand t) in
  {| pool := pool s;
     task := {| loc := AtStagger i delay; playerIds := playerIds t;
                stagger := stagger t; limit := limit t;
                launched := launched t; pending := pending t; rand := g |} |}.

(** The loop head for an index that is not the first: the [for] test,
    the admission wait, the stagger. *)
Definition loop_head_next (i : nat) (s : System) : System :=
  if (i <? length (playerIds (task s)))%nat && isRunning (pool s) then
    match suspend_or_break i s with
    | Some s' => s'
    | None => stagger_sleep i s
    end
  else at_loc AtJoin s.

(** Launch agent [i] and go round the loop. *)
Definition after_stagger (i : nat) (s : System) : System :=
  loop_head_next (S i) (launch i s).

(** The admission wait for any index: only the first agent is launched
    without a stagger. *)
Definition while_test (i : nat) (s : System) : System :=
  match suspend_or_break i s with
  | Some s' => s'
  | None => if (0 <? i)%nat then stagger_sleep i s else after_stagger i s
  end.

Definition loop_head (i : nat) (s : System) : System :=
  if (i <? length (playerIds (task s)))%nat && isRunning (pool s)
  then while_test i s else at_loc AtJoin s.

Record StartOptions := {
  staggerDelay : option (Z * Z);
  optMaxConcurrent : option nat;
}.

(** The call [startAll(gameUrl, options)], up to its first [await]. *)
Definition startAll (opts : StartOptions) (g : rng) (p : PlayerPool) : System :=
  let p := set_isRunning true p in
  loop_head 0
    {| pool := p;
       task := {| loc := AtWhile 0; playerIds := map_keys (bots p);
                  stagger := default (1000, 5000) (staggerDelay opts);
                  limit := default (maxConcurrent p) (optMaxConcurrent opts);
                  launched := []; pending := ∅; rand := g |} |}.

(** What can happen next on the event loop. *)
Inductive Event :=
  | Resume                                  (* the task's timer fires, or all joined promises have settled *)
  | Settle (playerId : string) (ran : Ran)  (* the run of a launched agent settles *)
  | StopAll                                 (* [stopAll()] is called *)
  | StopAllDone.                            (* [stopAll()] resumes after the cleanups *)

Definition resume (s : System) : System :=
  match loc (task s) with
  | AtWhile i => while_test i s
  | AtStagger i _ => after_stagger i s
  | AtJoin =>
      if bool_decide (pending (task s) = ∅) then
        let p := set_isRunning false (pool s) in
        at_loc (Returned (getResults p)) {| pool := p; task := task s |}
      else s
  | Returned _ => s
  end.

Definition settle (playerId : string) (ran : Ran) (s : System) : System :=
  if bool_decide (playerId ∈ pending (task s)) then
    let t := task s in
    {| pool := (startBot_end playerId ran (pool s)).2;
       task := {| loc := loc t; playerIds := playerIds t;
                  stagger := stagger t; limit := limit t;
                  launched := launched t;
                  pending := pending t ∖ {[playerId]}; rand := rand t |} |}
  else s.

Definition step (e : Event) (s : System) : System :=
  match e with
  | Resume => resume s
  | Settle playerId ran => settle playerId ran s
  | StopAll => {| pool := set_isRunning false (pool s); task := task s |}
  | StopAllDone => {| pool := set_activeBots ∅ (pool s); task := task s |}
  end.

(** The system after the first [n] events of a schedule. *)
Fixpoint state_at (schedule : nat -> Event) (n : nat) (s : System) : System :=
  match n with
  | O => s
  | S n' => step (schedule n') (state_at schedule n' s)
  end.

End Pool.

(** ** orchestrator/gameSession.js *)

Module Session.
Import Js Timing Pool.

Inductive Status := idle | initializing | running | completed | failed | stopped.

#[global] Instance Status_eq_dec : EqDecision Status.
Proof. solve_decision. Defined.

Definition status_name (s : Status) : string :=
  match s with
  | idle => "idle" | initializing => "initializing" | running => "running"
  | completed => "completed" | failed => "failed" | stopped => "stopped"
  end.

Record SessionOptions := {
  opt_maxConcurrent : nat;
  opt_headless : bool;
  opt_staggerDelay : Z * Z;
}.

(** The fields of [GameSession].  [pool] is the session's reference to
    its pool; once [startAll] runs, the live pool is the one of the
    running system and this field is the pool as it was handed over. *)
Record GameSession := {
  gameUrl : option string;
  players : list Profile;
  pool : option PlayerPool;
  startTime : option Z;
  endTime : option Z;
  status : Status;
  options : SessionOptions;
}.

(** The arguments of the constructor; an absent key is [None]. *)
Record SessionArgs := {
  arg_gameUrl : option string;
  arg_players : option (list Profile);
  arg_maxConcurrent : option nat;
  arg_headless : option bool;
  arg_staggerDelay : option (Z * Z);
}.

Definition newGameSession (config : Config) (args : SessionArgs) : GameSession :=
  {| gameUrl :=
       if truthy_str (arg_gameUrl args) then arg_gameUrl args
       else Some (game_url config);
     players := default [] (arg_players args);
     pool := None;
     startTime := None;
     endTime := None;
     status := idle;
     options :=
       {| opt_maxConcurrent :=
            or_count (arg_maxConcurrent args) (browser_maxConcurrent config);
          opt_headless := default (browser_headless config) (arg_headless args);
          opt_staggerDelay := default (1000, 5000) (arg_staggerDelay args) |} |}.

Definition setGameUrl (url : option string) (s : GameSession) : GameSession :=
  {| gameUrl := url; players := players s; pool := pool s;
     startTime := startTime s; endTime := endTime s; status := status s;
     options := options s |}.

Definition setPlayers (ps : list Profile) (s : GameSession) : GameSession :=
  {| gameUrl := gameUrl s; players := ps; pool := pool s;
     startTime := startTime s; endTime := endTime s; status := status s;
     options := options s |}.

(** [initialize()]: the error message, or the initialised session. *)
Definition initialize (config : Config) (s : GameSession) : string + GameSession :=
  if decide (status s <> idle) then
    inl ("Cannot initialize session in " +:+ status_name (status s) +:+ " state")
  else
    let p :=
      newPlayerPool config (Some (opt_maxConcurrent (options s)))
                    (Some (opt_headless (options s))) in
    inr {| gameUrl := gameUrl s; players := players s;
           pool := Some (addPlayers config (players s) p);
           startTime := startTime s; endTime := endTime s;
           status := initializing; options := options s |}.

(** How far [start()] has come when it first waits on the pool: it has
    raised, or [pool.startAll] is under way. *)
Inductive Start :=
  | Raised (message : string)
  | Started (system : System).

(** [start()] from its roster check up to
    [await this.pool.startAll(...)]; [clock] is the reading of
    [new Date()].  The status notification sent to the optional
    persistence service cannot change the session. *)
Definition start_checked (clock : Z) (g : rng) (s : GameSession)
    : Start * GameSession :=
  if bool_decide (length (players s) = 0%nat) then (Raised "No players in session", s)
  else if negb (truthy_str (gameUrl s)) then (Raised "No game URL set", s)
  else
    match pool s with
    | None => (Raised Bot.TypeError_null, s)
    | Some p =>
        let system :=
          startAll {| staggerDelay := Some (opt_staggerDelay (options s));
                      optMaxConcurrent := Some (opt_maxConcurrent (options s)) |}
                   g p in
        (Started system,
         {| gameUrl := gameUrl s; players := players s;
            pool := Some (Pool.pool system);
            startTime := Some clock; endTime := endTime s;
            status := running; options := options s |})
    end.

(** [start()]: a session without a pool is initialised first. *)
Definition start (config : Config) (clock : Z) (g : rng) (s : GameSession)
    : Start * GameSession :=
  match pool s with
  | Some _ => start_checked clock g s
  | None =>
      match initialize config s with
      | inl message => (Raised message, s)
      | inr s => start_checked clock g s
      end
  end.

(** [start()] once [startAll] has returned: the session completes. *)
Definition start_returns (clock : Z) (s : GameSession) : GameSession :=
  {| gameUrl := gameUrl s; players := players s; pool := pool s;
     startTime := startTime s; endTime := Some clock;
     status := completed; options := options s |}.

(** [stop()], after [pool.stopAll()] has finished. *)
Definition stop (clock : Z) (s : GameSession) : GameSession :=
  {| gameUrl := gameUrl s; players := players s;
     pool := (fun p => set_activeBots ∅ (set_isRunning false p)) <$> pool s;
     startTime := startTime s; endTime := Some clock;
     status := if decide (status s = running) then stopped else status s;
     options := options s |}.

(** [cleanup()]. *)
Definition cleanup (s : GameSession) : GameSession :=
  {| gameUrl := gameUrl s; players := players s; pool := None;
     startTime := startTime s; endTime := endTime s; status := status s;
     options := options s |}.

End Session.

(** ** Vocabulary of the properties *)

(** ** Profile validation ([players/playerSchema.js]) *)

Module Schema.
Import Js Timing.

(** The fields of a profile object that [validateProfile] reads, as the
    object holds them.  A text field is a string or is absent ([None]:
    [undefined] or [null]); a numeric field is a number or is not one
    ([None]: [undefined] or [NaN]).  [reactionTime] itself is an object,
    as [createProfile] makes it. *)
Record RawProfile := {
  raw_id : option string;
  raw_nickname : option string;
  raw_email : option string;
  raw_accuracy : option Q;
  raw_rt_min : option Q;
  raw_rt_max : option Q;
  raw_rt_average : option Q;
  raw_personality : option string;
}.

(** [a < b] and [a >= b] on values that may not be numbers: a comparison
    with [undefined] or [NaN] is false. *)
Definition lt_nan (a b : option Q) : bool :=
  match a, b with
  | Some a, Some b => lt_num a b
  | _, _ => false
  end.

Definition ge_nan (a b : option Q) : bool :=
  match a, b with
  | Some a, Some b => Qle_bool b a
  | _, _ => false
  end.

Definition validPersonalities : list string :=
  ["fast"; "cautious"; "random"; "normal"].

Record Validation := {
  valid : bool;
  errors : list string;
}.

(** [validateProfile(profile)]: the checks push their messages in
    source order.  [reactionTime.average] is not checked. *)
Definition validateProfile (profile : RawProfile) : Validation :=
  let errors := [] in
  let errors :=
    if negb (truthy_str (raw_id profile))
    then errors ++ ["Profile must have an id"] else errors in
  let errors :=
    if negb (truthy_str (raw_nickname profile))
    then errors ++ ["Profile must have a nickname"] else errors in
  let errors :=
    if negb (truthy_str (raw_email profile))
    then errors ++ ["Profile must have an email"] else errors in
  let errors :=
    if lt_nan (raw_accuracy profile) (Some 0%Q) || lt_nan (Some 1%Q) (raw_accuracy profile)
    then errors ++ ["Accuracy must be between 0 and 1"] else errors in
  let errors :=
    if ge_nan (raw_rt_min profile) (raw_rt_max profile)
    then errors ++ ["Reaction time min must be less than max"] else errors in
  let errors :=
    if negb (match raw_personality profile with
             | Some p => bool_decide (p ∈ validPersonalities)
             | None => false
             end)
    then errors ++ ["Personality must be one of: "
                      +:+ String.concat ", " validPersonalities]
    else errors in
  {| valid := bool_decide (length errors = 0%nat); errors := errors |}.

End Schema.

Module Spec.
Import Js Timing Behavior GameState Bot Pool.

(** The derived flags of a player state agree with its signed streak. *)
Definition flags_agree (s : PlayerState) : Prop :=
  (isHot s = true <-> 3 <= currentStreak s) /\
  (isCold s = true <-> currentStreak s <= -3) /\
  ~ (isHot s = true /\ isCold s = true).

(** The two operations that write a player state. *)
Inductive StateOp :=
  | OpRecord (wasCorrect : bool)
  | OpReset.

Definition apply_op (s : PlayerState) (op : StateOp) : PlayerState :=
  match op with
  | OpRecord wasCorrect => recordAnswer wasCorrect s
  | OpReset => reset s
  end.

(** The game-ended keyword set matches the text of the snapshot. *)
Definition game_ended_text (snap : Snapshot) : Prop :=
  exists text, innerText snap = Some text /\
    includes_any ["you finished"; "game over"; "thank you for playing";
                  "final results"] text = true.

(** Answer controls are present and the parsed timer is positive. *)
Definition controls_with_timer (snap : Snapshot) : Prop :=
  exists text letters grips minutes seconds,
    innerText snap = Some text /\
    answerButtons snap = Some (letters, grips) /\
    (0 < letters + grips)%nat /\
    timerMatch text = Some (minutes, seconds) /\
    0 < parseInt minutes * 60 + parseInt seconds.

(** No rule of higher precedence applies and the registration query
    answers. *)
Definition no_registration_signal (snap : Snapshot) : Prop :=
  exists text, innerText snap = Some text /\
    includes_any ["welcome back"; "continue playing"] text = false /\
    registrationForm snap = Some false.

(** An optional probability of the profile is present and equals [v]. *)
Definition chance_is (c : option Q) (v : Q) : Prop :=
  exists x, c = Some x /\ (x == v)%Q.

(** A roster or a target URL is missing. *)
Definition misconfigured (s : Session.GameSession) : Prop :=
  Session.players s = [] \/ truthy_str (Session.gameUrl s) = false.

(** One of the two configuration errors of [start()]. *)
Definition configuration_error (message : string) : Prop :=
  message = "No players in session" \/ message = "No game URL set".

(** The status a session is left in when [start()] raises before its
    checks pass: untouched, except that an idle session without a pool
    has been initialised on the way. *)
Definition status_after_rejected_start (s : Session.GameSession) : Session.Status :=
  match Session.pool s with
  | Some _ => Session.status s
  | None =>
      if decide (Session.status s = Session.idle)
      then Session.initializing else Session.status s
  end.

(** The error of such a [start()]: a configuration error, or the refusal
    of [initialize()] when the session has no pool and is not idle. *)
Definition rejected_start_error (s : Session.GameSession) (message : string) : Prop :=
  match Session.pool s with
  | Some _ => configuration_error message
  | None =>
      if decide (Session.status s = Session.idle)
      then configuration_error message
      else message = "Cannot initialize session in "
                       +:+ Session.status_name (Session.status s) +:+ " state"
  end.

(** A computation of the agent never lowers the recovery counter. *)
Definition grows {A} (c : Bot.M A) : Prop :=
  forall w b out w' b',
    c w b = (out, w', b') -> (Bot.retryCount b <= Bot.retryCount b')%nat.

(** What [getResults] counts as completed: game results, or an error
    object whose message is empty. *)
Definition completed_shape (r : Pool.Result) : Prop :=
  (exists g, r = Pool.RGame g) \/ r = Pool.RError "".

(** What it counts as failed: the [null] result, or an error object with
    a message. *)
Definition failed_shape (r : Pool.Result) : Prop :=
  r = Pool.RNull \/ exists e, r = Pool.RError e /\ e <> "".

(** The result recorded for a player carries an error. *)
Definition error_recorded (r : Result) : Prop :=
  exists message, r = RError message.

(** A schedule of the event loop in which [stopAll] is never called,
    the task is always resumed again, and the run of every active agent
    settles at some later point. *)
Record fair (schedule : nat -> Event) (s0 : System) : Prop := {
  fair_no_stop : forall n, schedule n <> StopAll /\ schedule n <> StopAllDone;
  fair_resume : forall n, exists m, (n <= m)%nat /\ schedule m = Resume;
  fair_settle : forall n playerId,
    playerId ∈ activeBots (pool (state_at schedule n s0)) ->
    exists m ran, (n <= m)%nat /\ schedule m = Settle playerId ran;
}.

(** The admission bound: never more active agents than the limit, and
    strictly fewer while the task sleeps before a launch. *)
Definition bounded (s : System) : Prop :=
  (size (activeBots (pool s)) <= limit (task s))%nat /\
  forall i delay, loc (task s) = AtStagger i delay ->
    (size (activeBots (pool s)) < limit (task s))%nat.

(** How far the admission loop has come: twice the loop index, plus one
    once the slot for that index has been granted. *)
Definition rank (s : System) : nat :=
  match loc (task s) with
  | AtWhile i => 2 * i
  | AtStagger i _ => 2 * i + 1
  | AtJoin | Returned _ => 2 * length (playerIds (task s))
  end.

(** What holds of a running [startAll] whose loop index is [i], as long
    as nobody calls [stopAll]. *)
Record base (s : System) (i : nat) : Prop := {
  base_nodup : NoDup (playerIds (task s));
  base_bots : forall x, x ∈ playerIds (task s) ->
                is_Some (map_get x (bots (pool s)));
  base_limit : (1 <= limit (task s))%nat;
  base_active : activeBots (pool s) ⊆ pending (task s);
  base_pending : forall x, x ∈ pending (task s) -> x ∈ launched (task s);
  base_launched : launched (task s) = take i (playerIds (task s));
  base_running : isRunning (pool s) = true;
  base_index : (i <= length (playerIds (task s)))%nat;
}.

Definition live (s : System) : Prop :=
  match loc (task s) with
  | AtWhile i => base s i /\ (i < length (playerIds (task s)))%nat
  | AtStagger i _ => base s i /\ (i < length (playerIds (task s)))%nat
  | AtJoin => base s (length (playerIds (task s)))
  | Returned _ => launched (task s) = playerIds (task s)
  end.

(** Every active agent is a registered one. *)
Definition known (s : System) : Prop :=
  forall x, x ∈ activeBots (pool s) -> x ∈ playerIds (task s).

(** The stagger range is [0, 0]: every stagger sleep lasts 0 ms. *)
Definition calm (s : System) : Prop :=
  stagger (task s) = (0, 0) /\
  unit_draws (rand (task s)) /\
  forall i delay, loc (task s) = AtStagger i delay -> delay = 0.

(** The scenario of the specification: a pool with three registered
    profiles, started with [maxConcurrent = 2] and a zero stagger range. *)
Definition three_agents (config : Config) (a b c : Profile) : PlayerPool :=
  addPlayers config [a; b; c] (newPlayerPool config None None).

Definition two_at_a_time : StartOptions :=
  {| staggerDelay := Some (0, 0); optMaxConcurrent := Some 2%nat |}.

(** The next [k] classifications of the page are all [ERROR]. *)
Fixpoint errors_ahead (k : nat) (pages : nat -> Snapshot) (m : Manager) : Prop :=
  match k with
  | O => True
  | S k' =>
      (detectState (pages 0%nat) m).1 = ERROR /\
      errors_ahead k' (fun n => pages (S n)) (detectState (pages 0%nat) m).2
  end.

(** The counters of a player state are consistent: no more correct
    answers than answers, and a streak no longer than the number of
    answers. *)
Definition tally_ok (s : PlayerState) : Prop :=
  (Behavior.correctAnswers s <= Behavior.questionsAnswered s)%nat /\
  Z.abs (currentStreak s) <= Z.of_nat (Behavior.questionsAnswered s).

(** The calls that write the behaviour engine. *)
Inductive EngineOp :=
  | ERecord (profile : Profile) (wasCorrect : bool)
  | EReset (profile : Profile)
  | ELookup (profile : Profile).

Definition apply_engine_op (e : BehaviorEngine) (op : EngineOp) : BehaviorEngine :=
  match op with
  | ERecord profile wasCorrect => engineRecordAnswer profile wasCorrect e
  | EReset profile => resetPlayer profile e
  | ELookup profile => (getPlayerState profile e).2
  end.

(** Every state the engine holds is consistent. *)
Definition engine_ok (e : BehaviorEngine) : Prop :=
  forall k s, playerStates e !! k = Some s -> tally_ok s.

(** A typing correction is well placed in a text typed from position
    [start]: not at the first character of the text, at a position of the
    text, with a delay of 100 to 300 ms and a wrong character at most two
    codes away from the right one. *)
Definition correction_ok (chars : list ascii) (start : nat) (c : Correction) : Prop :=
  (1 <= position c)%nat /\
  (start <= position c < start + length chars)%nat /\
  100 <= correctionDelay c <= 300 /\
  exists a, chars !! (position c - start)%nat = Some a /\
            -2 <= wrongCharCode c - Z.of_nat (nat_of_ascii a) <= 2.

(** A string of decimal digits. *)
Definition digits (s : string) : Prop :=
  Forall (fun a => is_digit a = true) (list_ascii_of_string s).

(** From one state of an agent to a later one: the counters only go up,
    no stretch has more correct answers than counted answers or more
    counted answers than handled questions, and the agent keeps its
    profile and its options. *)
Definition advances (b b' : TriviaBot) : Prop :=
  (Bot.questionNumber b <= Bot.questionNumber b')%nat /\
  (Bot.questionsAnswered (gameResults b) <= Bot.questionsAnswered (gameResults b'))%nat /\
  (Bot.correctAnswers (gameResults b) <= Bot.correctAnswers (gameResults b'))%nat /\
  (Bot.correctAnswers (gameResults b') + Bot.questionsAnswered (gameResults b)
   <= Bot.questionsAnswered (gameResults b') + Bot.correctAnswers (gameResults b))%nat /\
  (Bot.questionsAnswered (gameResults b') + Bot.questionNumber b
   <= Bot.questionNumber b' + Bot.questionsAnswered (gameResults b))%nat /\
  Bot.profile b' = Bot.profile b /\ Bot.options b' = Bot.options b.

Definition keeps {A} (c : Bot.M A) : Prop :=
  forall w b out w' b', c w b = (out, w', b') -> advances b b'.

(** The bots of a pool have distinct ids and every active id is the id
    of a bot. *)
Definition pool_ok (p : PlayerPool) : Prop :=
  NoDup (map_keys (bots p)) /\
  forall x, x ∈ activeBots p -> x ∈ map_keys (bots p).

(** The calls that write a pool. *)
Inductive PoolOp :=
  | PAdd (profile : Profile)
  | PAddMany (profiles : list Profile)
  | PRemove (playerId : string)
  | PStart (playerId : string) (url : option string) (fuel : nat) (w : World)
  | PBegin (playerId : string)
  | PEnd (playerId : string) (ran : Ran)
  | PStopAll (w : World)
  | PClear (w : World).

Definition apply_pool_op (config : Config) (p : PlayerPool) (op : PoolOp) : PlayerPool :=
  match op with
  | PAdd profile => addPlayer config profile p
  | PAddMany profiles => addPlayers config profiles p
  | PRemove playerId => removePlayer playerId p
  | PStart playerId url fuel w => (startBot playerId url fuel w p).2
  | PBegin playerId => (startBot_begin playerId p).2
  | PEnd playerId ran => (startBot_end playerId ran p).2
  | PStopAll w => stopAll w p
  | PClear w => clear w p
  end.

(** The books of [startAll] are in order: every pending agent was
    launched, every launched agent is pending or has a recorded result,
    and once the call has returned nothing is pending and the pool is
    stopped. *)
Definition accounted (s : System) : Prop :=
  (forall x, x ∈ pending (task s) -> x ∈ launched (task s)) /\
  (forall x, x ∈ launched (task s) ->
     x ∈ pending (task s) \/ is_Some (map_get x (results (pool s)))) /\
  (forall r, loc (task s) = Returned r ->
     pending (task s) = ∅ /\ Pool.isRunning (pool s) = false).

(** Two systems that differ at most in where the task waits and in its
    random source. *)
Definition same_books (s s' : System) : Prop :=
  pool s' = pool s /\ launched (task s') = launched (task s) /\
  pending (task s') = pending (task s) /\ playerIds (task s') = playerIds (task s).

(** The task has left its admission loop. *)
Definition past_loop (s : System) : Prop :=
  loc (task s) = AtJoin \/ exists r, loc (task s) = Returned r.

(** What a stopped pool allows between a state [s] and a later state
    [s']: no launch at all, or the single launch that was already past
    its admission test, after which the loop is left. *)
Definition wound_down (s s' : System) : Prop :=
  Pool.isRunning (pool s') = false /\
  playerIds (task s') = playerIds (task s) /\
  ((launched (task s') = launched (task s) /\
    (loc (task s') = loc (task s) \/ past_loop s')) \/
   (exists i d x,
      loc (task s) = AtStagger i d /\ playerIds (task s) !! i = Some x /\
      launched (task s') = launched (task s) ++ [x] /\ past_loop s')).

(** The category [shouldAnswerCorrectly] looks up (["general"] when
    absent) is harmless: the profile has no knowledge areas, or the
    category is one of its own keys, or it is not the name of a member
    that objects inherit. *)
Definition plain_category (profile : Profile) (options : DecisionOptions) : Prop :=
  match knowledgeAreas profile with
  | None => True
  | Some areas =>
      is_Some (areas !! default "general" (category options)) \/
      default "general" (category options) ∉ Object_prototype_keys
  end.

(** The profile object holds, in the fields the core reads, the values
    of the typed profile. *)
Definition reads_as (raw : Schema.RawProfile) (profile : Profile) : Prop :=
  Schema.raw_id raw = Some (id profile) /\
  Schema.raw_accuracy raw = Some (accuracy profile) /\
  Schema.raw_rt_min raw = Some (rt_min (reactionTime profile)) /\
  Schema.raw_rt_max raw = Some (rt_max (reactionTime profile)) /\
  Schema.raw_rt_average raw = Some (rt_average (reactionTime profile)) /\
  Schema.raw_personality raw = Some (personality profile).

(** From one state of an agent to a later one, the recovery budget is
    not refunded: the counter is at least what it was and the options,
    [maxRetries] among them, are the same. *)
Definition budget_kept (b b' : TriviaBot) : Prop :=
  (Bot.retryCount b <= Bot.retryCount b')%nat /\ Bot.options b' = Bot.options b.

(** Nor is the agent set running again. *)
Definition stays_down (b b' : TriviaBot) : Prop :=
  budget_kept b b' /\ (Bot.isRunning b' = true -> Bot.isRunning b = true).

Definition never_refunds {A} (c : Bot.M A) : Prop :=
  forall w b out w' b', c w b = (out, w', b') -> budget_kept b b'.

Definition never_rearms {A} (c : Bot.M A) : Prop :=
  forall w b out w' b', c w b = (out, w', b') -> stays_down b b'.

(** The agent has used up its recovery budget. *)
Definition spent (b : TriviaBot) : Prop :=
  (Bot.maxRetries (Bot.options b) <= Bot.retryCount b)%nat.

End Spec.

(** ** Sample inputs *)

Module Samples.
Import Js Timing Behavior GameState Bot Pool.

(** Every draw is one half. *)
Definition half : rng := fun _ => (1 # 2)%Q.

Definition player (name : string) (noShow late : Q) : Profile :=
  {| id := name; accuracy := 0.7; knowledgeAreas := None;
     reactionTime := {| rt_min := 2000; rt_max := 10000; rt_average := 5000 |};
     personality := "normal"; consistency := 0.8;
     lateJoinChance := Some late; noShowChance := Some noShow |}.

Definition never_shows : Profile := player "ghost" 1 0.5.
Definition on_time : Profile := player "alice" 0 0.

(** A punctual player with the knowledge areas of the default profile. *)
Definition versed : Profile :=
  {| id := "dana"; accuracy := 0.7;
     knowledgeAreas :=
       Some (<["general" := 0.7%Q]> (<["sports" := 0.75%Q]>
              (<["hockey" := 0.8%Q]> (<["football" := 0.75%Q]> ∅))));
     reactionTime := {| rt_min := 2000; rt_max := 10000; rt_average := 5000 |};
     personality := "normal"; consistency := 0.8;
     lateJoinChance := Some 0%Q; noShowChance := Some 0%Q |}.

(** Decision options whose category names a member that every object
    inherits. *)
Definition constructor_category : DecisionOptions :=
  {| category := Some "constructor"; difficulty := None |}.

Definition four_options : list unit := [tt; tt; tt; tt].

Definition no_category : DecisionOptions := {| category := None; difficulty := None |}.

(** A page that shows the end of the game, answer buttons and a running
    timer. *)
Definition ended_with_controls : Snapshot :=
  {| innerText := Some "game over 0:10";
     answerButtons := Some (4%nat, 0%nat);
     registrationForm := Some false |}.

(** The same page with the returning-player banner on it. *)
Definition ended_welcome_back : Snapshot :=
  {| innerText := Some "welcome back game over 0:10";
     answerButtons := Some (4%nat, 0%nat);
     registrationForm := Some false |}.

(** A stream that replays a list and then repeats a default. *)
Definition replay {A} (l : list A) (d : A) : nat -> A := fun n => nth n l d.

Definition waiting_page : Snapshot :=
  {| innerText := Some "hang tight"; answerButtons := Some (0%nat, 0%nat);
     registrationForm := Some false |}.

Definition between_page : Snapshot :=
  {| innerText := Some "next question in 0:10";
     answerButtons := Some (0%nat, 0%nat); registrationForm := Some false |}.

(** A question with four lettered answers and 25 seconds on the clock. *)
Definition question_page : Snapshot :=
  {| innerText := Some "which planet is largest? 0:25";
     answerButtons := Some (4%nat, 0%nat); registrationForm := Some false |}.

Definition error_page : Snapshot :=
  {| innerText := Some "something went wrong";
     answerButtons := Some (0%nat, 0%nat); registrationForm := Some false |}.

(** A world that shows the given pages and then the waiting room, and
    whose driver gives the given replies and then succeeds. *)
Definition world (pages : list Snapshot) (replies : list Reply) : World :=
  {| now := 0; random := half; engine := newBehaviorEngine;
     page := replay pages waiting_page;
     driver := replay replies (Returns (VBool true)) |}.

Definition agent_options : BotOptions :=
  {| gameUrl := Some "https://www.crowd.live/FNJCN"; Bot.headless := true;
     maxRetries := 3; retryDelay := 2000 |}.

(** An agent as the pool builds it, once initialised. *)
Definition ready_agent : TriviaBot :=
  set_resources true true (Some newManager) (newTriviaBot on_time agent_options).

(** The same agent with its recovery budget used up. *)
Definition spent_agent : TriviaBot := set_retryCount 3 ready_agent.

(** Navigation fails twice with a session-loss error; each recovery
    relaunches the browser and navigates again. *)
Definition two_navigation_failures : list Reply :=
  [ Raises "Target closed"; Returns VNull; Returns VNull;
    Raises "Page crashed"; Returns VNull; Returns VNull;
    Returns VNull ].

(** The pages a joining agent sees before ten error screens in a row:
    the waiting room when it joins, a timer when the game starts. *)
Definition error_run_pages : list Snapshot :=
  [waiting_page; between_page; between_page] ++ replicate 10 error_page.

Definition site : Config :=
  {| game_url := "https://www.crowd.live/FNJCN";
     browser_maxConcurrent := 100; browser_headless := true |}.

(** A session constructed without players. *)
Definition empty_session : Session.GameSession :=
  Session.newGameSession site
    {| Session.arg_gameUrl := None; Session.arg_players := None;
       Session.arg_maxConcurrent := None; Session.arg_headless := None;
       Session.arg_staggerDelay := None |}.

(** The profile object of the punctual player. *)
Definition alice_raw : Schema.RawProfile :=
  {| Schema.raw_id := Some "alice"; Schema.raw_nickname := Some "Alice";
     Schema.raw_email := Some "alice@example.com";
     Schema.raw_accuracy := Some 0.7%Q;
     Schema.raw_rt_min := Some 2000%Q; Schema.raw_rt_max := Some 10000%Q;
     Schema.raw_rt_average := Some 5000%Q;
     Schema.raw_personality := Some "normal" |}.

(** The same object with no accuracy and no reaction times in it. *)
Definition numberless_raw : Schema.RawProfile :=
  {| Schema.raw_id := Some "alice"; Schema.raw_nickname := Some "Alice";
     Schema.raw_email := Some "alice@example.com";
     Schema.raw_accuracy := None;
     Schema.raw_rt_min := None; Schema.raw_rt_max := None;
     Schema.raw_rt_average := None;
     Schema.raw_personality := Some "normal" |}.

Definition bob : Profile := player "bob" 0 0.
Definition carol : Profile := player "carol" 0 0.

(** A schedule that resumes the task and lets each of the three agents
    finish, over and over. *)
Definition round_robin : nat -> Event := fun n =>
  match (n mod 4)%nat with
  | 0%nat => Resume
  | 1%nat => Settle "alice" (RanReturned None)
  | 2%nat => Settle "bob" (RanReturned None)
  | _ => Settle "carol" (RanReturned None)
  end.

(** A pool holding one punctual agent, and one holding an agent that
    never shows up. *)
Definition pool_of (profile : Profile) : PlayerPool :=
  addPlayers site [profile] (newPlayerPool site (Some 2%nat) None).

End Samples.

(** * Properties *)

Import Js Timing Behavior GameState.

(** Unfold the primitive computations of the agent. *)
Ltac unfold_m :=
  cbv beta iota zeta delta
    [mbind mret Bot.M_bind Bot.M_ret Bot.getBot Bot.modifyBot Bot.modifyWorld
     Bot.throw Bot.try_catch Bot.try_finally Bot.sleep Bot.withRandom Bot.call
     Bot.viaPageActions Bot.initialize Bot.cleanupSilent Bot.cleanup].

(** ** Behaviour and timing model *)

Section Numbers.

Lemma Math_max_lower a b : (a <= Math_max a b)%Q.
  Proof.
    unfold Math_max. destruct (Qle_bool a b) eqn:E.
    - now apply Qle_bool_iff.
    - apply Qle_refl.
  Qed.

Lemma Math_max_upper a b c : (a <= c)%Q -> (b <= c)%Q -> (Math_max a b <= c)%Q.
  Proof. unfold Math_max. now destruct (Qle_bool a b). Qed.

Lemma Math_min_upper a b : (Math_min a b <= a)%Q.
  Proof.
    unfold Math_min. destruct (Qle_bool a b) eqn:E.
    - apply Qle_refl.
    - destruct (Qlt_le_dec a b) as [H|H]; [|exact H].
      apply Qlt_le_weak, Qle_bool_iff in H. congruence.
  Qed.

Lemma lt_num_spec a b : lt_num a b = true <-> (a < b)%Q.
  Proof.
    unfold lt_num. rewrite negb_true_iff. split.
    - intros E. destruct (Qlt_le_dec a b) as [H|H]; [exact H|].
      apply Qle_bool_iff in H. congruence.
    - intros H. destruct (Qle_bool b a) eqn:E; [|reflexivity].
      apply Qle_bool_iff in E. lra.
  Qed.

Lemma lt_num_false a b : lt_num a b = false <-> (b <= a)%Q.
  Proof.
    unfold lt_num. rewrite negb_false_iff. apply Qle_bool_iff.
  Qed.

  (** [Math.floor(r * n)] for a draw [r] and a positive integer [n]. *)
Lemma floor_of_draw r n :
    (0 <= r)%Q -> (r < 1)%Q -> 0 < n -> 0 <= Qfloor (r * inject_Z n) < n.
  Proof.
    intros H0 H1 Hn.
    assert (Hq : (inject_Z 0 < inject_Z n)%Q) by (rewrite <- Zlt_Qlt; exact Hn).
    change (inject_Z 0) with 0%Q in Hq.
    split.
    - change 0 with (Qfloor 0). apply Qfloor_resp_le. nra.
    - rewrite Zlt_Qlt. eapply Qle_lt_trans; [apply Qfloor_le|]. nra.
  Qed.

Lemma unit_draws_tail g : unit_draws g -> unit_draws (Math_random g).2.
  Proof. intros H n. apply (H (S n)). Qed.

Lemma unit_draws_head g : unit_draws g -> (0 <= (Math_random g).1 < 1)%Q.
  Proof. intros H. apply (H 0%nat). Qed.

Lemma randomDelay_range min max g :
    unit_draws g -> min <= max ->
    min <= (randomDelay min max g).1 <= max.
  Proof.
    intros Hg Hmm. unfold randomDelay, Math_random.
    destruct (Hg 0%nat) as [H0 H1].
    pose proof (floor_of_draw (g 0%nat) (max - min + 1) H0 H1 ltac:(lia)).
    cbv beta iota zeta delta [fst]. lia.
  Qed.

Lemma randomDelay_draws min max g :
    unit_draws g -> unit_draws (randomDelay min max g).2.
  Proof. intros Hg n. apply (Hg (S n)). Qed.

End Numbers.

Section PlayerStateFlags.
Import Spec.

Lemma recordAnswer_flags wasCorrect s : flags_agree (recordAnswer wasCorrect s).
  Proof.
    unfold flags_agree, recordAnswer; cbn.
    rewrite !Z.leb_le. repeat split; try tauto.
    intros [H1 H2]. destruct wasCorrect; lia.
  Qed.

Lemma reset_flags s : flags_agree (reset s).
  Proof. unfold flags_agree, reset; cbn. repeat split; try discriminate; lia. Qed.

Lemma newPlayerState_flags : flags_agree newPlayerState.
  Proof. exact (reset_flags newPlayerState). Qed.

Lemma apply_op_flags s op : flags_agree (apply_op s op).
  Proof. destruct op; [apply recordAnswer_flags | apply reset_flags]. Qed.

Lemma foldl_ops_flags ops s : flags_agree s -> flags_agree (foldl apply_op s ops).
  Proof.
    revert s. induction ops as [|op ops IH]; intros s Hs; cbn; [exact Hs|].
    apply IH, apply_op_flags.
  Qed.

End PlayerStateFlags.

(** C7: along every sequence of [recordAnswer] (and [reset]) calls that
    starts from a freshly reset or freshly constructed player state,
    [isHot] holds exactly when the signed streak is at least 3, [isCold]
    exactly when it is at most -3, and the two never hold together; each
    single [recordAnswer] and each [reset] yields a state with that
    property. *)
Theorem player_state_flags_invariant :
  (forall s0 ops, Spec.flags_agree (foldl Spec.apply_op (reset s0) ops)) /\
  (forall ops, Spec.flags_agree (foldl Spec.apply_op newPlayerState ops)) /\
  (forall wasCorrect s, Spec.flags_agree (recordAnswer wasCorrect s)) /\
  (forall s, Spec.flags_agree (reset s)).
Proof.
  split; [|split; [|split]].
  - intros s0 ops. apply foldl_ops_flags, reset_flags.
  - intros ops. apply foldl_ops_flags, newPlayerState_flags.
  - apply recordAnswer_flags.
  - apply reset_flags.
Qed.

(** C8: the accuracy that [shouldAnswerCorrectly] compares its roll
    against is meant to lie in [0.10, 0.95] for every category, but the
    clamp lets [NaN] through: for the category "constructor" and a
    profile with knowledge areas, the lookup finds the inherited
    constructor, the accuracy is [NaN] whatever the player state and the
    draws, and the roll is never below it, so the answer is always
    planned wrong. *)
Theorem inherited_category_escapes_clamp :
  effectiveAccuracy Samples.versed newPlayerState Samples.constructor_category (1 # 2)
    = None /\
  (forall state r,
     effectiveAccuracy Samples.versed state Samples.constructor_category r = None) /\
  (forall e g,
     (shouldAnswerCorrectly Samples.versed Samples.constructor_category e g).1.1
       = false).
Proof.
  assert (H : forall state r,
    effectiveAccuracy Samples.versed state Samples.constructor_category r = None).
  { intros state r. unfold effectiveAccuracy.
    cbn [knowledgeAreas Samples.versed category Samples.constructor_category
         default from_option Datatypes.id].
    replace (get_member _ "constructor") with (@Inherited Q)
      by (vm_compute; reflexivity).
    reflexivity. }
  split; [apply H|]. split; [exact H|].
  intros e g. unfold shouldAnswerCorrectly.
  destruct (getPlayerState Samples.versed e) as [state e']. cbn [Math_random].
  rewrite H. reflexivity.
Qed.

Section JoinTiming.

Lemma no_show_certain profile g ns :
    unit_draws g -> noShowChance profile = Some ns -> (ns == 1)%Q ->
    (calculateJoinTiming profile g).1 =
    {| shouldJoin := false; Timing.delay := 0; Timing.reason := "no-show" |}.
  Proof.
    intros Hg Hns E. unfold calculateJoinTiming, Math_random. rewrite Hns. cbn [default from_option Datatypes.id].
    destruct (Hg 0%nat) as [_ H1].
    assert (L : lt_num (g 0%nat) ns = true) by (apply lt_num_spec; lra).
    rewrite L. reflexivity.
  Qed.

Lemma on_time_certain profile g ns lj :
    unit_draws g ->
    noShowChance profile = Some ns -> (ns == 0)%Q ->
    lateJoinChance profile = Some lj -> (lj == 0)%Q ->
    let t := (calculateJoinTiming profile g).1 in
    shouldJoin t = true /\ Timing.reason t = "on-time" /\
    1000 <= Timing.delay t <= 10000.
  Proof.
    intros Hg Hns Ens Hlj Elj. unfold calculateJoinTiming, Math_random.
    rewrite Hns, Hlj. cbn [default from_option Datatypes.id].
    destruct (Hg 0%nat) as [H0 _]. destruct (Hg 1%nat) as [H1 _].
    assert (L0 : lt_num (g 0%nat) ns = false) by (apply lt_num_false; lra).
    assert (L1 : lt_num (g 1%nat) lj = false) by (apply lt_num_false; lra).
    rewrite L0, L1.
    pose proof (randomDelay_range 1000 10000 (fun n => g (S (S n)))
                  (fun n => Hg (S (S n))) ltac:(lia)) as R.
    destruct (randomDelay 1000 10000 (fun n => g (S (S n)))) as [d g'].
    cbn in *. repeat split; lia.
  Qed.

End JoinTiming.

(** C9: with [noShowChance = 1.0], [calculateJoinTiming] answers "will
    not join" whatever [lateJoinChance] and the draws are; with
    [noShowChance = 0] and [lateJoinChance = 0] it answers "on-time" with
    a delay between 1000 and 10000 ms, for every draw. *)
Theorem join_timing_extremes (absent punctual : Profile) (g : rng)
    (Hdraws : unit_draws g)
    (Habsent : Spec.chance_is (noShowChance absent) 1)
    (Hshows : Spec.chance_is (noShowChance punctual) 0)
    (Hearly : Spec.chance_is (lateJoinChance punctual) 0) :
  (calculateJoinTiming absent g).1 =
    {| shouldJoin := false; Timing.delay := 0; Timing.reason := "no-show" |} /\
  shouldJoin (calculateJoinTiming punctual g).1 = true /\
  Timing.reason (calculateJoinTiming punctual g).1 = "on-time" /\
  1000 <= Timing.delay (calculateJoinTiming punctual g).1 <= 10000.
Proof.
  destruct Habsent as (ns & Hns & Ens).
  destruct Hshows as (ns' & Hns' & Ens').
  destruct Hearly as (lj & Hlj & Elj).
  split.
  - now apply no_show_certain with (ns := ns).
  - exact (on_time_certain punctual g ns' lj Hdraws Hns' Ens' Hlj Elj).
Qed.

Section SelectAnswer.

Lemma scan_range weights : forall i random j,
    scan weights i random = Some j -> i <= j < i + Z.of_nat (length weights).
  Proof.
    induction weights as [|w ws IH]; intros i random j; cbn [scan length].
    - discriminate.
    - destruct (Qle_bool (random - w) 0).
      + intros [= <-]. lia.
      + intros H. apply IH in H. lia.
  Qed.

Lemma weightedRandom_range weights g :
    weights <> [] ->
    0 <= (weightedRandom weights g).1 < Z.of_nat (length weights).
  Proof.
    intros Hne. unfold weightedRandom, Math_random. cbv beta iota zeta delta [fst].
    destruct (scan weights 0 _) as [j|] eqn:E; cbn [default from_option Datatypes.id].
    - apply scan_range in E. lia.
    - destruct weights; [congruence | cbn [length]; lia].
  Qed.

Lemma shouldAnswerCorrectly_draws profile options e g :
    unit_draws g -> unit_draws (shouldAnswerCorrectly profile options e g).2.
  Proof.
    intros Hg. unfold shouldAnswerCorrectly, Math_random.
    destruct (getPlayerState profile e) as [state e']. intros n. apply (Hg (S (S n))).
  Qed.

Lemma calculateAnswerDelay_draws profile difficulty g :
    unit_draws g -> unit_draws (calculateAnswerDelay profile difficulty g).2.
  Proof.
    intros Hg. unfold calculateAnswerDelay, randomDelay, Math_random.
    repeat match goal with |- context [if ?c then _ else _] => destruct c end;
      intros n; cbn; apply Hg.
  Qed.

  (** The indices other than a known correct one, when there are at
      least two options. *)
Lemma wrongIndices_spec {A} (options : list A) (c : Z) :
    (2 <= length options)%nat ->
    let wrong := filter (fun i => i <> c) (mapi (fun i _ => Z.of_nat i) options) in
    (0 < length wrong)%nat /\
    forall x, x ∈ wrong -> 0 <= x < Z.of_nat (length options).
  Proof.
    intros Hlen wrong. split.
    - destruct options as [|a [|b rest]]; cbn in Hlen; try lia.
      assert (Hin : exists x, x ∈ wrong).
      { unfold wrong, mapi. destruct (decide (c = 0)) as [->|Hc].
        - exists 1. apply list_elem_of_filter. split; [lia|].
          change 1 with (Z.of_nat 1).
          apply (elem_of_lookup_imap_2 (fun i _ => Z.of_nat i) (a :: b :: rest) b 1%nat).
          reflexivity.
        - exists 0. apply list_elem_of_filter. split; [congruence|].
          change 0 with (Z.of_nat 0).
          apply (elem_of_lookup_imap_2 (fun i _ => Z.of_nat i) (a :: b :: rest) a 0%nat).
          reflexivity. }
      destruct Hin as [x Hx]. destruct wrong; [inversion Hx | cbn; lia].
    - intros x Hx. apply list_elem_of_filter in Hx as [_ Hx].
      apply elem_of_lookup_imap in Hx as (i & y & -> & Hy).
      apply lookup_lt_Some in Hy. lia.
  Qed.

Lemma index_in_range {A} (l : list A) (k : Z) :
    0 <= k < Z.of_nat (length l) -> exists x, Js.index l k = Some x /\ x ∈ l.
  Proof.
    intros Hk. unfold Js.index.
    destruct (k <? 0) eqn:E; [apply Z.ltb_lt in E; lia|].
    destruct (lookup_lt_is_Some_2 l (Z.to_nat k) ltac:(lia)) as [x Hx].
    exists x. split; [exact Hx|]. eapply list_elem_of_lookup_2, Hx.
  Qed.

End SelectAnswer.

(** C10: on a non-empty options list [selectAnswer] returns an index in
    [0, options.length), for every profile and all draws, provided a
    known correct index lies in range and comes with at least two
    options; and the weighted draw over the per-option weights stays in
    range. *)
Theorem select_answer_index_in_range {A} (profile : Profile) (options : list A)
    (correctIndex : option Z) (decisionOptions : DecisionOptions)
    (e : BehaviorEngine) (g : rng)
    (Hdraws : unit_draws g)
    (Hoptions : options <> [])
    (Hknown : forall c, correctIndex = Some c ->
                0 <= c < Z.of_nat (length options) /\ (2 <= length options)%nat) :
  (exists i,
     index (selectAnswer profile options correctIndex decisionOptions e g).1.1 = Some i /\
     0 <= i < Z.of_nat (length options)) /\
  (forall g',
     0 <= (weightedRandom
             (mapi (fun i _ => Math_max 0.1 (1 - inject_Z (Z.of_nat i) * 0.2)) options)
             g').1
       < Z.of_nat (length options)).
Proof.
  assert (Hweights : forall g',
    0 <= (weightedRandom
            (mapi (fun i _ => Math_max 0.1 (1 - inject_Z (Z.of_nat i) * 0.2)) options)
            g').1 < Z.of_nat (length options)).
  { intros g'.
    rewrite <- (length_imap (fun i (_ : A) => Math_max 0.1 (1 - inject_Z (Z.of_nat i) * 0.2)) options).
    apply weightedRandom_range. unfold mapi.
    destruct options; [congruence | discriminate]. }
  split; [|exact Hweights].
  unfold selectAnswer.
  pose proof (shouldAnswerCorrectly_draws profile decisionOptions e g Hdraws) as Hg1.
  destruct (shouldAnswerCorrectly profile decisionOptions e g) as [[correct e1] g1].
  cbn [snd] in Hg1.
  set (difficulty := match Behavior.difficulty decisionOptions with
                     | Some d => if truthy_num d then d else 0.5%Q
                     | None => 0.5%Q end).
  pose proof (calculateAnswerDelay_draws profile difficulty g1 Hg1) as Hg2.
  destruct (calculateAnswerDelay profile difficulty g1) as [delay g2].
  cbn [snd] in Hg2.
  destruct correctIndex as [c|].
  - destruct (Hknown c eq_refl) as [Hc Hlen].
    destruct correct.
    + destruct (getPlayerState profile e1). cbn. eauto.
    + destruct (wrongIndices_spec options c Hlen) as [Hpos Hall].
      set (wrong := filter (fun i => i <> c) (mapi (fun i _ => Z.of_nat i) options)) in *.
      unfold Math_random. destruct (Hg2 0%nat) as [H0 H1].
      pose proof (floor_of_draw (g2 0%nat) (Z.of_nat (length wrong)) H0 H1 ltac:(lia)) as Hk.
      destruct (index_in_range wrong _ Hk) as (x & Hx & Hin).
      destruct (getPlayerState profile e1). cbn [index fst].
      rewrite Hx. eauto.
  - destruct correct.
    + specialize (Hweights g2).
      destruct (weightedRandom _ g2) as [i g3]. cbn [fst] in Hweights.
      destruct (getPlayerState profile e1). cbn. eauto.
    + unfold Math_random. destruct (Hg2 0%nat) as [H0 H1].
      assert (Hn : 0 < Z.of_nat (length options))
        by (destruct options; [congruence | cbn [length]; lia]).
      pose proof (floor_of_draw (g2 0%nat) _ H0 H1 Hn) as Hk.
      destruct (getPlayerState profile e1). cbn [index fst]. eauto.
Qed.

Lemma join_timing_extremes_witness :
  (calculateJoinTiming Samples.never_shows Samples.half).1 =
    {| shouldJoin := false; Timing.delay := 0; Timing.reason := "no-show" |} /\
  shouldJoin (calculateJoinTiming Samples.on_time Samples.half).1 = true /\
  Timing.reason (calculateJoinTiming Samples.on_time Samples.half).1 = "on-time" /\
  1000 <= Timing.delay (calculateJoinTiming Samples.on_time Samples.half).1 <= 10000.
Proof.
  apply (join_timing_extremes Samples.never_shows Samples.on_time Samples.half).
  - intros n. unfold Samples.half. split; lra.
  - exists 1%Q. split; reflexivity.
  - exists 0%Q. split; reflexivity.
  - exists 0%Q. split; reflexivity.
Defined.

Lemma select_answer_index_in_range_witness :
  (exists i,
     index (selectAnswer Samples.on_time Samples.four_options (Some 2)
              Samples.no_category newBehaviorEngine Samples.half).1.1 = Some i /\
     0 <= i < 4) /\
  (forall g',
     0 <= (weightedRandom
             (mapi (fun i _ => Math_max 0.1 (1 - inject_Z (Z.of_nat i) * 0.2))
                   Samples.four_options) g').1 < 4).
Proof.
  apply (select_answer_index_in_range Samples.on_time Samples.four_options (Some 2)
           Samples.no_category newBehaviorEngine Samples.half).
  - intros n. unfold Samples.half. split; lra.
  - discriminate.
  - intros c [= <-]. cbn. lia.
Defined.

(** ** Phase detector *)

Section PhasePrecedence.
Import Spec.

Lemma setState_returns st m : (setState st m).1 = st /\ currentState (setState st m).2 = st.
  Proof.
    unfold setState. destruct (decide (st <> currentState m)) as [H|H]; cbn.
    - split; reflexivity.
    - apply dec_stable in H. split; congruence.
  Qed.

Lemma game_ended_wins snap m :
    game_ended_text snap -> no_registration_signal snap ->
    (detectState snap m).1 = GAME_ENDED /\
    currentState (detectState snap m).2 = GAME_ENDED.
  Proof.
    intros (text & Htext & Hend) (text' & Htext' & Hback & Hform).
    rewrite Htext in Htext'. injection Htext' as <-.
    unfold detectState. rewrite Htext, Hback, Hform, Hend.
    apply setState_returns.
  Qed.

End PhasePrecedence.

(** C5, as stated, fails: a page that shows the game-ended text, answer
    buttons and a positive timer, but also the returning-player banner,
    is classified [REGISTRATION] (rule 1 comes before rule 3). *)
Lemma welcome_back_outranks_game_ended :
  Spec.game_ended_text Samples.ended_welcome_back /\
  Spec.controls_with_timer Samples.ended_welcome_back /\
  (detectState Samples.ended_welcome_back newManager).1 = REGISTRATION /\
  (detectState Samples.ended_welcome_back newManager).1 <> GAME_ENDED.
Proof.
  split; [|split; [|split]].
  - eexists. split; reflexivity.
  - exists "welcome back game over 0:10", 4%nat, 0%nat, "0", "10".
    repeat split; vm_compute; try reflexivity; lia.
  - reflexivity.
  - discriminate.
Qed.

(** C5, amended: when the game-ended keyword set matches and answer
    controls are present with a positive timer, and neither a
    returning-player marker nor a registration form is on the page (the
    registration query answering), [detectState] resolves to
    [GAME_ENDED], not to [QUESTION], and commits that phase. *)
Theorem game_ended_precedes_question (snap : Snapshot) (m : Manager)
    (Hended : Spec.game_ended_text snap)
    (Hcontrols : Spec.controls_with_timer snap)
    (Hfirst : Spec.no_registration_signal snap) :
  (detectState snap m).1 = GAME_ENDED /\
  (detectState snap m).1 <> QUESTION /\
  currentState (detectState snap m).2 = GAME_ENDED.
Proof.
  destruct (game_ended_wins snap m Hended Hfirst) as [H1 H2].
  rewrite H1. repeat split; [discriminate | exact H2].
Qed.

Lemma game_ended_precedes_question_witness :
  (detectState Samples.ended_with_controls newManager).1 = GAME_ENDED /\
  (detectState Samples.ended_with_controls newManager).1 <> QUESTION /\
  currentState (detectState Samples.ended_with_controls newManager).2 = GAME_ENDED.
Proof.
  apply (game_ended_precedes_question Samples.ended_with_controls newManager).
  - eexists. split; reflexivity.
  - exists "game over 0:10", 4%nat, 0%nat, "0", "10".
    repeat split; vm_compute; try reflexivity; lia.
  - eexists. repeat split; reflexivity.
Defined.

(** ** Session coordinator *)

Section SessionStart.
Import Spec.

Lemma checks_fail (s : Session.GameSession) :
  misconfigured s ->
  (if bool_decide (length (Session.players s) = 0%nat) then true
   else negb (truthy_str (Session.gameUrl s))) = true.
Proof.
  intros [H|H].
  - rewrite H. reflexivity.
  - rewrite H. now destruct (bool_decide _).
Qed.

Lemma start_checked_rejects (g : rng) (clock : Z) (s : Session.GameSession) :
  misconfigured s ->
  exists message,
    Session.start_checked clock g s = (Session.Raised message, s) /\
    configuration_error message.
Proof.
  intros Hbad. pose proof (checks_fail s Hbad) as Hc.
  unfold Session.start_checked.
  destruct (bool_decide (length (Session.players s) = 0%nat)).
  - eexists. split; [reflexivity | now left].
  - rewrite Hc. eexists. split; [reflexivity | now right].
Qed.

End SessionStart.

(** C2, as stated, fails: [start()] on a freshly constructed session
    without players raises the configuration error, but the status has
    moved from [idle] to [initializing] on the way, because [start()]
    initialises the session before it checks the roster. *)
Lemma start_without_players_leaves_initializing :
  Session.players Samples.empty_session = [] /\
  Session.status Samples.empty_session = Session.idle /\
  (Session.start Samples.site 0 Samples.half Samples.empty_session).1
    = Session.Raised "No players in session" /\
  Session.status (Session.start Samples.site 0 Samples.half Samples.empty_session).2
    = Session.initializing.
Proof. repeat split. Qed.

(** C2, amended: for a session whose roster is empty or whose target URL
    is empty, [start()] raises before any transition to [running].  The
    error is the configuration error and the status is unchanged, except
    when [start()] first has to initialise the session: an [idle] session
    is then left [initializing], and a session that is not [idle] gets the
    refusal of [initialize()] instead, status unchanged. *)
Theorem start_rejects_misconfigured (config : Pool.Config) (clock : Z) (g : rng)
    (s : Session.GameSession)
    (Hbad : Spec.misconfigured s) :
  exists message s',
    Session.start config clock g s = (Session.Raised message, s') /\
    Spec.rejected_start_error s message /\
    Session.status s' = Spec.status_after_rejected_start s /\
    Session.players s' = Session.players s /\
    Session.gameUrl s' = Session.gameUrl s /\
    Session.startTime s' = Session.startTime s.
Proof.
  unfold Session.start, Spec.rejected_start_error, Spec.status_after_rejected_start.
  destruct (Session.pool s) as [p|] eqn:Hpool.
  - destruct (start_checked_rejects g clock s Hbad) as (message & E & Hm).
    rewrite E. exists message, s. repeat split; auto.
  - unfold Session.initialize.
    destruct (decide (Session.status s <> Session.idle)) as [Hs|Hs].
    + destruct (decide (Session.status s = Session.idle)); [contradiction|].
      eexists _, s. repeat split; reflexivity.
    + apply dec_stable in Hs.
      destruct (decide (Session.status s = Session.idle)); [|contradiction].
      match goal with
      | |- context [Session.start_checked clock g ?s1] =>
          destruct (start_checked_rejects g clock s1 Hbad) as (message & E & Hm);
          rewrite E; exists message, s1
      end.
      repeat split; auto.
Qed.

Lemma start_rejects_misconfigured_witness :
  exists message s',
    Session.start Samples.site 0 Samples.half Samples.empty_session
      = (Session.Raised message, s') /\
    Spec.rejected_start_error Samples.empty_session message /\
    Session.status s' = Spec.status_after_rejected_start Samples.empty_session /\
    Session.players s' = Session.players Samples.empty_session /\
    Session.gameUrl s' = Session.gameUrl Samples.empty_session /\
    Session.startTime s' = Session.startTime Samples.empty_session.
Proof.
  apply (start_rejects_misconfigured Samples.site 0 Samples.half Samples.empty_session).
  left. reflexivity.
Defined.

(** ** Agent: recovery budget *)

Section RetryBudget.
Import Bot Spec.

Lemma bind_unfold {A B} (c : M A) (f : A -> M B) w b :
  (c ≫= f) w b =
  match c w b with
  | (Ret a, w1, b1) => f a w1 b1
  | (Throw e, w1, b1) => (Throw e, w1, b1)
  | (Unfinished, w1, b1) => (Unfinished, w1, b1)
  end.
Proof. reflexivity. Qed.

Lemma grows_ret {A} (a : A) : grows (mret a).
Proof. intros w b out w' b' [= <- <- <-]. lia. Qed.

Lemma grows_throw {A} e : grows (@throw A e).
Proof. intros w b out w' b' [= <- <- <-]. lia. Qed.

Lemma grows_bind {A B} (c : M A) (f : A -> M B) :
  grows c -> (forall a, grows (f a)) -> grows (c ≫= f).
Proof.
  intros Hc Hf w b out w' b'. rewrite bind_unfold.
  destruct (c w b) as [[o w1] b1] eqn:E. specialize (Hc _ _ _ _ _ E).
  destruct o as [a|e|].
  - intros H. apply Hf in H. lia.
  - intros [= <- <- <-]. exact Hc.
  - intros [= <- <- <-]. exact Hc.
Qed.

Lemma grows_getBot : grows getBot.
Proof. intros w b out w' b' [= <- <- <-]. lia. Qed.

Lemma grows_modifyWorld f : grows (modifyWorld f).
Proof. intros w b out w' b' [= <- <- <-]. lia. Qed.

Lemma grows_modifyBot f :
  (forall b, retryCount b <= retryCount (f b))%nat -> grows (modifyBot f).
Proof. intros Hf w b out w' b' [= <- <- <-]. apply Hf. Qed.

Lemma grows_sleep ms : grows (sleep ms).
Proof. apply grows_modifyWorld. Qed.

Lemma grows_withRandom {A} (f : rng -> A * rng) : grows (withRandom f).
Proof.
  intros w b out w' b'. unfold withRandom.
  destruct (f (random w)). intros [= <- <- <-]. lia.
Qed.

Lemma grows_call : grows call.
Proof.
  intros w b out w' b'. unfold call.
  destruct (driver w 0%nat); intros [= <- <- <-]; lia.
Qed.

Lemma grows_viaPageActions : grows viaPageActions.
Proof.
  apply grows_bind; [apply grows_getBot|].
  intros b. destruct (pageActions b); [apply grows_call | apply grows_throw].
Qed.

Lemma grows_detect : grows detect.
Proof.
  intros w b out w' b'. unfold detect.
  destruct (stateManager b) as [m|].
  - destruct (detectState (page w 0%nat) m). intros [= <- <- <-]. cbn. lia.
  - intros [= <- <- <-]. lia.
Qed.

Lemma grows_try_catch {A} (c : M A) h :
  grows c -> (forall e, grows (h e)) -> grows (try_catch c h).
Proof.
  intros Hc Hh w b out w' b'. unfold try_catch.
  destruct (c w b) as [[o w1] b1] eqn:E. specialize (Hc _ _ _ _ _ E).
  destruct o as [a|e|].
  - intros [= <- <- <-]. exact Hc.
  - intros H. apply Hh in H. lia.
  - intros [= <- <- <-]. exact Hc.
Qed.

Lemma grows_initialize : grows initialize.
Proof.
  unfold initialize.
  apply grows_bind; [apply grows_call|]. intros _.
  apply grows_bind; [apply grows_modifyBot; intros; cbn; lia|]. intros _.
  apply grows_bind; [apply grows_getBot|]. intros b.
  apply grows_modifyWorld.
Qed.

Lemma attemptRecovery_refuses w b :
  (maxRetries (options b) <= retryCount b)%nat ->
  attemptRecovery w b = (Ret false, w, set_isRunning false b).
Proof.
  intros H. apply Nat.leb_le in H.
  unfold attemptRecovery. rewrite bind_unfold. cbn [getBot]. rewrite H. reflexivity.
Qed.

Lemma attemptRecovery_counts w b :
  (retryCount b < maxRetries (options b))%nat ->
  exists ok w' b',
    attemptRecovery w b = (Ret ok, w', b') /\
    retryCount b' = S (retryCount b) /\
    isRunning b' = isRunning b.
Proof.
  intros H. apply Nat.leb_gt in H.
  unfold attemptRecovery. rewrite bind_unfold. cbn [getBot]. rewrite H.
  unfold_m. cbn. destruct (driver w 0%nat) as [v|e]; cbn.
  - destruct (truthy_str (gameUrl (options b))); cbn.
    + destruct (driver w 1%nat) as [v'|e']; cbn; eauto 8.
    + eauto 8.
  - eauto 8.
Qed.

Lemma grows_attemptRecovery : grows attemptRecovery.
Proof.
  intros w b out w' b' E.
  destruct (le_lt_dec (maxRetries (options b)) (retryCount b)) as [H|H].
  - rewrite (attemptRecovery_refuses w b H) in E. injection E as <- <- <-. cbn. lia.
  - destruct (attemptRecovery_counts w b H) as (ok & w1 & b1 & E1 & Hc & _).
    rewrite E1 in E. injection E as <- <- <-. lia.
Qed.

Lemma grows_withRetry_from {A} (operation : M A) :
  grows operation -> forall more attempt, grows (withRetry_from operation attempt more).
Proof.
  intros Hop. induction more as [|more IH]; intros attempt w b out w' b'; cbn [withRetry_from];
    destruct (operation w b) as [[o w1] b1] eqn:E; specialize (Hop _ _ _ _ _ E);
    destruct o as [a|e|]; try (intros [= <- <- <-]; exact Hop).
  destruct (needsRecovery e).
  - destruct (attemptRecovery w1 b1) as [[o2 w2] b2] eqn:E2.
    apply grows_attemptRecovery in E2.
    destruct o2 as [[|]|e2|]; try (intros [= <- <- <-]; lia).
    intros H. apply IH in H. lia.
  - cbn. intros H. apply IH in H. lia.
Qed.

Lemma grows_withRetry {A} (operation : M A) : grows operation -> grows (withRetry operation).
Proof. intros H. apply grows_withRetry_from, H. Qed.

Lemma grows_randomSleep min max : grows (randomSleep min max).
Proof.
  apply grows_bind; [apply grows_withRandom|]. intros d.
  apply grows_bind; [apply grows_sleep|]. intros _. apply grows_ret.
Qed.

(** The part of [joinGame] between the timing decision and the final
    reset of the counter. *)
Lemma grows_join_sequence (timing : JoinTiming) :
  grows
    ((if 0 <? Timing.delay timing then sleep (Timing.delay timing) else mret tt);;
     withRetry viaPageActions;;
     state ← detect;
     (if decide (state = REGISTRATION) then
        withRetry viaPageActions;;
        randomSleep 500 1500;;
        joined ← withRetry viaPageActions;
        if negb (truthy joined) then mret false
        else randomSleep 1000 2000;; mret true
      else mret true)).
Proof.
  apply grows_bind; [destruct (0 <? _); [apply grows_sleep | apply grows_ret]|]. intros _.
  apply grows_bind; [apply grows_withRetry, grows_viaPageActions|]. intros _.
  apply grows_bind; [apply grows_detect|]. intros state.
  destruct (decide (state = REGISTRATION)); [|apply grows_ret].
  apply grows_bind; [apply grows_withRetry, grows_viaPageActions|]. intros _.
  apply grows_bind; [apply grows_randomSleep|]. intros _.
  apply grows_bind; [apply grows_withRetry, grows_viaPageActions|]. intros joined.
  destruct (negb (truthy joined)); [apply grows_ret|].
  apply grows_bind; [apply grows_randomSleep|]. intros _. apply grows_ret.
Qed.

Lemma joinGame_counter url w b out w' b' :
  joinGame url w b = (out, w', b') ->
  (out = Ret true /\ retryCount b' = 0%nat) \/
  (out <> Ret true /\ (retryCount b <= retryCount b')%nat).
Proof.
  unfold joinGame. rewrite bind_unfold. cbn [getBot].
  rewrite bind_unfold. unfold withRandom at 1.
  destruct (calculateJoinTiming (profile b) (random w)) as [timing g1].
  destruct (negb (shouldJoin timing)).
  - intros [= <- <- <-]. right. split; [discriminate | lia].
  - rewrite bind_unfold.
    match goal with
    | |- context [match ?c ?w0 b with _ => _ end] =>
        destruct (c w0 b) as [[o w1] b1] eqn:E;
        pose proof (grows_join_sequence timing _ _ _ _ _ E) as Hg
    end.
    destruct o as [[|]|e|].
    + intros [= <- <- <-]. left. split; reflexivity.
    + intros [= <- <- <-]. right. split; [discriminate | exact Hg].
    + intros [= <- <- <-]. right. split; [discriminate | exact Hg].
    + intros [= <- <- <-]. right. split; [discriminate | exact Hg].
Qed.

End RetryBudget.

(** The scenario of the specification: navigation raises a recoverable
    error twice; the agent recovers twice, joins on the third attempt,
    and the counter, which stood at 2 after the navigation, is back at 0
    once the join is confirmed. *)
Example join_after_two_recoveries :
  let w := Samples.world [] Samples.two_navigation_failures in
  (exists w' b', Bot.withRetry Bot.viaPageActions w Samples.ready_agent
                   = (Bot.Ret Bot.VNull, w', b') /\ Bot.retryCount b' = 2%nat) /\
  (exists w' b', Bot.joinGame None w Samples.ready_agent = (Bot.Ret true, w', b') /\
                 Bot.retryCount b' = 0%nat).
Proof. split; eexists _, _; split; vm_compute; reflexivity. Qed.

(** With the budget used up, a retried operation that raises a
    session-loss error is not recovered: [withRetry] raises that error
    and the agent is left stopped. *)
Example withRetry_gives_up_when_spent :
  Bot.withRetry (@Bot.throw Bot.Value "Target closed") (Samples.world [] [])
                Samples.spent_agent
  = (Bot.Throw "Target closed", Samples.world [] [],
     Bot.set_isRunning false Samples.spent_agent).
Proof. reflexivity. Qed.

(** ** Agent: dispatch loop *)

Section DispatchLoop.
Import Bot Spec.

Lemma errors_ahead_le k : forall k' pages m,
  (k' <= k)%nat -> errors_ahead k pages m -> errors_ahead k' pages m.
Proof.
  induction k as [|k IH]; intros k' pages m Hle H.
  - replace k' with 0%nat by lia. exact I.
  - destruct k' as [|k']; [exact I|].
    destruct H as [H1 H2]. split; [exact H1|]. apply IH; [lia | exact H2].
Qed.

Lemma gameLoop_stopped fuel errorCount w b :
  isRunning b = false -> gameLoop fuel errorCount w b = (Ret tt, w, b).
Proof. intros H. destruct fuel; cbn [gameLoop]; rewrite H; reflexivity. Qed.

Lemma gameLoop_stops_on_errors k : forall fuel errorCount w b m,
  isRunning b = true ->
  stateManager b = Some m ->
  errors_ahead k (page w) m ->
  (errorCount < maxErrors)%nat ->
  (maxErrors <= errorCount + k)%nat ->
  (k <= fuel)%nat ->
  exists w' b',
    gameLoop fuel errorCount w b = (Ret tt, w', b') /\
    isRunning b' = false /\
    gameResults b' = gameResults b /\
    retryCount b' = retryCount b.
Proof.
  induction k as [|k IH]; intros fuel errorCount w b m Hrun Hm Herr Hcount Hreach Hfuel.
  - lia.
  - destruct fuel as [|fuel]; [lia|].
    destruct Herr as [Hfirst Hrest].
    cbn [gameLoop]. rewrite Hrun. cbn [negb].
    rewrite bind_unfold. unfold detect. rewrite Hm.
    destruct (detectState (page w 0%nat) m) as [state m'] eqn:D.
    cbn [fst snd] in Hfirst, Hrest. subst state.
    destruct (maxErrors <=? S errorCount)%nat eqn:Hmax.
    + rewrite bind_unfold. cbn [modifyBot].
      rewrite gameLoop_stopped by reflexivity.
      eexists _, _. split; [reflexivity|]. repeat split.
    + apply Nat.leb_gt in Hmax.
      rewrite bind_unfold. unfold sleep, modifyWorld.
      match goal with
      | |- context [gameLoop fuel (S errorCount) ?w1 ?b1] =>
          destruct (IH fuel (S errorCount) w1 b1 m') as (w' & b' & E & H1 & H2 & H3);
          [ cbn; exact Hrun | reflexivity | exact Hrest | exact Hmax | lia | lia | ]
      end.
      rewrite E. eexists _, _. split; [reflexivity|]. repeat split; assumption.
Qed.

Lemma playGame_returns_results fuel w b m :
  stateManager b = Some m ->
  errors_ahead maxErrors (page w) m ->
  (maxErrors <= fuel)%nat ->
  exists w' b',
    playGame fuel w b = (Ret (gameResults b), w', b') /\ isRunning b' = false.
Proof.
  intros Hm Herr Hfuel. unfold playGame.
  rewrite bind_unfold. cbn [modifyBot].
  rewrite bind_unfold. cbn [getBot].
  replace (stateManager (set_isRunning true b)) with (Some m) by (symmetry; exact Hm).
  rewrite bool_decide_eq_true_2 by eauto.
  rewrite bind_unfold. unfold try_catch.
  destruct (gameLoop_stops_on_errors maxErrors fuel 0 w (set_isRunning true b) m)
    as (w' & b' & E & H1 & H2 & _); try assumption; try reflexivity.
  { unfold maxErrors. lia. }
  rewrite E. rewrite bind_unfold. cbn [getBot]. unfold_m. rewrite H2.
  eexists _, _. split; [reflexivity | exact H1].
Qed.

End DispatchLoop.

Section JsMapFacts.
Import Pool.
Context {V : Type}.

Lemma map_get_set_eq (k : string) (v : V) (m : list (string * V)) :
  map_get k (map_set k v m) = Some v.
Proof.
  induction m as [|[k' v'] m IH]; cbn.
  - now rewrite decide_True.
  - destruct (decide (k' = k)) as [->|H]; cbn.
    + now rewrite decide_True.
    + now rewrite decide_False.
Qed.

Lemma map_get_set_ne (k k' : string) (v : V) (m : list (string * V)) :
  k' <> k -> map_get k' (map_set k v m) = map_get k' m.
Proof.
  intros Hne. induction m as [|[k0 v0] m IH]; cbn.
  - rewrite decide_False by congruence. reflexivity.
  - destruct (decide (k0 = k)) as [->|H]; cbn.
    + rewrite !decide_False by congruence. reflexivity.
    + destruct (decide (k0 = k')); [reflexivity | exact IH].
Qed.

End JsMapFacts.

Section PoolResults.
Import Bot Pool Spec.

Lemma counts_completed_shape r :
  (counts_completed r = true <-> completed_shape r) /\
  (counts_completed r = false <-> failed_shape r).
Proof.
  unfold completed_shape, failed_shape.
  destruct r as [|g|e]; cbn.
  - split; split; try discriminate; auto.
    intros [[g H]|H]; discriminate.
  - split; split; eauto; try discriminate.
    intros [H|(e & H & _)]; discriminate.
  - destruct (String.eqb_spec e ""%string) as [->|Hne]; split; split; auto; try discriminate.
    + intros [H|(e & [= <-] & Hne)]; [discriminate | congruence].
    + intros [[g H]|[= H]]; [discriminate | congruence].
    + intros _. right. eauto.
Qed.

(** The fold of [getResults], from any accumulator. *)
Lemma getResults_fold rs : forall acc,
  completed (foldl tally acc rs)
    = (completed acc + length (filter (fun kv => counts_completed kv.2 = true) rs))%nat /\
  failed (foldl tally acc rs)
    = (failed acc + length (filter (fun kv => counts_completed kv.2 = false) rs))%nat /\
  totalPlayers (foldl tally acc rs) = totalPlayers acc.
Proof.
  induction rs as [|[k r] rs IH]; intros acc.
  - cbn. repeat split; lia.
  - cbn [foldl]. destruct (IH (tally acc (k, r))) as (H1 & H2 & H3).
    rewrite H1, H2, H3. rewrite !filter_cons. cbn [snd tally].
    destruct (counts_completed r) eqn:E; cbn.
    + rewrite decide_True by reflexivity. rewrite decide_False by discriminate.
      cbn. repeat split; lia.
    + rewrite decide_False by discriminate. rewrite decide_True by reflexivity.
      cbn. repeat split; lia.
Qed.

Lemma getResults_counts p :
  completed (getResults p)
    = length (filter (fun kv => counts_completed kv.2 = true) (results p)) /\
  failed (getResults p)
    = length (filter (fun kv => counts_completed kv.2 = false) (results p)) /\
  (completed (getResults p) + failed (getResults p))%nat = length (results p) /\
  totalPlayers (getResults p) = length (bots p).
Proof.
  unfold getResults.
  destruct (getResults_fold (results p)
              {| totalPlayers := length (bots p); completed := 0; failed := 0;
                 players := [] |}) as (H1 & H2 & H3).
  cbn in H1, H2, H3. rewrite H1, H2, H3. repeat split.
  clear H1 H2 H3.
  induction (results p) as [|[k r] rs IH]; [reflexivity|].
  rewrite !filter_cons. cbn [snd].
  destruct (counts_completed r).
  - rewrite decide_True by reflexivity. rewrite decide_False by discriminate.
    cbn [length]. lia.
  - rewrite decide_False by discriminate. rewrite decide_True by reflexivity.
    cbn [length]. lia.
Qed.

Lemma initialize_ok w b v :
  driver w 0%nat = Returns v ->
  initialize w b =
  (Ret tt,
   set_engine (resetPlayer (profile b) (engine w))
              (set_driver (fun n => driver w (S n)) w),
   set_resources true true (Some newManager) b).
Proof. intros H. unfold_m. rewrite H. reflexivity. Qed.

Lemma joinGame_no_show url w b :
  (calculateJoinTiming (profile b) (random w)).1 =
    {| shouldJoin := false; Timing.delay := 0; Timing.reason := "no-show" |} ->
  exists w', joinGame url w b = (Ret false, w', b).
Proof.
  intros H. unfold joinGame. rewrite bind_unfold. cbn [getBot].
  rewrite bind_unfold. unfold withRandom.
  destruct (calculateJoinTiming (profile b) (random w)) as [timing g'].
  cbn [fst] in H. subst timing. cbn [shouldJoin negb]. eexists. reflexivity.
Qed.

(** An agent that certainly does not show up returns [null]. *)
Lemma run_no_show url fuel w bot :
  chance_is (noShowChance (profile bot)) 1 ->
  unit_draws (random w) ->
  (exists v, driver w 0%nat = Returns v) ->
  exists w' b', run url fuel w bot = (Ret None, w', b').
Proof.
  intros (ns & Hns & Ens) Hdraws [v Hv].
  pose proof (no_show_certain (profile bot) (random w) ns Hdraws Hns Ens) as Hno.
  unfold run, try_finally, try_catch.
  rewrite bind_unfold, (initialize_ok w bot v Hv). rewrite bind_unfold.
  match goal with
  | |- context [joinGame url ?w1 ?b1] =>
      destruct (joinGame_no_show url w1 b1 Hno) as [w2 E]; rewrite E
  end.
  cbn [negb]. unfold_m. eauto.
Qed.

Lemma startBot_no_show playerId url fuel w p bot :
  map_get playerId (bots p) = Some bot ->
  playerId ∉ activeBots p ->
  chance_is (noShowChance (profile bot)) 1 ->
  unit_draws (random w) ->
  (exists v, driver w 0%nat = Returns v) ->
  (startBot playerId url fuel w p).1.1 = Ret RNull /\
  results (startBot playerId url fuel w p).2 = map_set playerId RNull (results p).
Proof.
  intros Hbot Hidle Hns Hdraws Hlaunch.
  destruct (run_no_show url fuel w bot Hns Hdraws Hlaunch) as (w' & b' & E).
  unfold startBot, startBot_begin. rewrite Hbot.
  rewrite bool_decide_eq_false_2 by exact Hidle.
  rewrite E. cbn. split; reflexivity.
Qed.

End PoolResults.

(** C4, as stated, fails: an agent that does not show up records the
    [null] result, which carries no error, and [getResults] counts it as
    failed, not as completed. *)
Lemma no_show_is_counted_failed :
  let w := Samples.world [] [] in
  let p := (Pool.startBot "ghost" None 20 w (Samples.pool_of Samples.never_shows)).2 in
  Pool.map_get "ghost" (Pool.results p) = Some Pool.RNull /\
  ~ Spec.error_recorded Pool.RNull /\
  Pool.completed (Pool.getResults p) = 0%nat /\
  Pool.failed (Pool.getResults p) = 1%nat.
Proof.
  repeat split; try (vm_compute; reflexivity).
  intros [message H]. discriminate.
Qed.

(** C4, amended: [getResults] splits the recorded results into exactly
    two classes.  A result counts as completed iff it is a game result
    (or an error object with an empty message), and as failed iff it is
    the [null] result or an error object with a message.  An agent that
    does not show up records [null] and is therefore counted as failed. *)
Theorem results_partition (q p : Pool.PlayerPool) (w : Bot.World)
    (playerId : string) (bot : Bot.TriviaBot) (url : option string) (fuel : nat)
    (Hbot : Pool.map_get playerId (Pool.bots p) = Some bot)
    (Hidle : playerId ∉ Pool.activeBots p)
    (Hghost : Spec.chance_is (noShowChance (Bot.profile bot)) 1)
    (Hdraws : unit_draws (Bot.random w))
    (Hlaunch : exists v, Bot.driver w 0%nat = Bot.Returns v) :
  (Pool.completed (Pool.getResults q)
     = length (filter (fun kv => Pool.counts_completed kv.2 = true) (Pool.results q)) /\
   Pool.failed (Pool.getResults q)
     = length (filter (fun kv => Pool.counts_completed kv.2 = false) (Pool.results q)) /\
   (Pool.completed (Pool.getResults q) + Pool.failed (Pool.getResults q))%nat
     = length (Pool.results q)) /\
  (forall r, (Pool.counts_completed r = true <-> Spec.completed_shape r) /\
             (Pool.counts_completed r = false <-> Spec.failed_shape r)) /\
  (Pool.startBot playerId url fuel w p).1.1 = Bot.Ret Pool.RNull /\
  Pool.map_get playerId (Pool.results (Pool.startBot playerId url fuel w p).2)
    = Some Pool.RNull /\
  Pool.counts_completed Pool.RNull = false.
Proof.
  split; [|split; [|split; [|split]]].
  - destruct (getResults_counts q) as (H1 & H2 & H3 & _). auto.
  - apply counts_completed_shape.
  - apply (startBot_no_show playerId url fuel w p bot); assumption.
  - destruct (startBot_no_show playerId url fuel w p bot) as [_ E]; try assumption.
    rewrite E. apply map_get_set_eq.
  - reflexivity.
Qed.

Lemma results_partition_witness :
  (Pool.startBot "ghost" None 20 (Samples.world [] [])
     (Samples.pool_of Samples.never_shows)).1.1 = Bot.Ret Pool.RNull /\
  Pool.counts_completed Pool.RNull = false.
Proof.
  destruct (results_partition
              (Samples.pool_of Samples.never_shows) (Samples.pool_of Samples.never_shows)
              (Samples.world [] []) "ghost"
              (Bot.newTriviaBot Samples.never_shows
                 {| Bot.gameUrl := Some "https://www.crowd.live/FNJCN";
                    Bot.headless := true; Bot.maxRetries := 3; Bot.retryDelay := 2000 |})
              None 20) as (_ & _ & H3 & _ & H5).
  - reflexivity.
  - vm_compute. set_solver.
  - exists 1%Q. split; reflexivity.
  - intros n. cbn. unfold Samples.half. split; lra.
  - eexists. reflexivity.
  - split; [exact H3 | exact H5].
Defined.

(** C6, as stated, fails: an agent whose loop sees the error page ten
    times in a row stops, but what it reports is its ordinary game
    results, with no error in them, and the pool counts it as completed,
    not as failed. *)
Lemma ten_errors_reported_as_completed :
  let w := Samples.world Samples.error_run_pages [] in
  let ran := Pool.startBot "alice" None 20 w (Samples.pool_of Samples.on_time) in
  Spec.errors_ahead 10 (fun n => Bot.page w (3 + n)%nat) GameState.newManager /\
  ran.1.1 = Bot.Ret (Pool.RGame {| Bot.questionsAnswered := 0; Bot.correctAnswers := 0;
                                   Bot.finalScore := Bot.VNull;
                                   Bot.finalRank := Bot.VNull |}) /\
  Pool.completed (Pool.getResults ran.2) = 1%nat /\
  Pool.failed (Pool.getResults ran.2) = 0%nat.
Proof. repeat split; vm_compute; reflexivity. Qed.

(** C6, amended: when the dispatch loop classifies [ERROR] ten times in
    a row (the threshold is the constant 10), the agent stops its loop --
    [isRunning] is cleared -- and [playGame] returns the agent's game
    results unchanged, with no error in them; the pool records them for
    that agent as a completed outcome, keeps running, and leaves every
    other agent and every other recorded result untouched. *)
Theorem error_threshold_stops_agent (w : Bot.World) (b : Bot.TriviaBot)
    (m : GameState.Manager) (fuel errorCount : nat)
    (p : Pool.PlayerPool) (playerId : string)
    (Hrunning : Bot.isRunning b = true)
    (Hmanager : Bot.stateManager b = Some m)
    (Herrors : Spec.errors_ahead Bot.maxErrors (Bot.page w) m)
    (Hcount : (errorCount < Bot.maxErrors)%nat)
    (Hfuel : (Bot.maxErrors <= fuel)%nat) :
  Bot.maxErrors = 10%nat /\
  (exists w' b',
      Bot.gameLoop fuel errorCount w b = (Bot.Ret tt, w', b') /\
      Bot.isRunning b' = false /\
      Bot.gameResults b' = Bot.gameResults b) /\
  (exists w' b',
      Bot.playGame fuel w b = (Bot.Ret (Bot.gameResults b), w', b') /\
      Bot.isRunning b' = false) /\
  (let reported :=
     Pool.startBot_end playerId (Pool.RanReturned (Some (Bot.gameResults b))) p in
   reported.1 = Pool.RGame (Bot.gameResults b) /\
   ~ Spec.error_recorded reported.1 /\
   Pool.counts_completed reported.1 = true /\
   Pool.isRunning reported.2 = Pool.isRunning p /\
   Pool.bots reported.2 = Pool.bots p /\
   forall other, other <> playerId ->
     Pool.map_get other (Pool.results reported.2) = Pool.map_get other (Pool.results p)).
Proof.
  split; [reflexivity|]. split; [|split].
  - destruct (gameLoop_stops_on_errors Bot.maxErrors fuel errorCount w b m)
      as (w' & b' & E & H1 & H2 & _); try assumption; try lia.
    eauto.
  - apply (playGame_returns_results fuel w b m); assumption.
  - cbn. repeat split.
    + intros [message H]. discriminate.
    + intros other Hne. apply map_get_set_ne. exact Hne.
Qed.

Lemma error_threshold_stops_agent_witness :
  exists w' b',
    Bot.playGame 10 (Samples.world (replicate 10 Samples.error_page) [])
                 (Bot.set_isRunning true Samples.ready_agent)
      = (Bot.Ret (Bot.gameResults (Bot.set_isRunning true Samples.ready_agent)), w', b') /\
    Bot.isRunning b' = false.
Proof.
  destruct (error_threshold_stops_agent
              (Samples.world (replicate 10 Samples.error_page) [])
              (Bot.set_isRunning true Samples.ready_agent) GameState.newManager
              10 0 (Samples.pool_of Samples.on_time) "alice") as (_ & _ & H & _).
  - reflexivity.
  - reflexivity.
  - vm_compute. tauto.
  - vm_compute. lia.
  - vm_compute. lia.
  - exact H.
Defined.

(** ** Worker pool: admission *)

Section AdmissionBound.
Import Bot Pool Spec.

Lemma startBot_begin_active playerId p :
  let p' := (startBot_begin playerId p).2 in
  (size (activeBots p') <= S (size (activeBots p)))%nat /\
  maxConcurrent p' = maxConcurrent p /\ isRunning p' = isRunning p /\
  bots p' = bots p /\ results p' = results p.
Proof.
  unfold startBot_begin. destruct (map_get playerId (bots p)); cbn; [|auto with lia].
  destruct (bool_decide (playerId ∈ activeBots p)) eqn:E; cbn; [auto with lia|].
  apply bool_decide_eq_false in E.
  rewrite size_union by set_solver. rewrite size_singleton. auto with lia.
Qed.

Lemma launch_facts i s :
  (size (activeBots (pool (launch i s))) <= S (size (activeBots (pool s))))%nat /\
  limit (task (launch i s)) = limit (task s) /\
  loc (task (launch i s)) = loc (task s) /\
  playerIds (task (launch i s)) = playerIds (task s) /\
  isRunning (pool (launch i s)) = isRunning (pool s).
Proof.
  unfold launch. destruct (playerIds (task s) !! i) as [playerId|]; [|auto with lia].
  pose proof (startBot_begin_active playerId (pool s)) as (H1 & _ & H3 & _).
  destruct (startBot_begin playerId (pool s)) as [[] p']; cbn in *; auto.
Qed.

Lemma suspend_or_break_cases i s :
  match suspend_or_break i s with
  | Some s' => s' = at_loc (AtWhile i) s \/ s' = at_loc AtJoin s
  | None =>
      (size (activeBots (pool s)) < limit (task s))%nat /\ isRunning (pool s) = true
  end.
Proof.
  unfold suspend_or_break.
  destruct (limit (task s) <=? size (activeBots (pool s)))%nat eqn:E;
    destruct (isRunning (pool s)); cbn; auto.
  apply Nat.leb_gt in E. auto.
Qed.

Lemma bounded_at_loc l s :
  (size (activeBots (pool s)) <= limit (task s))%nat ->
  (forall i d, l <> AtStagger i d) ->
  bounded (at_loc l s).
Proof.
  intros H Hl. split; [exact H|]. intros i d E. cbn in E. now apply Hl in E.
Qed.

Lemma bounded_stagger_sleep i s :
  (size (activeBots (pool s)) < limit (task s))%nat -> bounded (stagger_sleep i s).
Proof.
  intros H. unfold stagger_sleep.
  destruct (randomDelay _ _ _) as [d g]. split; cbn; [lia | intros; lia].
Qed.

Lemma bounded_loop_head_next i s :
  (size (activeBots (pool s)) <= limit (task s))%nat -> bounded (loop_head_next i s).
Proof.
  intros H. unfold loop_head_next.
  destruct (_ && _); [|apply bounded_at_loc; [exact H | discriminate]].
  pose proof (suspend_or_break_cases i s) as C.
  destruct (suspend_or_break i s) as [s'|].
  - destruct C as [-> | ->]; apply bounded_at_loc; try exact H; discriminate.
  - apply bounded_stagger_sleep, C.
Qed.

Lemma bounded_after_stagger i s :
  (size (activeBots (pool s)) < limit (task s))%nat -> bounded (after_stagger i s).
Proof.
  intros H. unfold after_stagger. apply bounded_loop_head_next.
  destruct (launch_facts i s) as (H1 & H2 & _). lia.
Qed.

Lemma bounded_while_test i s :
  (size (activeBots (pool s)) <= limit (task s))%nat -> bounded (while_test i s).
Proof.
  intros H. unfold while_test.
  pose proof (suspend_or_break_cases i s) as C.
  destruct (suspend_or_break i s) as [s'|].
  - destruct C as [-> | ->]; apply bounded_at_loc; try exact H; discriminate.
  - destruct (0 <? i)%nat.
    + apply bounded_stagger_sleep, C.
    + apply bounded_after_stagger, C.
Qed.

Lemma bounded_startAll opts g p :
  (size (activeBots p) <= default (maxConcurrent p) (optMaxConcurrent opts))%nat ->
  bounded (startAll opts g p).
Proof.
  intros H. unfold startAll, loop_head.
  destruct (_ && _).
  - apply bounded_while_test. exact H.
  - apply bounded_at_loc; [exact H | discriminate].
Qed.

Lemma bounded_step e s : bounded s -> bounded (step e s).
Proof.
  intros [H1 H2]. destruct e as [|playerId ran| |]; cbn [step].
  - unfold resume. destruct (loc (task s)) as [i|i d| |r] eqn:L.
    + apply bounded_while_test, H1.
    + apply bounded_after_stagger, (H2 i d eq_refl).
    + destruct (bool_decide _).
      * apply bounded_at_loc; [exact H1 | discriminate].
      * split; [exact H1 | intros i d E; rewrite L in E; discriminate].
    + split; [exact H1 | intros i d E; rewrite L in E; discriminate].
  - unfold settle. destruct (bool_decide _); [|split; [exact H1 | exact H2]].
    assert (Hs : (size (activeBots (pool s) ∖ {[playerId]}) <= size (activeBots (pool s)))%nat)
      by (apply subseteq_size, subseteq_difference_l; reflexivity).
    split; cbn.
    + lia.
    + intros i d E. specialize (H2 i d E). lia.
  - split; [exact H1 | exact H2].
  - split; cbn.
    + rewrite size_empty. lia.
    + intros i d E. specialize (H2 i d E). rewrite size_empty. lia.
Qed.

Lemma bounded_state_at schedule n s : bounded s -> bounded (state_at schedule n s).
Proof.
  intros H. induction n as [|n IH]; [exact H|]. cbn [state_at]. apply bounded_step, IH.
Qed.

Lemma limit_stagger_sleep i s : limit (task (stagger_sleep i s)) = limit (task s).
Proof. unfold stagger_sleep. now destruct (randomDelay _ _ _). Qed.

Lemma limit_loop_head_next i s : limit (task (loop_head_next i s)) = limit (task s).
Proof.
  unfold loop_head_next. destruct (_ && _); [|reflexivity].
  pose proof (suspend_or_break_cases i s) as C.
  destruct (suspend_or_break i s) as [s'|].
  - destruct C as [-> | ->]; reflexivity.
  - apply limit_stagger_sleep.
Qed.

Lemma limit_after_stagger i s : limit (task (after_stagger i s)) = limit (task s).
Proof. unfold after_stagger. rewrite limit_loop_head_next. apply launch_facts. Qed.

Lemma limit_while_test i s : limit (task (while_test i s)) = limit (task s).
Proof.
  unfold while_test. pose proof (suspend_or_break_cases i s) as C.
  destruct (suspend_or_break i s) as [s'|].
  - destruct C as [-> | ->]; reflexivity.
  - destruct (0 <? i)%nat; [apply limit_stagger_sleep | apply limit_after_stagger].
Qed.

Lemma limit_step e s : limit (task (step e s)) = limit (task s).
Proof.
  destruct e as [|playerId ran| |]; cbn [step]; try reflexivity.
  - unfold resume. destruct (loc (task s)) as [i|i d| |r]; try reflexivity.
    + apply limit_while_test.
    + apply limit_after_stagger.
    + destruct (bool_decide _); reflexivity.
  - unfold settle. destruct (bool_decide _); reflexivity.
Qed.

Lemma limit_state_at schedule n s :
  limit (task (state_at schedule n s)) = limit (task s).
Proof.
  induction n as [|n IH]; [reflexivity|]. cbn [state_at]. now rewrite limit_step.
Qed.

End AdmissionBound.

Section AdmissionProgress.
Import Bot Pool Spec.

Lemma map_get_keys {V} (m : list (string * V)) x :
  x ∈ map_keys m -> is_Some (map_get x m).
Proof.
  unfold map_keys. induction m as [|[k v] m IH]; cbn.
  - intros H. inversion H.
  - intros H. destruct (decide (k = x)); [eauto|].
    apply IH. apply elem_of_cons in H as [H|H]; [congruence | exact H].
Qed.

Lemma not_in_take {A} (l : list A) i x :
  NoDup l -> l !! i = Some x -> x ∉ take i l.
Proof.
  intros Hnd Hi Hin. apply list_elem_of_lookup_1 in Hin as [j Hj].
  apply lookup_take_Some in Hj as [Hj Hlt].
  pose proof (NoDup_lookup l i j x Hnd Hi Hj). lia.
Qed.

Lemma base_at_loc l s i : base s i -> base (at_loc l s) i.
Proof. intros []. constructor; assumption. Qed.

Lemma base_stagger_sleep i' s i : base s i -> base (stagger_sleep i' s) i.
Proof.
  intros []. unfold stagger_sleep. destruct (randomDelay _ _ _).
  constructor; assumption.
Qed.

Lemma base_launch s i :
  base s i -> (i < length (playerIds (task s)))%nat -> base (launch i s) (S i).
Proof.
  intros [Hnd Hbots Hlim Hact Hpend Hlaunched Hrun Hidx] Hlt.
  destruct (lookup_lt_is_Some_2 _ _ Hlt) as [playerId Hid].
  assert (Hfresh : playerId ∉ activeBots (pool s)).
  { intros Hin. apply Hact, Hpend in Hin. rewrite Hlaunched in Hin.
    exact (not_in_take _ _ _ Hnd Hid Hin). }
  destruct (Hbots playerId (list_elem_of_lookup_2 _ _ _ Hid)) as [bot Hbot].
  unfold launch, startBot_begin. rewrite Hid, Hbot.
  rewrite bool_decide_eq_false_2 by exact Hfresh. cbn.
  constructor; cbn; try assumption.
  - apply union_mono_l, Hact.
  - intros x Hx. apply elem_of_app. apply elem_of_union in Hx as [Hx|Hx].
    + right. apply elem_of_singleton in Hx. subst. apply list_elem_of_singleton. reflexivity.
    + left. apply Hpend, Hx.
  - rewrite Hlaunched. symmetry. apply take_S_r, Hid.
Qed.

Lemma suspend_or_break_running i s :
  isRunning (pool s) = true ->
  suspend_or_break i s =
  if (limit (task s) <=? size (activeBots (pool s)))%nat
  then Some (at_loc (AtWhile i) s) else None.
Proof.
  intros H. unfold suspend_or_break. rewrite H.
  now destruct (limit (task s) <=? size (activeBots (pool s)))%nat.
Qed.

Lemma live_loop_head_next i s : base s i -> live (loop_head_next i s).
Proof.
  intros Hb. pose proof (base_running _ _ Hb) as Hrun.
  pose proof (base_index _ _ Hb) as Hidx.
  unfold loop_head_next. rewrite Hrun, andb_true_r.
  destruct (i <? length (playerIds (task s)))%nat eqn:E.
  - apply Nat.ltb_lt in E. rewrite suspend_or_break_running by exact Hrun.
    destruct (limit (task s) <=? size (activeBots (pool s)))%nat.
    + split; [apply base_at_loc, Hb | exact E].
    + unfold live, stagger_sleep. destruct (randomDelay _ _ _) eqn:R. cbn.
      split; [|exact E].
      pose proof (base_stagger_sleep i s i Hb) as Hb'.
      unfold stagger_sleep in Hb'. rewrite R in Hb'. exact Hb'.
  - apply Nat.ltb_ge in E. assert (i = length (playerIds (task s))) as -> by lia.
    exact (base_at_loc AtJoin s _ Hb).
Qed.

Lemma live_after_stagger i s :
  base s i -> (i < length (playerIds (task s)))%nat -> live (after_stagger i s).
Proof. intros Hb Hlt. apply live_loop_head_next, base_launch; assumption. Qed.

Lemma live_while_test i s :
  base s i -> (i < length (playerIds (task s)))%nat -> live (while_test i s).
Proof.
  intros Hb Hlt. pose proof (base_running _ _ Hb) as Hrun.
  unfold while_test. rewrite suspend_or_break_running by exact Hrun.
  destruct (limit (task s) <=? size (activeBots (pool s)))%nat.
  - split; [apply base_at_loc, Hb | exact Hlt].
  - destruct (0 <? i)%nat.
    + unfold live, stagger_sleep. destruct (randomDelay _ _ _) eqn:R. cbn.
      split; [|exact Hlt].
      pose proof (base_stagger_sleep i s i Hb) as Hb'.
      unfold stagger_sleep in Hb'. rewrite R in Hb'. exact Hb'.
    + apply live_after_stagger; assumption.
Qed.

Lemma live_startAll opts g p :
  activeBots p = ∅ ->
  NoDup (map_keys (bots p)) ->
  (1 <= default (maxConcurrent p) (optMaxConcurrent opts))%nat ->
  live (startAll opts g p).
Proof.
  intros Hempty Hnd Hlim. unfold startAll.
  match goal with |- live (loop_head 0 ?s) => set (s0 := s) end.
  assert (Hb : base s0 0).
  { constructor; cbn; try assumption; try reflexivity.
    - intros x Hx. apply map_get_keys, Hx.
    - rewrite Hempty. apply empty_subseteq.
    - intros x Hx. apply not_elem_of_empty in Hx. contradiction.
    - lia. }
  unfold loop_head. cbn [isRunning pool s0 set_isRunning]. rewrite andb_true_r.
  destruct (0 <? length (playerIds (task s0)))%nat eqn:E.
  - apply Nat.ltb_lt in E. apply live_while_test; assumption.
  - apply Nat.ltb_ge in E.
    assert (Hz : length (playerIds (task s0)) = 0%nat) by lia.
    change (base (at_loc AtJoin s0) (length (playerIds (task s0)))).
    rewrite Hz. exact (base_at_loc AtJoin s0 0%nat Hb).
Qed.

Lemma base_settle playerId ran s i : base s i -> base (settle playerId ran s) i.
Proof.
  intros Hb. unfold settle. destruct (bool_decide _); [|exact Hb].
  destruct Hb as [Hnd Hbots Hlim Hact Hpend Hlaunched Hrun Hidx].
  constructor; cbn; try assumption.
  - intros x Hx. apply elem_of_difference in Hx as [Hx Hne].
    apply elem_of_difference. split; [apply Hact, Hx | exact Hne].
  - intros x Hx. apply Hpend. apply elem_of_difference in Hx as [Hx _]. exact Hx.
Qed.

Lemma live_step e s :
  live s -> e <> StopAll -> e <> StopAllDone -> live (step e s).
Proof.
  intros Hl H1 H2. destruct e as [|playerId ran| |]; try contradiction; cbn [step].
  - unfold resume. unfold live in Hl.
    destruct (loc (task s)) as [i|i d| |r] eqn:L.
    + destruct Hl. now apply live_while_test.
    + destruct Hl. now apply live_after_stagger.
    + destruct (bool_decide _).
      * unfold live. cbn. rewrite (base_launched _ _ Hl). apply take_ge. lia.
      * unfold live. rewrite L. exact Hl.
    + unfold live. rewrite L. exact Hl.
  - assert (Hloc : loc (task (settle playerId ran s)) = loc (task s)).
    { unfold settle. now destruct (bool_decide _). }
    assert (Hids : playerIds (task (settle playerId ran s)) = playerIds (task s)).
    { unfold settle. now destruct (bool_decide _). }
    assert (Hla : launched (task (settle playerId ran s)) = launched (task s)).
    { unfold settle. now destruct (bool_decide _). }
    unfold live in *. rewrite Hloc, Hids, Hla.
    destruct (loc (task s)) as [i|i d| |r].
    + destruct Hl. split; [now apply base_settle | assumption].
    + destruct Hl. split; [now apply base_settle | assumption].
    + now apply base_settle.
    + exact Hl.
Qed.

End AdmissionProgress.

Section AdmissionRank.
Import Bot Pool Spec.

Lemma playerIds_stagger_sleep i s :
  playerIds (task (stagger_sleep i s)) = playerIds (task s).
Proof. unfold stagger_sleep. now destruct (randomDelay _ _ _). Qed.

Lemma rank_stagger_sleep i s : rank (stagger_sleep i s) = (2 * i + 1)%nat.
Proof. unfold stagger_sleep, rank. now destruct (randomDelay _ _ _). Qed.

Lemma playerIds_loop_head_next i s :
  playerIds (task (loop_head_next i s)) = playerIds (task s).
Proof.
  unfold loop_head_next. destruct (_ && _); [|reflexivity].
  pose proof (suspend_or_break_cases i s) as C.
  destruct (suspend_or_break i s) as [s'|].
  - destruct C as [-> | ->]; reflexivity.
  - apply playerIds_stagger_sleep.
Qed.

Lemma playerIds_after_stagger i s :
  playerIds (task (after_stagger i s)) = playerIds (task s).
Proof. unfold after_stagger. rewrite playerIds_loop_head_next. apply launch_facts. Qed.

Lemma playerIds_step e s : playerIds (task (step e s)) = playerIds (task s).
Proof.
  destruct e as [|playerId ran| |]; cbn [step]; try reflexivity.
  - unfold resume. destruct (loc (task s)) as [i|i d| |r]; try reflexivity.
    + unfold while_test. pose proof (suspend_or_break_cases i s) as C.
      destruct (suspend_or_break i s) as [s'|].
      * destruct C as [-> | ->]; reflexivity.
      * destruct (0 <? i)%nat;
          [apply playerIds_stagger_sleep | apply playerIds_after_stagger].
    + apply playerIds_after_stagger.
    + destruct (bool_decide _); reflexivity.
  - unfold settle. destruct (bool_decide _); reflexivity.
Qed.

Lemma rank_loop_head_next i s :
  (i <= length (playerIds (task s)))%nat -> (2 * i <= rank (loop_head_next i s))%nat.
Proof.
  intros Hi. unfold loop_head_next. destruct (_ && _); [|cbn; lia].
  pose proof (suspend_or_break_cases i s) as C.
  destruct (suspend_or_break i s) as [s'|].
  - destruct C as [-> | ->]; cbn; lia.
  - rewrite rank_stagger_sleep. lia.
Qed.

Lemma rank_after_stagger i s :
  (i < length (playerIds (task s)))%nat -> (2 * i + 2 <= rank (after_stagger i s))%nat.
Proof.
  intros Hi. unfold after_stagger.
  assert (H : (S i <= length (playerIds (task (launch i s))))%nat).
  { destruct (launch_facts i s) as (_ & _ & _ & -> & _). lia. }
  apply rank_loop_head_next in H. lia.
Qed.

Lemma rank_while_test i s :
  (i < length (playerIds (task s)))%nat -> (2 * i <= rank (while_test i s))%nat.
Proof.
  intros Hi. unfold while_test. pose proof (suspend_or_break_cases i s) as C.
  destruct (suspend_or_break i s) as [s'|].
  - destruct C as [-> | ->]; cbn; lia.
  - destruct (0 <? i)%nat.
    + rewrite rank_stagger_sleep. lia.
    + pose proof (rank_after_stagger i s Hi). lia.
Qed.

Lemma rank_while_test_free i s :
  isRunning (pool s) = true ->
  (size (activeBots (pool s)) < limit (task s))%nat ->
  (i < length (playerIds (task s)))%nat ->
  (2 * i + 1 <= rank (while_test i s))%nat.
Proof.
  intros Hrun Hfree Hi. unfold while_test.
  rewrite suspend_or_break_running by exact Hrun.
  destruct (limit (task s) <=? size (activeBots (pool s)))%nat eqn:E.
  - apply Nat.leb_le in E. lia.
  - destruct (0 <? i)%nat.
    + rewrite rank_stagger_sleep. lia.
    + pose proof (rank_after_stagger i s Hi). lia.
Qed.

Lemma rank_step_mono e s :
  live s -> e <> StopAll -> e <> StopAllDone -> (rank s <= rank (step e s))%nat.
Proof.
  intros Hl H1 H2. destruct e as [|playerId ran| |]; try contradiction; cbn [step].
  - unfold resume, live in *. unfold rank at 1.
    destruct (loc (task s)) as [i|i d| |r] eqn:L.
    + destruct Hl as [_ Hi]. apply rank_while_test, Hi.
    + destruct Hl as [_ Hi]. pose proof (rank_after_stagger i s Hi). lia.
    + destruct (bool_decide _); [cbn; lia | unfold rank; rewrite L; lia].
    + unfold rank. rewrite L. lia.
  - unfold settle. destruct (bool_decide _); [|lia]. unfold rank. cbn. lia.
Qed.

(** A step that does not raise the rank leaves the task where it was
    and starts no agent. *)
Lemma quiet_step e s :
  live s -> e <> StopAll -> e <> StopAllDone ->
  rank (step e s) = rank s ->
  (rank s < 2 * length (playerIds (task s)))%nat ->
  loc (task (step e s)) = loc (task s) /\
  activeBots (pool (step e s)) ⊆ activeBots (pool s).
Proof.
  intros Hl H1 H2. destruct e as [|playerId ran| |]; try contradiction; cbn [step].
  - unfold resume, live in *. unfold rank at 2 3.
    destruct (loc (task s)) as [i|i d| |r] eqn:L.
    + destruct Hl as [Hb Hi]. pose proof (base_running _ _ Hb) as Hrun.
      intros Heq _.
      destruct (le_lt_dec (limit (task s)) (size (activeBots (pool s)))) as [Hfull|Hfree].
      * unfold while_test. rewrite suspend_or_break_running by exact Hrun.
        apply Nat.leb_le in Hfull. rewrite Hfull. cbn. split; reflexivity.
      * pose proof (rank_while_test_free i s Hrun Hfree Hi). lia.
    + destruct Hl as [_ Hi]. intros Heq _.
      pose proof (rank_after_stagger i s Hi). lia.
    + intros _ Hlt. lia.
    + intros _ Hlt. lia.
  - intros _ _. unfold settle. destruct (bool_decide _); [|split; reflexivity].
    cbn. split; [reflexivity | apply subseteq_difference_l; reflexivity].
Qed.

End AdmissionRank.

Section QuietSchedule.
Import Bot Pool Spec.

Lemma live_state_at schedule s0 n :
  (forall k, schedule k <> StopAll /\ schedule k <> StopAllDone) ->
  live s0 -> live (state_at schedule n s0).
Proof.
  intros Hquiet Hlive. induction n as [|n IH]; [exact Hlive|]. cbn [state_at].
  destruct (Hquiet n). now apply live_step.
Qed.

Lemma known_launch i s : known s -> known (launch i s).
Proof.
  intros Hk. unfold launch.
  destruct (playerIds (task s) !! i) as [playerId|] eqn:Hid; [|exact Hk].
  unfold startBot_begin. destruct (map_get playerId (bots (pool s))); [|exact Hk].
  destruct (bool_decide _); [exact Hk|].
  intros x Hx. cbn in *. apply elem_of_union in Hx as [Hx|Hx].
  - apply elem_of_singleton in Hx. subst. eapply list_elem_of_lookup_2, Hid.
  - apply Hk, Hx.
Qed.

Lemma known_stagger_sleep i s : known s -> known (stagger_sleep i s).
Proof. intros Hk. unfold stagger_sleep. destruct (randomDelay _ _ _). exact Hk. Qed.

Lemma known_loop_head_next i s : known s -> known (loop_head_next i s).
Proof.
  intros Hk. unfold loop_head_next. destruct (_ && _); [|exact Hk].
  pose proof (suspend_or_break_cases i s) as C.
  destruct (suspend_or_break i s) as [s'|].
  - destruct C as [-> | ->]; exact Hk.
  - apply known_stagger_sleep, Hk.
Qed.

Lemma known_step e s : known s -> known (step e s).
Proof.
  intros Hk. destruct e as [|playerId ran| |]; cbn [step].
  - unfold resume. destruct (loc (task s)) as [i|i d| |r].
    + unfold while_test. pose proof (suspend_or_break_cases i s) as C.
      destruct (suspend_or_break i s) as [s'|].
      * destruct C as [-> | ->]; exact Hk.
      * destruct (0 <? i)%nat; [apply known_stagger_sleep, Hk|].
        apply known_loop_head_next, known_launch, Hk.
    + apply known_loop_head_next, known_launch, Hk.
    + destruct (bool_decide _); exact Hk.
    + exact Hk.
  - unfold settle. destruct (bool_decide _); [|exact Hk].
    intros x Hx. cbn in *. apply elem_of_difference in Hx as [Hx _]. apply Hk, Hx.
  - exact Hk.
  - intros x Hx. cbn in Hx. apply not_elem_of_empty in Hx. contradiction.
Qed.

Lemma known_state_at schedule n s : known s -> known (state_at schedule n s).
Proof.
  intros H. induction n as [|n IH]; [exact H|]. cbn [state_at]. apply known_step, IH.
Qed.

Lemma known_startAll opts g p : activeBots p = ∅ -> known (startAll opts g p).
Proof.
  intros Hempty. unfold startAll, loop_head.
  match goal with |- known (if _ then while_test 0 ?s else _) => set (s0 := s) end.
  assert (Hk : known s0).
  { intros x Hx. cbn in Hx. rewrite Hempty in Hx. apply not_elem_of_empty in Hx.
    contradiction. }
  destruct (_ && _); [|exact Hk].
  unfold while_test. pose proof (suspend_or_break_cases 0 s0) as C.
  destruct (suspend_or_break 0 s0) as [s'|].
  - destruct C as [-> | ->]; exact Hk.
  - cbn. apply known_loop_head_next, known_launch, Hk.
Qed.

Lemma calm_stagger_sleep i s :
  stagger (task s) = (0, 0) -> unit_draws (rand (task s)) -> calm (stagger_sleep i s).
Proof.
  intros Hs Hg. unfold stagger_sleep. rewrite Hs. cbn [fst snd].
  pose proof (randomDelay_range 0 0 (rand (task s)) Hg ltac:(lia)) as Hr.
  pose proof (randomDelay_draws 0 0 (rand (task s)) Hg) as Hg'.
  destruct (randomDelay 0 0 (rand (task s))) as [d g']. cbn in *.
  split; [reflexivity|]. split; [exact Hg'|].
  intros i0 d0 [= _ <-]. lia.
Qed.

Lemma calm_at_loc l s :
  stagger (task s) = (0, 0) -> unit_draws (rand (task s)) ->
  (forall i d, l <> AtStagger i d) -> calm (at_loc l s).
Proof.
  intros Hs Hg Hl. split; [exact Hs|]. split; [exact Hg|].
  intros i d E. cbn in E. now apply Hl in E.
Qed.

Lemma calm_launch i s :
  stagger (task s) = (0, 0) -> unit_draws (rand (task s)) ->
  stagger (task (launch i s)) = (0, 0) /\ unit_draws (rand (task (launch i s))).
Proof.
  intros Hs Hg. unfold launch. destruct (playerIds (task s) !! i); [|auto].
  destruct (startBot_begin _ _) as [[] p']; cbn; auto.
Qed.

Lemma calm_loop_head_next i s :
  stagger (task s) = (0, 0) -> unit_draws (rand (task s)) -> calm (loop_head_next i s).
Proof.
  intros Hs Hg. unfold loop_head_next.
  destruct (_ && _); [|apply calm_at_loc; try assumption; discriminate].
  pose proof (suspend_or_break_cases i s) as C.
  destruct (suspend_or_break i s) as [s'|].
  - destruct C as [-> | ->]; apply calm_at_loc; try assumption; discriminate.
  - now apply calm_stagger_sleep.
Qed.

Lemma calm_while_test i s :
  stagger (task s) = (0, 0) -> unit_draws (rand (task s)) -> calm (while_test i s).
Proof.
  intros Hs Hg. unfold while_test.
  pose proof (suspend_or_break_cases i s) as C.
  destruct (suspend_or_break i s) as [s'|].
  - destruct C as [-> | ->]; apply calm_at_loc; try assumption; discriminate.
  - destruct (0 <? i)%nat; [now apply calm_stagger_sleep|].
    unfold after_stagger. destruct (calm_launch i s Hs Hg). now apply calm_loop_head_next.
Qed.

Lemma calm_step e s : calm s -> calm (step e s).
Proof.
  intros (Hs & Hg & Hd). destruct e as [|playerId ran| |]; cbn [step].
  - unfold resume. destruct (loc (task s)) as [i|i d| |r] eqn:L.
    + now apply calm_while_test.
    + unfold after_stagger. destruct (calm_launch i s Hs Hg). now apply calm_loop_head_next.
    + destruct (bool_decide _).
      * apply calm_at_loc; try assumption. discriminate.
      * split; [exact Hs|]. split; [exact Hg|].
        intros i d E. rewrite L in E. discriminate.
    + split; [exact Hs|]. split; [exact Hg|].
      intros i d E. rewrite L in E. discriminate.
  - unfold settle. destruct (bool_decide _); (split; [exact Hs|]; split; [exact Hg | exact Hd]).
  - split; [exact Hs|]. split; [exact Hg | exact Hd].
  - split; [exact Hs|]. split; [exact Hg | exact Hd].
Qed.

Lemma calm_state_at schedule n s : calm s -> calm (state_at schedule n s).
Proof.
  intros H. induction n as [|n IH]; [exact H|]. cbn [state_at]. apply calm_step, IH.
Qed.

Lemma calm_startAll g p opts :
  staggerDelay opts = Some (0, 0) -> unit_draws g -> calm (startAll opts g p).
Proof.
  intros Ho Hg. unfold startAll, loop_head. rewrite Ho. cbn [default from_option Datatypes.id].
  destruct (_ && _).
  - apply calm_while_test; [reflexivity | exact Hg].
  - apply calm_at_loc; [reflexivity | exact Hg | discriminate].
Qed.

Lemma playerIds_while_test i s :
  playerIds (task (while_test i s)) = playerIds (task s).
Proof.
  unfold while_test. pose proof (suspend_or_break_cases i s) as C.
  destruct (suspend_or_break i s) as [s'|].
  - destruct C as [-> | ->]; reflexivity.
  - destruct (0 <? i)%nat; [apply playerIds_stagger_sleep | apply playerIds_after_stagger].
Qed.

Lemma frame_startAll opts g p :
  limit (task (startAll opts g p)) = default (maxConcurrent p) (optMaxConcurrent opts) /\
  playerIds (task (startAll opts g p)) = map_keys (bots p).
Proof.
  unfold startAll, loop_head. destruct (_ && _).
  - rewrite limit_while_test, playerIds_while_test. split; reflexivity.
  - split; reflexivity.
Qed.

Lemma playerIds_state_at schedule n s :
  playerIds (task (state_at schedule n s)) = playerIds (task s).
Proof.
  induction n as [|n IH]; [reflexivity|]. cbn [state_at]. now rewrite playerIds_step.
Qed.

(** The three registered agents, in roster order. *)
Lemma three_agents_keys config a b c :
  NoDup [id a; id b; id c] ->
  map_keys (bots (three_agents config a b c)) = [id a; id b; id c] /\
  activeBots (three_agents config a b c) = ∅.
Proof.
  intros Hnd. apply NoDup_cons in Hnd as [Ha Hnd]. apply NoDup_cons in Hnd as [Hb _].
  apply not_elem_of_cons in Ha as [Hab Ha]. apply not_elem_of_cons in Ha as [Hac _].
  apply not_elem_of_cons in Hb as [Hbc _].
  unfold three_agents, addPlayers, addPlayer, map_has. cbn.
  rewrite (bool_decide_eq_false_2 (id a ∈ [])) by (apply not_elem_of_nil). cbn.
  rewrite (bool_decide_eq_false_2 (id b ∈ [id a]))
    by (intros H; apply list_elem_of_singleton in H; congruence).
  cbn. rewrite (decide_False (P := id a = id b)) by exact Hab. cbn.
  rewrite (bool_decide_eq_false_2 (id c ∈ [id a; id b])).
  - cbn. rewrite (decide_False (P := id a = id c)) by exact Hac.
    rewrite (decide_False (P := id b = id c)) by exact Hbc. cbn. split; reflexivity.
  - intros H. apply elem_of_cons in H as [H|H]; [congruence|].
    apply list_elem_of_singleton in H. congruence.
Qed.

End QuietSchedule.

Section FairSchedule.
Import Bot Pool Spec.

Variable schedule : nat -> Event.
Variable s0 : System.
Hypothesis Hfair : fair schedule s0.
Hypothesis Hlive : live s0.
Hypothesis Hbounded : bounded s0.

Lemma live_at n : live (state_at schedule n s0).
Proof.
  induction n as [|n IH]; [exact Hlive|]. cbn [state_at].
  destruct (fair_no_stop _ _ Hfair n). now apply live_step.
Qed.

Lemma playerIds_at n : playerIds (task (state_at schedule n s0)) = playerIds (task s0).
Proof.
  induction n as [|n IH]; [reflexivity|]. cbn [state_at]. now rewrite playerIds_step.
Qed.

Lemma rank_mono_at n : (rank (state_at schedule n s0) <= rank (state_at schedule (S n) s0))%nat.
Proof.
  cbn [state_at]. destruct (fair_no_stop _ _ Hfair n).
  apply rank_step_mono; [apply live_at | assumption | assumption].
Qed.

Lemma rank_mono_from n k :
  (rank (state_at schedule n s0) <= rank (state_at schedule (n + k) s0))%nat.
Proof.
  induction k as [|k IH]; [rewrite Nat.add_0_r; lia|].
  rewrite Nat.add_succ_r. pose proof (rank_mono_at (n + k)). lia.
Qed.

(** From any point on, either the rank has gone up or the task has not
    moved and no agent was started. *)
Lemma stable_or_progress n k :
  (rank (state_at schedule n s0) < 2 * length (playerIds (task s0)))%nat ->
  (rank (state_at schedule n s0) < rank (state_at schedule (n + k) s0))%nat \/
  (loc (task (state_at schedule (n + k) s0)) = loc (task (state_at schedule n s0)) /\
   activeBots (pool (state_at schedule (n + k) s0))
     ⊆ activeBots (pool (state_at schedule n s0))).
Proof.
  intros Hlow. induction k as [|k IH].
  - right. rewrite Nat.add_0_r. split; reflexivity.
  - rewrite Nat.add_succ_r. pose proof (rank_mono_at (n + k)) as Hm.
    destruct IH as [IH|[Hloc Hact]]; [left; lia|].
    assert (Hsame : rank (state_at schedule (n + k) s0) = rank (state_at schedule n s0))
      by (unfold rank; rewrite Hloc, !playerIds_at; reflexivity).
    destruct (Nat.eq_dec (rank (state_at schedule (S (n + k)) s0))
                         (rank (state_at schedule (n + k) s0))) as [Heq|Hne];
      [|left; lia].
    right. cbn [state_at] in *. destruct (fair_no_stop _ _ Hfair (n + k)).
    destruct (quiet_step (schedule (n + k)) (state_at schedule (n + k) s0))
      as [Hloc' Hact']; try assumption.
    + apply live_at.
    + rewrite playerIds_at. lia.
    + split; [congruence | etransitivity; eassumption].
Qed.

Lemma progress_stagger n i d :
  loc (task (state_at schedule n s0)) = AtStagger i d ->
  exists m, (rank (state_at schedule n s0) < rank (state_at schedule m s0))%nat.
Proof.
  intros L. pose proof (live_at n) as Hl. unfold live in Hl. rewrite L in Hl.
  destruct Hl as [_ Hi]. rewrite playerIds_at in Hi.
  assert (Hrank : rank (state_at schedule n s0) = (2 * i + 1)%nat)
    by (unfold rank; rewrite L; reflexivity).
  destruct (fair_resume _ _ Hfair n) as (m & Hle & Hm).
  assert (Hk : m = (n + (m - n))%nat) by lia.
  set (k := (m - n)%nat) in Hk. clearbody k. subst m.
  destruct (stable_or_progress n k ltac:(lia)) as [Hup|[Hloc _]].
  - eauto.
  - exists (S (n + k)). cbn [state_at]. rewrite Hm. cbn [step]. unfold resume.
    rewrite Hloc, L.
    pose proof (rank_after_stagger i (state_at schedule (n + k) s0)
                  ltac:(rewrite playerIds_at; exact Hi)).
    lia.
Qed.

Lemma progress_free n i :
  loc (task (state_at schedule n s0)) = AtWhile i ->
  (size (activeBots (pool (state_at schedule n s0))) < limit (task s0))%nat ->
  exists m, (rank (state_at schedule n s0) < rank (state_at schedule m s0))%nat.
Proof.
  intros L Hfree. pose proof (live_at n) as Hl. unfold live in Hl. rewrite L in Hl.
  destruct Hl as [_ Hi]. rewrite playerIds_at in Hi.
  assert (Hrank : rank (state_at schedule n s0) = (2 * i)%nat)
    by (unfold rank; rewrite L; reflexivity).
  destruct (fair_resume _ _ Hfair n) as (m & Hle & Hm).
  assert (Hk : m = (n + (m - n))%nat) by lia.
  set (k := (m - n)%nat) in Hk. clearbody k. subst m.
  destruct (stable_or_progress n k ltac:(lia)) as [Hup|[Hloc Hact]].
  - eauto.
  - exists (S (n + k)). cbn [state_at]. rewrite Hm. cbn [step]. unfold resume.
    rewrite Hloc, L.
    pose proof (live_at (n + k)) as Hl'. unfold live in Hl'. rewrite Hloc, L in Hl'.
    destruct Hl' as [Hb' Hi'].
    pose proof (rank_while_test_free i (state_at schedule (n + k) s0)
                  (base_running _ _ Hb')) as Hr.
    rewrite limit_state_at in Hr. apply subseteq_size in Hact.
    specialize (Hr ltac:(lia) Hi'). lia.
Qed.

Lemma progress_blocked n i :
  loc (task (state_at schedule n s0)) = AtWhile i ->
  (limit (task s0) <= size (activeBots (pool (state_at schedule n s0))))%nat ->
  exists m, (rank (state_at schedule n s0) < rank (state_at schedule m s0))%nat.
Proof.
  intros L Hfull. pose proof (live_at n) as Hl. unfold live in Hl. rewrite L in Hl.
  destruct Hl as [Hb Hi]. rewrite playerIds_at in Hi.
  pose proof (base_limit _ _ Hb) as Hlim. rewrite limit_state_at in Hlim.
  assert (Hrank : rank (state_at schedule n s0) = (2 * i)%nat)
    by (unfold rank; rewrite L; reflexivity).
  destruct (size_pos_elem_of (activeBots (pool (state_at schedule n s0))) ltac:(lia))
    as [x Hx].
  destruct (fair_settle _ _ Hfair n x Hx) as (m & ran & Hle & Hm).
  assert (Hk : m = (n + (m - n))%nat) by lia.
  set (k := (m - n)%nat) in Hk. clearbody k. subst m.
  destruct (stable_or_progress n k ltac:(lia)) as [Hup|[Hloc Hact]]; [eauto|].
  destruct (stable_or_progress n (S k) ltac:(lia)) as [Hup|[Hloc' Hact']]; [eauto|].
  (* the settled agent has left the active set *)
  assert (Hgone : x ∉ activeBots (pool (state_at schedule (n + S k) s0))).
  { rewrite Nat.add_succ_r. cbn [state_at]. rewrite Hm. cbn [step]. unfold settle.
    pose proof (live_at (n + k)) as Hl'. unfold live in Hl'. rewrite Hloc, L in Hl'.
    destruct Hl' as [Hb' _].
    destruct (bool_decide (x ∈ pending (task (state_at schedule (n + k) s0)))) eqn:E.
    - cbn. intros Hin. apply elem_of_difference in Hin as [_ Hin].
      apply Hin, elem_of_singleton. reflexivity.
    - apply bool_decide_eq_false in E. intros Hin. apply E.
      apply (base_active _ _ Hb'), Hin. }
  assert (Hsmaller :
    (size (activeBots (pool (state_at schedule (n + S k) s0)))
       < size (activeBots (pool (state_at schedule n s0))))%nat).
  { apply subset_size. split; [exact Hact'|].
    intros Hsub. apply Hgone, Hsub, Hx. }
  pose proof (bounded_state_at schedule n s0 Hbounded) as [Hbound _].
  rewrite limit_state_at in Hbound.
  destruct (progress_free (n + S k) i) as [m' Hm']; [congruence | lia |].
  exists m'.
  assert (rank (state_at schedule (n + S k) s0) = rank (state_at schedule n s0))
    by (unfold rank; rewrite Hloc', !playerIds_at; reflexivity).
  lia.
Qed.

Lemma progress n :
  (rank (state_at schedule n s0) < 2 * length (playerIds (task s0)))%nat ->
  exists m, (rank (state_at schedule n s0) < rank (state_at schedule m s0))%nat.
Proof.
  intros Hlow.
  destruct (loc (task (state_at schedule n s0))) as [i|i d| |r] eqn:L.
  - destruct (le_lt_dec (limit (task s0))
                        (size (activeBots (pool (state_at schedule n s0))))).
    + now apply progress_blocked with (i := i).
    + now apply progress_free with (i := i).
  - now apply progress_stagger with (i := i) (d := d).
  - unfold rank in Hlow. rewrite L, playerIds_at in Hlow. lia.
  - unfold rank in Hlow. rewrite L, playerIds_at in Hlow. lia.
Qed.

Lemma reaches_join_from gap : forall n,
  (2 * length (playerIds (task s0)) - rank (state_at schedule n s0) <= gap)%nat ->
  exists m, (2 * length (playerIds (task s0)) <= rank (state_at schedule m s0))%nat.
Proof.
  induction gap as [|gap IH]; intros n Hgap.
  - exists n. lia.
  - destruct (le_lt_dec (2 * length (playerIds (task s0))) (rank (state_at schedule n s0)))
      as [Hdone|Hlow]; [eauto|].
    destruct (progress n Hlow) as [m Hm]. apply (IH m). lia.
Qed.

(** Under a fair schedule every registered agent is started. *)
Lemma all_launched :
  exists n, launched (task (state_at schedule n s0)) = playerIds (task s0).
Proof.
  destruct (reaches_join_from _ 0 (Nat.le_refl _)) as [m Hm].
  exists m. pose proof (live_at m) as Hl. unfold live in Hl. unfold rank in Hm.
  rewrite <- (playerIds_at m) in *.
  destruct (loc (task (state_at schedule m s0))) as [i|i d| |r].
  - destruct Hl. lia.
  - destruct Hl. lia.
  - rewrite (base_launched _ _ Hl). apply take_ge. lia.
  - exact Hl.
Qed.

End FairSchedule.


Lemma round_robin_fair :
  Spec.fair Samples.round_robin
    (Pool.startAll Spec.two_at_a_time Samples.half
       (Spec.three_agents Samples.site Samples.on_time Samples.bob Samples.carol)).
Proof.
  constructor.
  - intros n. unfold Samples.round_robin.
    destruct (n mod 4)%nat as [|[|[|]]]; split; discriminate.
  - intros n. exists (n * 4)%nat. split; [lia|].
    unfold Samples.round_robin. rewrite Nat.Div0.mod_mul. reflexivity.
  - intros n playerId Hin.
    apply known_state_at in Hin; [|apply known_startAll; reflexivity].
    rewrite playerIds_state_at in Hin.
    destruct (frame_startAll Spec.two_at_a_time Samples.half
                (Spec.three_agents Samples.site Samples.on_time Samples.bob Samples.carol))
      as [_ Hp].
    rewrite Hp in Hin. change (playerId ∈ ["alice"; "bob"; "carol"]) in Hin.
    apply elem_of_cons in Hin as [->|Hin];
      [|apply elem_of_cons in Hin as [->|Hin];
        [|apply list_elem_of_singleton in Hin as ->]].
    + exists (1 + n * 4)%nat, (Pool.RanReturned None). split; [lia|].
      unfold Samples.round_robin. rewrite Nat.Div0.mod_add. reflexivity.
    + exists (2 + n * 4)%nat, (Pool.RanReturned None). split; [lia|].
      unfold Samples.round_robin. rewrite Nat.Div0.mod_add. reflexivity.
    + exists (3 + n * 4)%nat, (Pool.RanReturned None). split; [lia|].
      unfold Samples.round_robin. rewrite Nat.Div0.mod_add. reflexivity.
Defined.


(** The scenario run on the sample schedule: the third agent waits for
    a slot and is started once the first has finished. *)
Example three_agents_two_slots :
  let s0 := Pool.startAll Spec.two_at_a_time Samples.half
              (Spec.three_agents Samples.site Samples.on_time Samples.bob Samples.carol) in
  Pool.launched (Pool.task (Pool.state_at Samples.round_robin 1 s0)) = ["alice"; "bob"] /\
  Pool.loc (Pool.task (Pool.state_at Samples.round_robin 1 s0)) = Pool.AtWhile 2 /\
  Pool.launched (Pool.task (Pool.state_at Samples.round_robin 9 s0))
    = ["alice"; "bob"; "carol"].
Proof. repeat split; vm_compute; reflexivity. Qed.

(** * Further properties of the code *)

(** ** Timing utilities *)

(** X1: for integer bounds [min <= max], [randomDelay(min, max)] lies
    between them, both included, whatever the draw. *)
Theorem randomDelay_within_bounds (min max : Z) (g : rng)
    (Hdraws : unit_draws g) (Hle : min <= max) :
  min <= (randomDelay min max g).1 <= max.
Proof. exact (randomDelay_range min max g Hdraws Hle). Qed.

Lemma randomDelay_within_bounds_witness :
  500 <= (randomDelay 500 2000 Samples.half).1 <= 2000.
Proof.
  apply (randomDelay_within_bounds 500 2000 Samples.half).
  - intros n. unfold Samples.half. split; lra.
  - lia.
Defined.

(** X2: when the profile's reaction-time envelope has [min <= max],
    [calculateAnswerDelay] returns a delay inside it, for every
    personality, difficulty and draw. *)
Theorem answer_delay_within_envelope (profile : Profile) (questionDifficulty : Q)
    (g : rng)
    (Henvelope : (rt_min (reactionTime profile) <= rt_max (reactionTime profile))%Q) :
  (rt_min (reactionTime profile)
     <= (calculateAnswerDelay profile questionDifficulty g).1)%Q /\
  ((calculateAnswerDelay profile questionDifficulty g).1
     <= rt_max (reactionTime profile))%Q.
Proof.
  unfold calculateAnswerDelay, randomDelay, Math_random.
  repeat match goal with |- context [if ?c then _ else _] => destruct c end;
    cbv beta iota zeta delta [fst]; split;
    solve [ apply Math_max_lower
          | apply Math_max_upper; [exact Henvelope | apply Math_min_upper] ].
Qed.

Lemma answer_delay_within_envelope_witness :
  (2000 <= (calculateAnswerDelay Samples.on_time 0.5 Samples.half).1)%Q /\
  ((calculateAnswerDelay Samples.on_time 0.5 Samples.half).1 <= 10000)%Q.
Proof.
  apply (answer_delay_within_envelope Samples.on_time 0.5 Samples.half).
  cbn. lra.
Defined.

Section TypingDuration.

Lemma typingLoop_bounds n : forall min max total g,
  unit_draws g -> min <= max ->
  total + Z.of_nat n * min <= (typingLoop n min max total g).1
    <= total + Z.of_nat n * (max + 500).
Proof.
  induction n as [|n IH]; intros min max total g Hg Hle.
  - cbn. lia.
  - cbn [typingLoop].
    pose proof (randomDelay_range min max g Hg Hle) as Hd.
    pose proof (randomDelay_draws min max g Hg) as Hg1.
    destruct (randomDelay min max g) as [d g1]. cbn [fst snd] in Hd, Hg1.
    unfold Math_random.
    destruct (lt_num (g1 0%nat) 0.1).
    + pose proof (randomDelay_range 200 500 (fun n => g1 (S n))
                    (fun n => Hg1 (S n)) ltac:(lia)) as Hp.
      pose proof (randomDelay_draws 200 500 (fun n => g1 (S n)) (fun n => Hg1 (S n))) as Hg2.
      destruct (randomDelay 200 500 (fun n => g1 (S n))) as [pause g2].
      cbn [fst snd] in Hp, Hg2.
      specialize (IH min max (total + d + pause) g2 Hg2 Hle). lia.
    + specialize (IH min max (total + d) (fun n => g1 (S n)) (fun n => Hg1 (S n)) Hle). lia.
Qed.

End TypingDuration.

(** X3: for [min <= max], typing a text of [n] characters takes at least
    [n * min] and at most [n * (max + 500)] milliseconds -- each character
    costs one delay of the range plus, now and then, a pause of at most
    500 ms; the empty text takes no time. *)
Theorem typing_duration_bounds (textLength : nat) (min max : option Z) (g : rng)
    (Hdraws : unit_draws g)
    (Hle : default 50 min <= default 150 max) :
  Z.of_nat textLength * default 50 min
    <= (calculateTypingDuration textLength min max g).1
    <= Z.of_nat textLength * (default 150 max + 500) /\
  (calculateTypingDuration 0 min max g).1 = 0.
Proof.
  split; [|reflexivity]. unfold calculateTypingDuration.
  pose proof (typingLoop_bounds textLength (default 50 min) (default 150 max) 0 g
                Hdraws Hle). lia.
Qed.

Lemma typing_duration_bounds_witness :
  5 * 50 <= (calculateTypingDuration 5 None None Samples.half).1 <= 5 * (150 + 500).
Proof.
  destruct (typing_duration_bounds 5 None None Samples.half) as [H _].
  - intros n. unfold Samples.half. split; lra.
  - cbn. lia.
  - exact H.
Defined.

(** X4: whatever the profile and the draws, [calculateJoinTiming] gives
    one of three answers: no-show, not joining, with delay 0; late, joining
    after 30000 to 120000 ms; or on-time, joining after 1000 to 10000 ms.
    An agent that joins therefore always waits at least one second. *)
Theorem join_timing_cases (profile : Profile) (g : rng) (Hdraws : unit_draws g) :
  let t := (calculateJoinTiming profile g).1 in
  (shouldJoin t = false /\ Timing.delay t = 0 /\ Timing.reason t = "no-show") \/
  (shouldJoin t = true /\ 30000 <= Timing.delay t <= 120000 /\ Timing.reason t = "late") \/
  (shouldJoin t = true /\ 1000 <= Timing.delay t <= 10000 /\ Timing.reason t = "on-time").
Proof.
  unfold calculateJoinTiming, Math_random.
  destruct (lt_num (g 0%nat) _); [left; repeat split|].
  assert (Hg2 : unit_draws (fun n => g (S (S n)))) by (intros n; apply Hdraws).
  destruct (lt_num (g 1%nat) _).
  - pose proof (randomDelay_range 30000 120000 _ Hg2 ltac:(lia)) as R.
    destruct (randomDelay 30000 120000 _) as [d g']. cbn in *.
    right; left. repeat split; lia.
  - pose proof (randomDelay_range 1000 10000 _ Hg2 ltac:(lia)) as R.
    destruct (randomDelay 1000 10000 _) as [d g']. cbn in *.
    right; right. repeat split; lia.
Qed.

Lemma join_timing_cases_witness :
  let t := (calculateJoinTiming Samples.on_time Samples.half).1 in
  (shouldJoin t = false /\ Timing.delay t = 0 /\ Timing.reason t = "no-show") \/
  (shouldJoin t = true /\ 30000 <= Timing.delay t <= 120000 /\ Timing.reason t = "late") \/
  (shouldJoin t = true /\ 1000 <= Timing.delay t <= 10000 /\ Timing.reason t = "on-time").
Proof.
  apply (join_timing_cases Samples.on_time Samples.half).
  intros n. unfold Samples.half. split; lra.
Defined.

(** ** Behaviour engine *)

Section PlayerCounters.
Import Spec.

Lemma recordAnswer_tally wasCorrect s : tally_ok s -> tally_ok (recordAnswer wasCorrect s).
Proof.
  intros (H1 & H2). unfold tally_ok, recordAnswer. cbn.
  destruct wasCorrect; split; lia.
Qed.

Lemma reset_tally s : tally_ok (reset s).
Proof. unfold tally_ok, reset. cbn. split; lia. Qed.

Lemma foldl_ops_tally ops : forall s, tally_ok s -> tally_ok (foldl apply_op s ops).
Proof.
  induction ops as [|op ops IH]; intros s Hs; cbn; [exact Hs|].
  apply IH. destruct op; [now apply recordAnswer_tally | apply reset_tally].
Qed.

Lemma streak_run_correct k : forall s,
  currentStreak (Nat.iter (S k) (recordAnswer true) s)
    = Z.max 0 (currentStreak s) + Z.of_nat (S k).
Proof.
  induction k as [|k IH]; intros s.
  - cbn. lia.
  - change (Nat.iter (S (S k)) (recordAnswer true) s)
      with (recordAnswer true (Nat.iter (S k) (recordAnswer true) s)).
    unfold recordAnswer at 1. cbn [currentStreak]. rewrite IH. lia.
Qed.

Lemma streak_run_wrong k : forall s,
  currentStreak (Nat.iter (S k) (recordAnswer false) s)
    = Z.min 0 (currentStreak s) - Z.of_nat (S k).
Proof.
  induction k as [|k IH]; intros s.
  - cbn. lia.
  - change (Nat.iter (S (S k)) (recordAnswer false) s)
      with (recordAnswer false (Nat.iter (S k) (recordAnswer false) s)).
    unfold recordAnswer at 1. cbn [currentStreak]. rewrite IH. lia.
Qed.

End PlayerCounters.

(** X5: along every sequence of [recordAnswer] and [reset] calls on a
    player state that starts from a reset, the counters stay consistent:
    [correctAnswers <= questionsAnswered], and the streak, in either
    direction, is no longer than the number of answers. *)
Theorem player_counters_consistent :
  forall s0 ops, Spec.tally_ok (foldl Spec.apply_op (reset s0) ops).
Proof. intros s0 ops. apply foldl_ops_tally, reset_tally. Qed.

(** X6: a run of [k + 1] correct answers leaves the streak at
    [max(0, streak) + k + 1] and a run of wrong answers at
    [min(0, streak) - (k + 1)], so three answers of the same kind in a row
    always make the player hot (or cold), whatever came before, and the
    first answer of the other kind ends a hot (or cold) streak. *)
Theorem streak_runs (k : nat) (s : PlayerState) :
  currentStreak (Nat.iter (S k) (recordAnswer true) s)
    = Z.max 0 (currentStreak s) + Z.of_nat (S k) /\
  currentStreak (Nat.iter (S k) (recordAnswer false) s)
    = Z.min 0 (currentStreak s) - Z.of_nat (S k) /\
  isHot (Nat.iter 3 (recordAnswer true) s) = true /\
  isCold (Nat.iter 3 (recordAnswer false) s) = true /\
  isHot (recordAnswer false s) = false /\
  isCold (recordAnswer true s) = false.
Proof.
  split; [apply streak_run_correct|]. split; [apply streak_run_wrong|].
  unfold recordAnswer. cbn.
  repeat split; try (apply Z.leb_le; lia); apply Z.leb_gt; lia.
Qed.

Section EngineStates.
Import Spec.

Lemma getPlayerState_lookup profile e :
  playerStates (getPlayerState profile e).2 !! id profile
    = Some (getPlayerState profile e).1.
Proof.
  unfold getPlayerState. destruct (playerStates e !! id profile) eqn:E; cbn.
  - exact E.
  - apply lookup_insert_eq.
Qed.

Lemma getPlayerState_other profile e k :
  k <> id profile ->
  playerStates (getPlayerState profile e).2 !! k = playerStates e !! k.
Proof.
  intros Hk. unfold getPlayerState. destruct (playerStates e !! id profile); cbn.
  - reflexivity.
  - apply lookup_insert_ne. congruence.
Qed.

Lemma getPlayerState_again profile e :
  getPlayerState profile (getPlayerState profile e).2 = getPlayerState profile e.
Proof.
  pose proof (getPlayerState_lookup profile e) as H.
  destruct (getPlayerState profile e) as [s e'] eqn:E. cbn [fst snd] in *.
  unfold getPlayerState at 1. rewrite H. reflexivity.
Qed.

Lemma engineRecordAnswer_lookup profile wasCorrect e :
  playerStates (engineRecordAnswer profile wasCorrect e) !! id profile
    = Some (recordAnswer wasCorrect (getPlayerState profile e).1).
Proof.
  unfold engineRecordAnswer. destruct (getPlayerState profile e). cbn.
  apply lookup_insert_eq.
Qed.

Lemma engineRecordAnswer_other profile wasCorrect e k :
  k <> id profile ->
  playerStates (engineRecordAnswer profile wasCorrect e) !! k = playerStates e !! k.
Proof.
  intros Hk. unfold engineRecordAnswer.
  pose proof (getPlayerState_other profile e k Hk) as H.
  destruct (getPlayerState profile e). cbn in *.
  rewrite lookup_insert_ne by congruence. exact H.
Qed.

Lemma resetPlayer_lookup profile e :
  playerStates (resetPlayer profile e) !! id profile = Some newPlayerState.
Proof.
  unfold resetPlayer. destruct (getPlayerState profile e). cbn.
  apply lookup_insert_eq.
Qed.

Lemma resetPlayer_other profile e k :
  k <> id profile ->
  playerStates (resetPlayer profile e) !! k = playerStates e !! k.
Proof.
  intros Hk. unfold resetPlayer.
  pose proof (getPlayerState_other profile e k Hk) as H.
  destruct (getPlayerState profile e). cbn in *.
  rewrite lookup_insert_ne by congruence. exact H.
Qed.

Lemma engine_ok_step e op : engine_ok e -> engine_ok (apply_engine_op e op).
Proof.
  intros He. assert (Hnew : tally_ok newPlayerState) by exact (reset_tally newPlayerState).
  assert (Hget : forall profile, tally_ok (getPlayerState profile e).1).
  { intros profile. unfold getPlayerState.
    destruct (playerStates e !! id profile) eqn:E; cbn; [eapply He, E | exact Hnew]. }
  destruct op as [profile wasCorrect|profile|profile]; cbn [apply_engine_op]; intros k s Hk.
  - destruct (decide (k = id profile)) as [->|Hne].
    + rewrite engineRecordAnswer_lookup in Hk. injection Hk as <-.
      apply recordAnswer_tally, Hget.
    + rewrite engineRecordAnswer_other in Hk by exact Hne. eapply He, Hk.
  - destruct (decide (k = id profile)) as [->|Hne].
    + rewrite resetPlayer_lookup in Hk. injection Hk as <-. exact Hnew.
    + rewrite resetPlayer_other in Hk by exact Hne. eapply He, Hk.
  - destruct (decide (k = id profile)) as [->|Hne].
    + rewrite getPlayerState_lookup in Hk. injection Hk as <-. apply Hget.
    + rewrite getPlayerState_other in Hk by exact Hne. eapply He, Hk.
Qed.

Lemma engine_ok_run ops : forall e, engine_ok e -> engine_ok (foldl apply_engine_op e ops).
Proof.
  induction ops as [|op ops IH]; intros e He; cbn; [exact He|].
  apply IH, engine_ok_step, He.
Qed.

Lemma accuracy_unit (c a : nat) :
  (c <= a)%nat -> (0 < a)%nat ->
  (0 <= inject_Z (Z.of_nat c) / inject_Z (Z.of_nat a))%Q /\
  (inject_Z (Z.of_nat c) / inject_Z (Z.of_nat a) <= 1)%Q.
Proof.
  intros Hca Ha.
  assert (Hc0 : (inject_Z 0 <= inject_Z (Z.of_nat c))%Q) by (rewrite <- Zle_Qle; lia).
  assert (Ha0 : (inject_Z 0 < inject_Z (Z.of_nat a))%Q) by (rewrite <- Zlt_Qlt; lia).
  assert (Hle : (inject_Z (Z.of_nat c) <= inject_Z (Z.of_nat a))%Q)
    by (rewrite <- Zle_Qle; lia).
  change (inject_Z 0) with 0%Q in *.
  split.
  - apply Qle_shift_div_l; [exact Ha0 | lra].
  - apply Qle_shift_div_r; [exact Ha0 | lra].
Qed.

End EngineStates.

(** X7: the engine keeps one state per profile id.  [getPlayerState]
    creates the entry on first use and returns the stored one afterwards;
    recording an answer or resetting a player rewrites that player's
    entry only, and leaves the state of every other profile id as it was. *)
Theorem engine_states_are_per_profile (profile other : Profile) (wasCorrect : bool)
    (e : BehaviorEngine)
    (Hother : id other <> id profile) :
  playerStates (getPlayerState profile e).2 !! id profile
    = Some (getPlayerState profile e).1 /\
  getPlayerState profile (getPlayerState profile e).2 = getPlayerState profile e /\
  playerStates (engineRecordAnswer profile wasCorrect e) !! id profile
    = Some (recordAnswer wasCorrect (getPlayerState profile e).1) /\
  playerStates (resetPlayer profile e) !! id profile = Some newPlayerState /\
  playerStates (engineRecordAnswer profile wasCorrect e) !! id other
    = playerStates e !! id other /\
  playerStates (resetPlayer profile e) !! id other = playerStates e !! id other /\
  playerStates (getPlayerState profile e).2 !! id other = playerStates e !! id other.
Proof.
  repeat split.
  - apply getPlayerState_lookup.
  - apply getPlayerState_again.
  - apply engineRecordAnswer_lookup.
  - apply resetPlayer_lookup.
  - apply engineRecordAnswer_other, Hother.
  - apply resetPlayer_other, Hother.
  - apply getPlayerState_other, Hother.
Qed.

Lemma engine_states_are_per_profile_witness :
  playerStates (engineRecordAnswer Samples.on_time true newBehaviorEngine) !! "bob"
    = playerStates newBehaviorEngine !! "bob".
Proof.
  destruct (engine_states_are_per_profile Samples.on_time Samples.bob true
              newBehaviorEngine) as (_ & _ & _ & _ & H & _).
  - discriminate.
  - exact H.
Defined.

(** X8: after any history of recorded answers, resets and lookups on a
    fresh engine, the accuracy that [getPlayerStats] reports is a
    fraction between 0 and 1, and the counters it reports are consistent
    ([correctAnswers <= questionsAnswered]). *)
Theorem player_stats_accuracy_is_a_fraction (ops : list Spec.EngineOp)
    (profile : Profile) :
  let stats :=
    (getPlayerStats profile (foldl Spec.apply_engine_op newBehaviorEngine ops)).1 in
  (0 <= stats_accuracy stats)%Q /\ (stats_accuracy stats <= 1)%Q /\
  (stats_correctAnswers stats <= stats_questionsAnswered stats)%nat.
Proof.
  set (e := foldl Spec.apply_engine_op newBehaviorEngine ops).
  assert (He : Spec.engine_ok e).
  { apply engine_ok_run. intros k s Hk. cbn in Hk. rewrite lookup_empty in Hk.
    discriminate. }
  assert (Hs : Spec.tally_ok (getPlayerState profile e).1).
  { unfold getPlayerState. destruct (playerStates e !! id profile) eqn:E; cbn.
    - eapply He, E.
    - exact (reset_tally newPlayerState). }
  unfold getPlayerStats. destruct (getPlayerState profile e) as [s e']. cbn [fst] in *.
  destruct Hs as (Hca & _).
  cbv zeta. cbn [fst stats_accuracy stats_correctAnswers stats_questionsAnswered].
  destruct (0 <? Behavior.questionsAnswered s)%nat eqn:Hpos.
  - apply Nat.ltb_lt in Hpos.
    destruct (accuracy_unit _ _ Hca Hpos) as [H0 H1]. auto.
  - repeat split; [lra | lra | exact Hca].
Qed.

(** X10: the reason tag of [selectAnswer] tells what was done.  With a
    known correct index, a decision to be right returns exactly that
    index ("correct-known") and a decision to be wrong never returns it
    ("intentional-wrong"); with no known index the tag is "guess-biased"
    or "guess-random" according to the decision. *)
Theorem select_answer_reason_matches {A} (profile : Profile) (options : list A)
    (correctIndex : option Z) (decisionOptions : DecisionOptions)
    (e : BehaviorEngine) (g : rng) :
  let d := (selectAnswer profile options correctIndex decisionOptions e g).1.1 in
  expectedCorrect d = (shouldAnswerCorrectly profile decisionOptions e g).1.1 /\
  match correctIndex with
  | Some c =>
      (expectedCorrect d = true /\ index d = Some c /\ reason d = "correct-known") \/
      (expectedCorrect d = false /\ index d <> Some c /\ reason d = "intentional-wrong")
  | None =>
      (expectedCorrect d = true /\ reason d = "guess-biased") \/
      (expectedCorrect d = false /\ reason d = "guess-random")
  end.
Proof.
  unfold selectAnswer.
  destruct (shouldAnswerCorrectly profile decisionOptions e g) as [[correct e1] g1].
  destruct (calculateAnswerDelay profile _ g1) as [delay g2].
  destruct correctIndex as [c|]; destruct correct.
  - destruct (getPlayerState profile e1). cbn. auto.
  - unfold Math_random.
    set (wrong := filter (fun i => i <> c) (mapi (fun i _ => Z.of_nat i) options)).
    destruct (getPlayerState profile e1). cbn [fst index reason expectedCorrect].
    split; [reflexivity|]. right. repeat split.
    intros Hx. unfold Js.index in Hx. destruct (_ <? 0); [discriminate|].
    apply list_elem_of_lookup_2 in Hx. apply list_elem_of_filter in Hx as [Hne _].
    congruence.
  - destruct (weightedRandom _ g2). destruct (getPlayerState profile e1). cbn. auto.
  - unfold Math_random. destruct (getPlayerState profile e1). cbn. auto.
Qed.

Section TypingPlan.
Import Spec.

Lemma correction_ok_shift a chars i c :
  correction_ok chars (S i) c -> correction_ok (a :: chars) i c.
Proof.
  intros (H1 & H2 & H3 & (x & Hx & Hd)). repeat split; try lia.
  - cbn [length]. lia.
  - exists x. split; [|exact Hd].
    replace (position c - i)%nat with (S (position c - S i)) by lia. exact Hx.
Qed.

Lemma planLoop_spec chars : forall i base delays corrections g,
  unit_draws g -> base.1 <= base.2 ->
  exists nd nc,
    (planLoop chars i base delays corrections g).1.1 = delays ++ nd /\
    (planLoop chars i base delays corrections g).1.2 = corrections ++ nc /\
    length nd = length chars /\
    Forall (fun d => base.1 <= d <= base.2 + 650) nd /\
    Forall (correction_ok chars i) nc /\
    unit_draws (planLoop chars i base delays corrections g).2.
Proof.
  induction chars as [|a rest IH]; intros i base delays corrections g Hg Hbase.
  - exists [], []. cbn [planLoop fst snd length]. rewrite !app_nil_r.
    split; [reflexivity|]. split; [reflexivity|]. split; [reflexivity|].
    split; [constructor|]. split; [constructor | exact Hg].
  - cbn [planLoop].
    (* the delay of this character *)
    pose proof (randomDelay_range base.1 base.2 g Hg Hbase) as R0.
    pose proof (randomDelay_draws base.1 base.2 g Hg) as G0.
    destruct (randomDelay base.1 base.2 g) as [d0 g0]. cbn [fst snd] in R0, G0.
    assert (Hpause : exists d1 g1,
      (if is_pause_char a
       then let '(extra, g) := randomDelay 50 150 g0 in (d0 + extra, g)
       else (d0, g0)) = (d1, g1) /\ base.1 <= d1 <= base.2 + 150 /\ unit_draws g1).
    { destruct (is_pause_char a).
      - pose proof (randomDelay_range 50 150 g0 G0 ltac:(lia)) as R.
        pose proof (randomDelay_draws 50 150 g0 G0) as G.
        destruct (randomDelay 50 150 g0) as [x gx]. cbn [fst snd] in R, G.
        eexists _, _. split; [reflexivity|]. split; [lia | exact G].
      - eexists _, _. split; [reflexivity|]. split; [lia | exact G0]. }
    destruct Hpause as (d1 & g1 & -> & R1 & G1).
    unfold Math_random. cbv beta iota.
    assert (Hthink : exists d2 g2,
      (if lt_num (g1 0%nat) 0.05
       then let '(extra, g) := randomDelay 200 500 (fun n => g1 (S n)) in (d1 + extra, g)
       else @pair Z rng d1 (fun n => g1 (S n))) = (d2, g2) /\
      base.1 <= d2 <= base.2 + 650 /\ unit_draws g2).
    { pose proof (unit_draws_tail g1 G1) as Gt. cbn [snd Math_random] in Gt.
      destruct (lt_num (g1 0%nat) 0.05).
      - pose proof (randomDelay_range 200 500 _ Gt ltac:(lia)) as R.
        pose proof (randomDelay_draws 200 500 _ Gt) as G.
        destruct (randomDelay 200 500 (fun n => g1 (S n))) as [x gx].
        cbn [fst snd] in R, G.
        eexists _, _. split; [reflexivity|]. split; [lia | exact G].
      - eexists _, _. split; [reflexivity|]. split; [lia | exact Gt]. }
    destruct Hthink as (d2 & g2 & -> & R2 & G2).
    cbv beta iota.
    pose proof (unit_draws_tail g2 G2) as G3. cbn [snd Math_random] in G3.
    assert (Hcorr : exists nc0 g4,
      (if lt_num (g2 0%nat) 0.02 && (0 <? i)%nat
       then
         let '(offset, g) := randomDelay (-2) 2 (fun n => g2 (S n)) in
         let '(d, g) := randomDelay 100 300 g in
         (corrections ++
            [{| position := i;
                wrongCharCode := Z.of_nat (nat_of_ascii a) + offset;
                correctionDelay := d |}], g)
       else @pair (list Correction) rng corrections (fun n => g2 (S n))) =
      (corrections ++ nc0, g4) /\
      Forall (correction_ok (a :: rest) i) nc0 /\ unit_draws g4).
    { destruct (lt_num (g2 0%nat) 0.02 && (0 <? i)%nat) eqn:C.
      - apply andb_true_iff in C as [_ Hi]. apply Nat.ltb_lt in Hi.
        pose proof (randomDelay_range (-2) 2 _ G3 ltac:(lia)) as Ro.
        pose proof (randomDelay_draws (-2) 2 _ G3) as Go.
        destruct (randomDelay (-2) 2 (fun n => g2 (S n))) as [offset go].
        cbn [fst snd] in Ro, Go.
        pose proof (randomDelay_range 100 300 go Go ltac:(lia)) as Rd.
        pose proof (randomDelay_draws 100 300 go Go) as Gd.
        destruct (randomDelay 100 300 go) as [d gd]. cbn [fst snd] in Rd, Gd.
        eexists [_], _. split; [reflexivity|]. split; [|exact Gd].
        constructor; [|constructor]. repeat split; cbn; try lia.
        exists a. rewrite Nat.sub_diag. split; [reflexivity | lia].
      - exists [], (fun n => g2 (S n)). rewrite app_nil_r.
        split; [reflexivity|]. split; [constructor | exact G3]. }
    destruct Hcorr as (nc0 & g4 & -> & Hnc0 & G4).
    destruct (IH (S i) base (delays ++ [d2]) (corrections ++ nc0) g4 G4 Hbase)
      as (nd & nc & E1 & E2 & Hlen & Hnd & Hnc & Hg').
    exists (d2 :: nd), (nc0 ++ nc).
    rewrite E1, E2, <- !app_assoc. cbn [app length].
    split; [reflexivity|]. split; [reflexivity|].
    split; [now rewrite Hlen|]. split; [constructor; [exact R2 | exact Hnd]|].
    split; [|exact Hg'].
    apply Forall_app. split; [exact Hnc0|].
    eapply Forall_impl; [exact Hnc|]. intros c. apply correction_ok_shift.
Qed.

End TypingPlan.

(** X11: [planTyping] plans one delay per character of the text; every
    delay lies between the lower bound of the personality's typing range
    and its upper bound plus 650 ms (the pause after a space or a
    punctuation mark, and the thinking pause).  Every planned correction
    sits at a position of the text other than the first, waits 100 to
    300 ms, and mistypes a character at most two codes away from the one
    at that position. *)
Theorem typing_plan_shape (profile : Profile) (text : string) (g : rng)
    (Hdraws : unit_draws g) :
  let plan := planTyping profile text g in
  length plan.1.1 = String.length text /\
  Forall (fun d => (baseDelay profile).1 <= d <= (baseDelay profile).2 + 650) plan.1.1 /\
  Forall (Spec.correction_ok (list_ascii_of_string text) 0) plan.1.2.
Proof.
  assert (Hbase : (baseDelay profile).1 <= (baseDelay profile).2).
  { unfold baseDelay. repeat destruct (String.eqb _ _); cbn; lia. }
  destruct (planLoop_spec (list_ascii_of_string text) 0 (baseDelay profile) [] [] g
              Hdraws Hbase) as (nd & nc & E1 & E2 & Hlen & Hnd & Hnc & _).
  unfold planTyping. cbv zeta. rewrite E1, E2. cbn [app].
  repeat split; auto.
  rewrite Hlen. clear. induction text as [|a text IH]; cbn; [reflexivity | now rewrite IH].
Qed.

Lemma typing_plan_shape_witness :
  length (planTyping Samples.on_time "hi, bob" Samples.half).1.1 = 7%nat.
Proof.
  destruct (typing_plan_shape Samples.on_time "hi, bob" Samples.half) as [H _].
  - intros n. unfold Samples.half. split; lra.
  - exact H.
Defined.

Section Detection.
Import GameState.

Lemma setState_facts s m :
  let r := setState s m in
  r.1 = s /\ currentState r.2 = s /\
  (s = currentState m -> r.2 = m) /\
  (s <> currentState m -> previousState r.2 = Some (currentState m)) /\
  questionNumber r.2 =
    (if decide (s = QUESTION /\ currentState m <> QUESTION)
     then S (questionNumber m) else questionNumber m).
Proof.
  unfold setState. destruct (decide (s <> currentState m)) as [Hne|He]; cbn.
  - repeat split; try reflexivity; intros; congruence.
  - assert (E : s = currentState m) by (destruct (decide (s = currentState m)); tauto).
    repeat split; auto; try congruence.
    destruct (decide _) as [[-> H]|]; [congruence | reflexivity].
Qed.

(** [detectState] either keeps the manager as it is and returns its
    state, or commits one of eight states through [setState]. *)
Lemma detectState_cases snap m :
  detectState snap m = (currentState m, m) \/
  exists s, detectState snap m = setState s m /\
            s <> UNKNOWN /\ s <> COUNTDOWN.
Proof.
  unfold detectState.
  repeat match goal with
  | |- context [match ?x with _ => _ end] =>
      lazymatch x with
      | context [match _ with _ => _ end] => fail
      | _ => destruct x
      end
  | |- (?a = ?a) \/ _ => left; reflexivity
  | |- _ \/ (exists s, setState ?s0 _ = _ /\ _) =>
      right; exists s0; repeat split; discriminate
  end.
Qed.

End Detection.

(** X12: whatever the page shows, [detectState] returns the state the
    manager holds afterwards.  It never moves the manager to [UNKNOWN] or
    [COUNTDOWN]: when it returns one of them the manager is untouched.  A
    manager whose state did not change is unchanged altogether; one whose
    state changed remembers the state it left; and the question counter
    advances by one exactly when the manager enters [QUESTION] from
    another state. *)
Theorem detect_state_commits (snap : GameState.Snapshot) (m : GameState.Manager) :
  let r := GameState.detectState snap m in
  r.1 = GameState.currentState r.2 /\
  (r.1 = GameState.UNKNOWN \/ r.1 = GameState.COUNTDOWN -> r.2 = m) /\
  (GameState.currentState r.2 = GameState.currentState m -> r.2 = m) /\
  (GameState.currentState r.2 <> GameState.currentState m ->
   GameState.previousState r.2 = Some (GameState.currentState m)) /\
  GameState.questionNumber r.2 =
    (if decide (r.1 = GameState.QUESTION /\
                GameState.currentState m <> GameState.QUESTION)
     then S (GameState.questionNumber m) else GameState.questionNumber m).
Proof.
  cbv zeta.
  destruct (detectState_cases snap m) as [-> | (s & -> & Hu & Hc)].
  - cbn [fst snd]. repeat split; auto; try congruence.
    destruct (decide _) as [[? ?]|]; [congruence | reflexivity].
  - destruct (setState_facts s m) as (E1 & E2 & E3 & E4 & E5).
    rewrite E1, E2. repeat split; auto.
    intros [->| ->]; congruence.
Qed.

Section Timer.
Import GameState Spec.

Lemma span_digits_spec s :
  digits (span_digits s).1 /\ s = ((span_digits s).1 +:+ (span_digits s).2)%string.
Proof.
  induction s as [|a s [IH1 IH2]]; cbn [span_digits].
  - split; [constructor | reflexivity].
  - destruct (is_digit a) eqn:D.
    + destruct (span_digits s) as [ds tl]. cbn [fst snd] in *. split.
      * constructor; assumption.
      * change (String a s = String a (ds +:+ tl)). f_equal. exact IH2.
    + split; [constructor | reflexivity].
Qed.

Lemma digit_value a : is_digit a = true -> 0 <= Z.of_nat (nat_of_ascii a) - 48 <= 9.
Proof.
  unfold is_digit. cbv zeta. intros H. apply andb_true_iff in H as [H1 H2].
  apply Nat.leb_le in H1, H2. lia.
Qed.

Lemma parseInt_nonneg s : digits s -> 0 <= parseInt s.
Proof.
  unfold parseInt, digits.
  assert (G : forall l acc, Forall (fun a => is_digit a = true) l -> 0 <= acc ->
            0 <= fold_left (fun acc a => 10 * acc + (Z.of_nat (nat_of_ascii a) - 48)) l acc).
  { induction l as [|a l IH]; intros acc Hl Hacc; cbn [fold_left]; [exact Hacc|].
    inversion Hl; subst. apply IH; [assumption|].
    pose proof (digit_value a ltac:(assumption)). lia. }
  intros Hs. apply G; [exact Hs | lia].
Qed.

Lemma match_here_spec s mins secs :
  match_here s = Some (mins, secs) ->
  mins <> EmptyString /\ digits mins /\ digits secs /\ String.length secs = 2%nat /\
  0 <= parseInt secs <= 99 /\
  exists post, s = (mins +:+ ":" +:+ secs +:+ post)%string.
Proof.
  unfold match_here. destruct (span_digits_spec s) as [Hd Hs].
  destruct (span_digits s) as [ds tl]. cbn [fst snd] in Hd, Hs.
  destruct ds as [|d ds]; [discriminate|].
  destruct tl as [|c [|a [|b post]]]; try discriminate.
  - destruct (Ascii.eqb_spec c ":"%char) as [->|Hc].
    + discriminate.
    + destruct c as [[] [] [] [] [] [] [] []]; discriminate.
  - destruct (Ascii.eqb_spec c ":"%char) as [->|Hc].
    + discriminate.
    + destruct c as [[] [] [] [] [] [] [] []]; discriminate.
  - destruct (Ascii.eqb_spec c ":"%char) as [->|Hc].
    2: { destruct c as [[] [] [] [] [] [] [] []]; try discriminate. congruence. }
    destruct (is_digit a) eqn:Da; [|discriminate].
    destruct (is_digit b) eqn:Db; [|discriminate].
    cbn [andb]. intros [= <- <-].
    split; [discriminate|]. split; [exact Hd|].
    split; [repeat constructor; assumption|]. split; [reflexivity|].
    split.
    + pose proof (digit_value a Da). pose proof (digit_value b Db).
      unfold parseInt. cbn [list_ascii_of_string fold_left]. lia.
    + exists post. rewrite Hs. reflexivity.
Qed.

End Timer.

(** X13: when the timer expression [/(\d+):(\d{2})/] matches the page
    text, its first group is a non-empty run of digits, its second group
    is exactly two digits, the text contains the two groups around a
    colon, and the number of seconds computed from them is never
    negative; the seconds group alone can be as large as 99. *)
Theorem timer_match_groups (text mins secs : string)
    (Hmatch : GameState.timerMatch text = Some (mins, secs)) :
  mins <> EmptyString /\ Spec.digits mins /\ Spec.digits secs /\
  String.length secs = 2%nat /\
  0 <= GameState.parseInt secs <= 99 /\
  0 <= GameState.parseInt mins * 60 + GameState.parseInt secs /\
  exists pre post, text = (pre +:+ mins +:+ ":" +:+ secs +:+ post)%string.
Proof.
  induction text as [|c text IH]; cbn [GameState.timerMatch] in Hmatch.
  - destruct (GameState.match_here EmptyString) as [[m s]|] eqn:E; [|discriminate].
    cbn in E. discriminate.
  - destruct (GameState.match_here (String c text)) as [[m s]|] eqn:E.
    + injection Hmatch as -> ->.
      destruct (match_here_spec _ _ _ E) as (H1 & H2 & H3 & H4 & H5 & post & H6).
      pose proof (parseInt_nonneg mins H2).
      repeat split; try assumption; try lia.
      exists EmptyString, post. exact H6.
    + destruct (IH Hmatch) as (H1 & H2 & H3 & H4 & H5 & H6 & pre & post & H7).
      repeat split; try assumption; try lia.
      exists (String c pre), post.
      change (String c text = String c (pre +:+ mins +:+ ":" +:+ secs +:+ post)).
      f_equal. exact H7.
Qed.

Lemma timer_match_groups_witness :
  0 <= GameState.parseInt "1" * 60 + GameState.parseInt "75".
Proof.
  apply (timer_match_groups "time left 1:75 go" "1" "75"). reflexivity.
Defined.

(** X14: [detectState] moves a manager into [QUESTION] only on a page
    whose text could be read, that has no returning-player banner, no
    registration form and no end-of-game text, that shows at least one
    answer button, and whose timer matches and reads more than zero
    seconds. *)
Theorem question_needs_buttons_and_timer
    (snap : GameState.Snapshot) (m : GameState.Manager)
    (Hnew : GameState.currentState m <> GameState.QUESTION)
    (Hq : (GameState.detectState snap m).1 = GameState.QUESTION) :
  exists text letters grips mins secs,
    GameState.innerText snap = Some text /\
    GameState.answerButtons snap = Some (letters, grips) /\
    (0 < letters + grips)%nat /\
    GameState.timerMatch text = Some (mins, secs) /\
    0 < GameState.parseInt mins * 60 + GameState.parseInt secs /\
    GameState.registrationForm snap = Some false /\
    GameState.includes_any ["welcome back"; "continue playing"] text = false /\
    GameState.includes_any ["you finished"; "game over";
                            "thank you for playing"; "final results"] text = false.
Proof.
  unfold GameState.detectState in Hq.
  destruct (GameState.innerText snap) as [text|] eqn:Et; [|cbn in Hq; congruence].
  cbv zeta in Hq.
  destruct (GameState.includes_any ["welcome back"; "continue playing"] text) eqn:Ew.
  { rewrite (proj1 (setState_returns _ m)) in Hq. discriminate. }
  destruct (GameState.registrationForm snap) as [[|]|] eqn:Er;
    [rewrite (proj1 (setState_returns _ m)) in Hq; discriminate
    | | cbn in Hq; congruence].
  destruct (GameState.includes_any _ text) eqn:Ee in Hq.
  { rewrite (proj1 (setState_returns _ m)) in Hq. discriminate. }
  destruct ((0 <? _)%nat && (0 <? _)) eqn:Eq in Hq.
  - apply andb_true_iff in Eq as [Hb Ht].
    apply Nat.ltb_lt in Hb. apply Z.ltb_lt in Ht.
    destruct (GameState.answerButtons snap) as [[letters grips]|] eqn:Eb; [|lia].
    destruct (GameState.timerMatch text) as [[mins secs]|] eqn:Em; [|lia].
    exists text, letters, grips, mins, secs. repeat split; auto.
  - exfalso.
    repeat match type of Hq with
    | context [if ?c then _ else _] => destruct c
    end;
    first [ rewrite (proj1 (setState_returns _ m)) in Hq; discriminate
          | cbn in Hq; congruence ].
Qed.

Lemma question_needs_buttons_and_timer_witness :
  exists text letters grips mins secs,
    GameState.innerText Samples.question_page = Some text /\
    GameState.answerButtons Samples.question_page = Some (letters, grips) /\
    (0 < letters + grips)%nat /\
    GameState.timerMatch text = Some (mins, secs) /\
    0 < GameState.parseInt mins * 60 + GameState.parseInt secs /\
    GameState.registrationForm Samples.question_page = Some false /\
    GameState.includes_any ["welcome back"; "continue playing"] text = false /\
    GameState.includes_any ["you finished"; "game over";
                            "thank you for playing"; "final results"] text = false.
Proof.
  apply (question_needs_buttons_and_timer Samples.question_page GameState.newManager).
  - discriminate.
  - vm_compute. reflexivity.
Defined.

Section Waiting.
Import GameState Bot.

Lemma detect_ready w b m :
  stateManager b = Some m ->
  exists state m',
    detect w b =
      (Ret state, set_page (fun n => page w (S n)) w,
       set_resources (hasPage b) (pageActions b) (Some m') b) /\
    detectState (page w 0%nat) m = (state, m').
Proof.
  intros Hm. unfold detect. rewrite Hm.
  destruct (detectState (page w 0%nat) m) as [state m'].
  exists state, m'. split; reflexivity.
Qed.

Lemma waitForState_from_settles targets timeout startTime :
  forall polls w b,
    is_Some (stateManager b) ->
    timeout - (now w - startTime) <= 500 * Z.of_nat polls ->
    exists out w' b',
      waitForState_from targets timeout startTime polls w b = (out, w', b') /\
      is_Some (stateManager b') /\
      match out with
      | Ret state => state ∈ targets \/ state = GAME_ENDED
      | Throw e =>
          e = ("Timeout waiting for state: "
                 +:+ String.concat ", " (state_name <$> targets))%string /\
          timeout <= now w' - startTime
      | Unfinished => False
      end.
Proof.
  induction polls as [|polls IH]; intros w b [m Hm] Hfuel;
    cbn [waitForState_from]; destruct (now w - startTime <? timeout) eqn:T.
  - apply Z.ltb_lt in T. lia.
  - apply Z.ltb_ge in T. eexists _, _, _. split; [reflexivity|].
    split; [eauto | split; [reflexivity | lia]].
  - apply Z.ltb_lt in T.
    destruct (detect_ready w b m Hm) as (state & m' & E & _).
    rewrite bind_unfold, E.
    destruct (bool_decide (state ∈ targets)) eqn:Ht.
    { apply bool_decide_eq_true in Ht. eexists _, _, _.
      split; [reflexivity|]. split; [cbn; eauto | left; exact Ht]. }
    destruct (decide (state = GAME_ENDED)) as [->|Hne].
    { eexists _, _, _. split; [reflexivity|]. split; [cbn; eauto | right; reflexivity]. }
    unfold_m. apply IH; [cbn; eauto | cbn; lia].
  - apply Z.ltb_ge in T. eexists _, _, _. split; [reflexivity|].
    split; [eauto | split; [reflexivity | lia]].
Qed.

End Waiting.

(** X15: on an agent that has a state manager, [waitForState] always
    comes to an end: it returns one of the target states or [GAME_ENDED],
    or it raises the timeout error once at least [timeout] milliseconds
    have passed on the clock.  The polling loop never needs more than
    [timeout / 500 + 1] turns. *)
Theorem wait_for_state_settles (targets : list GameState.GameStates) (timeout : Z)
    (w : Bot.World) (b : Bot.TriviaBot)
    (Hmanager : is_Some (Bot.stateManager b)) :
  exists out w' b',
    Bot.waitForState targets timeout w b = (out, w', b') /\
    match out with
    | Bot.Ret state => state ∈ targets \/ state = GameState.GAME_ENDED
    | Bot.Throw e =>
        e = ("Timeout waiting for state: "
               +:+ String.concat ", " (GameState.state_name <$> targets))%string /\
        timeout <= Bot.now w' - Bot.now w
    | Bot.Unfinished => False
    end.
Proof.
  unfold Bot.waitForState. destruct Hmanager as [m Hm]. rewrite Hm.
  destruct (waitForState_from_settles targets timeout (Bot.now w)
              (Z.to_nat (timeout / 500 + 1)) w b) as (out & w' & b' & E & _ & H).
  - eauto.
  - destruct (Z_lt_le_dec timeout 0) as [Hneg|Hpos].
    + lia.
    + assert (0 <= timeout / 500) by (apply Z.div_pos; lia).
      rewrite Z2Nat.id by lia.
      pose proof (Z.mul_succ_div_gt timeout 500 ltac:(lia)). lia.
  - exists out, w', b'. split; [exact E | exact H].
Qed.

Lemma wait_for_state_settles_witness :
  exists out w' b',
    Bot.waitForState [GameState.QUESTION] 1000
      (Samples.world [] []) Samples.ready_agent = (out, w', b') /\
    match out with
    | Bot.Ret state => state ∈ [GameState.QUESTION] \/ state = GameState.GAME_ENDED
    | Bot.Throw e =>
        e = ("Timeout waiting for state: "
               +:+ String.concat ", "
                     (GameState.state_name <$> [GameState.QUESTION]))%string /\
        1000 <= Bot.now w' - Bot.now (Samples.world [] [])
    | Bot.Unfinished => False
    end.
Proof.
  apply (wait_for_state_settles [GameState.QUESTION] 1000
           (Samples.world [] []) Samples.ready_agent).
  eexists. reflexivity.
Defined.

Section Guarded.
Import GameState Bot.

Lemma try_catch_unfold {A} (c : M A) (h : string -> M A) w b :
  try_catch c h w b =
  match c w b with
  | (Throw e, w1, b1) => h e w1 b1
  | r => r
  end.
Proof. reflexivity. Qed.

Lemma waitForState_outcome targets timeout w b :
  exists out w' b',
    waitForState targets timeout w b = (out, w', b') /\ out <> Unfinished /\
    (is_Some (stateManager b) -> is_Some (stateManager b')).
Proof.
  destruct (stateManager b) as [m|] eqn:Hm.
  - destruct (waitForState_from_settles targets timeout (now w)
                (Z.to_nat (timeout / 500 + 1)) w b) as (out & w' & b' & E & Hs & H).
    + eauto.
    + destruct (Z_lt_le_dec timeout 0) as [Hneg|Hpos]; [lia|].
      assert (0 <= timeout / 500) by (apply Z.div_pos; lia).
      rewrite Z2Nat.id by lia.
      pose proof (Z.mul_succ_div_gt timeout 500 ltac:(lia)). lia.
    + exists out, w', b'. unfold waitForState. rewrite Hm.
      split; [exact E|]. split; [|intros _; exact Hs].
      intros ->. exact H.
  - exists (Throw TypeError_null), w, b. unfold waitForState. rewrite Hm.
    split; [reflexivity|]. split; [discriminate|]. intros [? ?]. discriminate.
Qed.

(** X16: [waitForGameStart] never raises and never waits for ever:
    whatever the agent and the page, it returns [true] or [false]. *)
Theorem wait_for_game_start_returns (timeout : Z) (w : Bot.World) (b : Bot.TriviaBot) :
  exists started w' b',
    Bot.waitForGameStart timeout w b = (Bot.Ret started, w', b').
Proof.
  unfold Bot.waitForGameStart. rewrite try_catch_unfold, bind_unfold.
  destruct (waitForState_outcome
              [GameState.COUNTDOWN; GameState.QUESTION; GameState.ANSWER_REVEAL;
               GameState.BETWEEN_QUESTIONS; GameState.GAME_ENDED] timeout w b)
    as (out & w1 & b1 & -> & Hout & Hs1).
  destruct out as [state|e|]; [| eexists _, _, _; reflexivity | congruence].
  destruct (decide (state = GameState.GAME_ENDED)) as [->|Hne].
  { eexists _, _, _. reflexivity. }
  rewrite bind_unfold.
  assert (Hmid : exists w2 b2,
    (if decide (state = GameState.COUNTDOWN)
     then Bot.try_catch
            (_ ← Bot.waitForState [GameState.QUESTION; GameState.GAME_ENDED] 180000;
             mret tt)
            (fun _ => mret tt)
     else mret tt) w1 b1 = (Bot.Ret tt, w2, b2)).
  { destruct (decide (state = GameState.COUNTDOWN)); [|eexists _, _; reflexivity].
    rewrite try_catch_unfold, bind_unfold.
    destruct (waitForState_outcome [GameState.QUESTION; GameState.GAME_ENDED]
                180000 w1 b1) as (out & w2 & b2 & -> & Hout2 & _).
    destruct out as [s|e2|]; [| |congruence]; eexists _, _; reflexivity. }
  destruct Hmid as (w2 & b2 & ->).
  rewrite bind_unfold. unfold Bot.detect.
  destruct (Bot.stateManager b2) as [m|]; [|eexists _, _, _; reflexivity].
  destruct (GameState.detectState (Bot.page w2 0%nat) m) as [s m'].
  destruct (decide (s = GameState.GAME_ENDED)); eexists _, _, _; reflexivity.
Qed.

End Guarded.

Section Backoff.
Import Bot.

Lemma viaPageActions_raises w b e :
  pageActions b = true -> driver w 0%nat = Raises e ->
  viaPageActions w b = (Throw e, set_driver (fun n => driver w (S n)) w, b).
Proof.
  intros Hpa Hd. unfold viaPageActions. rewrite bind_unfold.
  unfold getBot. rewrite Hpa. unfold call. rewrite Hd. reflexivity.
Qed.

(** X17: when an operation on the page fails three times in a row and
    the first two errors are not session losses, [withRetry] sleeps
    1000 ms after the first failure and 2000 ms after the second, makes
    exactly three attempts, raises the error of the last one, and leaves
    the agent (its recovery counter included) as it was. *)
Theorem retry_backs_off_linearly (w : World) (b : TriviaBot) (e1 e2 e3 : string)
    (Hactions : pageActions b = true)
    (H1 : driver w 0%nat = Raises e1) (H2 : driver w 1%nat = Raises e2)
    (H3 : driver w 2%nat = Raises e3)
    (N1 : needsRecovery e1 = false) (N2 : needsRecovery e2 = false) :
  exists w',
    withRetry viaPageActions w b = (Throw e3, w', b) /\
    now w' = now w + 3000 /\
    (forall n, driver w' n = driver w (3 + n)%nat) /\
    random w' = random w /\ engine w' = engine w.
Proof.
  unfold withRetry. cbn [withRetry_from].
  rewrite (viaPageActions_raises w b e1 Hactions H1), N1.
  unfold sleep, modifyWorld.
  rewrite (viaPageActions_raises _ b e2 Hactions) by exact H2.
  rewrite N2.
  rewrite (viaPageActions_raises _ b e3 Hactions) by exact H3.
  eexists. split; [reflexivity|]. cbn. repeat split; lia.
Qed.

Lemma retry_backs_off_linearly_witness :
  exists w',
    withRetry viaPageActions
      (Samples.world [] [Raises "timeout"; Raises "timeout"; Raises "no such element"])
      Samples.ready_agent
    = (Throw "no such element", w', Samples.ready_agent) /\
    now w' = 3000.
Proof.
  destruct (retry_backs_off_linearly
              (Samples.world [] [Raises "timeout"; Raises "timeout";
                                 Raises "no such element"])
              Samples.ready_agent "timeout" "timeout" "no such element")
    as (w' & E & Hnow & _); try reflexivity.
  exists w'. split; [exact E | exact Hnow].
Defined.

End Backoff.

Section Scoreboard.
Import GameState Bot Spec.

Lemma advances_refl b : advances b b.
Proof. unfold advances. repeat split; lia. Qed.

Lemma advances_trans b1 b2 b3 : advances b1 b2 -> advances b2 b3 -> advances b1 b3.
Proof.
  unfold advances. intros (A1 & A2 & A3 & A4 & A5 & A6 & A7) (B1 & B2 & B3 & B4 & B5 & B6 & B7).
  repeat split; try lia; congruence.
Qed.

Ltac same_bot := intros w b out w' b' [= <- <- <-]; apply advances_refl.

Lemma keeps_ret {A} (a : A) : keeps (mret a).
Proof. same_bot. Qed.

Lemma keeps_throw {A} e : keeps (@throw A e).
Proof. same_bot. Qed.

Lemma keeps_getBot : keeps getBot.
Proof. same_bot. Qed.

Lemma keeps_modifyWorld f : keeps (modifyWorld f).
Proof. same_bot. Qed.

Lemma keeps_sleep ms : keeps (sleep ms).
Proof. apply keeps_modifyWorld. Qed.

Lemma keeps_modifyBot f : (forall b, advances b (f b)) -> keeps (modifyBot f).
Proof. intros Hf w b out w' b' [= <- <- <-]. apply Hf. Qed.

Lemma keeps_bind {A B} (c : M A) (f : A -> M B) :
  keeps c -> (forall a, keeps (f a)) -> keeps (c ≫= f).
Proof.
  intros Hc Hf w b out w' b'. rewrite bind_unfold.
  destruct (c w b) as [[o w1] b1] eqn:E. specialize (Hc _ _ _ _ _ E).
  destruct o as [a|e|].
  - intros H. apply Hf in H. eapply advances_trans; eassumption.
  - intros [= <- <- <-]. exact Hc.
  - intros [= <- <- <-]. exact Hc.
Qed.

Lemma keeps_try_catch {A} (c : M A) h :
  keeps c -> (forall e, keeps (h e)) -> keeps (try_catch c h).
Proof.
  intros Hc Hh w b out w' b'. rewrite try_catch_unfold.
  destruct (c w b) as [[o w1] b1] eqn:E. specialize (Hc _ _ _ _ _ E).
  destruct o as [a|e|].
  - intros [= <- <- <-]. exact Hc.
  - intros H. apply Hh in H. eapply advances_trans; eassumption.
  - intros [= <- <- <-]. exact Hc.
Qed.

Lemma keeps_try_finally {A} (c : M A) f :
  keeps c -> keeps f -> keeps (try_finally c f).
Proof.
  intros Hc Hf w b out w' b'. unfold try_finally.
  destruct (c w b) as [[o w1] b1] eqn:E. specialize (Hc _ _ _ _ _ E).
  destruct o as [a|e|]; try (intros [= <- <- <-]; exact Hc);
    destruct (f w1 b1) as [[o2 w2] b2] eqn:E2; specialize (Hf _ _ _ _ _ E2);
    destruct o2; intros [= <- <- <-]; eapply advances_trans; eassumption.
Qed.

Lemma keeps_withRandom {A} (f : Js.rng -> A * Js.rng) : keeps (withRandom f).
Proof.
  intros w b out w' b'. unfold withRandom.
  destruct (f (random w)). intros [= <- <- <-]. apply advances_refl.
Qed.

Lemma keeps_call : keeps call.
Proof.
  intros w b out w' b'. unfold call.
  destruct (driver w 0%nat); intros [= <- <- <-]; apply advances_refl.
Qed.

Lemma keeps_viaPageActions : keeps viaPageActions.
Proof.
  apply keeps_bind; [apply keeps_getBot|].
  intros b. destruct (pageActions b); [apply keeps_call | apply keeps_throw].
Qed.

Lemma advances_resources pg pa sm b : advances b (set_resources pg pa sm b).
Proof. unfold advances. cbn. repeat split; lia. Qed.

Lemma advances_isRunning r b : advances b (set_isRunning r b).
Proof. unfold advances. cbn. repeat split; lia. Qed.

Lemma advances_retryCount n b : advances b (set_retryCount n b).
Proof. unfold advances. cbn. repeat split; lia. Qed.

Lemma keeps_detect : keeps detect.
Proof.
  intros w b out w' b'. unfold detect.
  destruct (stateManager b) as [m|].
  - destruct (detectState (page w 0%nat) m). intros [= <- <- <-].
    apply advances_resources.
  - intros [= <- <- <-]. apply advances_refl.
Qed.

Lemma keeps_initialize : keeps initialize.
Proof.
  unfold initialize.
  apply keeps_bind; [apply keeps_call|]. intros _.
  apply keeps_bind; [apply keeps_modifyBot, advances_resources|]. intros _.
  apply keeps_bind; [apply keeps_getBot|]. intros b.
  apply keeps_modifyWorld.
Qed.

Lemma keeps_cleanupSilent : keeps cleanupSilent.
Proof. apply keeps_modifyBot, advances_resources. Qed.

Lemma keeps_cleanup : keeps cleanup.
Proof. apply keeps_modifyBot. intros b. apply advances_resources. Qed.

Lemma keeps_randomSleep min max : keeps (randomSleep min max).
Proof.
  apply keeps_bind; [apply keeps_withRandom|]. intros d.
  apply keeps_bind; [apply keeps_sleep|]. intros _. apply keeps_ret.
Qed.

Create HintDb keeps.

#[local] Hint Resolve keeps_ret keeps_throw keeps_getBot keeps_modifyWorld keeps_sleep
  keeps_withRandom keeps_call keeps_viaPageActions keeps_detect keeps_initialize
  keeps_cleanupSilent keeps_cleanup keeps_randomSleep
  advances_resources advances_isRunning advances_retryCount advances_refl : keeps.

Ltac keeps_step :=
  first
    [ solve [auto with keeps]
    | apply keeps_bind; [|intros ?]
    | apply keeps_try_catch; [|intros ?]
    | apply keeps_try_finally
    | apply keeps_modifyBot; intros ?
    | match goal with
      | |- keeps (if ?c then _ else _) => destruct c
      | |- keeps (match ?c with _ => _ end) => destruct c
      end ].

Lemma keeps_attemptRecovery : keeps attemptRecovery.
Proof. unfold attemptRecovery. repeat keeps_step. Qed.

Lemma keeps_withRetry_from {A} (operation : M A) :
  keeps operation -> forall more attempt, keeps (withRetry_from operation attempt more).
Proof.
  intros Hop. induction more as [|more IH]; intros attempt w b out w' b';
    cbn [withRetry_from];
    destruct (operation w b) as [[o w1] b1] eqn:E; specialize (Hop _ _ _ _ _ E);
    destruct o as [a|e|]; try (intros [= <- <- <-]; exact Hop).
  destruct (needsRecovery e).
  - destruct (attemptRecovery w1 b1) as [[o2 w2] b2] eqn:E2.
    apply keeps_attemptRecovery in E2.
    destruct o2 as [[|]|e2|];
      try (intros [= <- <- <-]; eapply advances_trans; eassumption).
    intros H. apply IH in H.
    eapply advances_trans; [exact Hop|]. eapply advances_trans; eassumption.
  - cbn. intros H. apply IH in H. eapply advances_trans; eassumption.
Qed.

Lemma keeps_withRetry {A} (operation : M A) : keeps operation -> keeps (withRetry operation).
Proof. intros H. apply keeps_withRetry_from, H. Qed.

Lemma keeps_joinGame url : keeps (joinGame url).
Proof.
  unfold joinGame.
  repeat first [ apply keeps_withRetry | keeps_step ].
Qed.

Lemma keeps_waitForState_from targets timeout startTime :
  forall polls, keeps (waitForState_from targets timeout startTime polls).
Proof.
  induction polls as [|polls IH]; intros w b out w' b'; cbn [waitForState_from];
    destruct (now w - startTime <? timeout);
    try (intros [= <- <- <-]; apply advances_refl).
  revert w b out w' b'.
  change (keeps
    (currentState ← detect;
     if bool_decide (currentState ∈ targets) then mret currentState
     else if decide (currentState = GAME_ENDED) then mret currentState
     else sleep 500;; waitForState_from targets timeout startTime polls)).
  repeat keeps_step.
Qed.

Lemma keeps_waitForState targets timeout : keeps (waitForState targets timeout).
Proof.
  intros w b out w' b'. unfold waitForState.
  destruct (stateManager b).
  - apply keeps_waitForState_from.
  - intros [= <- <- <-]. apply advances_refl.
Qed.

Lemma keeps_waitForGameStart timeout : keeps (waitForGameStart timeout).
Proof.
  unfold waitForGameStart.
  repeat first [ apply keeps_waitForState | keeps_step ].
Qed.

Lemma keeps_waitAndLogRanking : keeps waitAndLogRanking.
Proof. unfold waitAndLogRanking. repeat keeps_step. Qed.

(** [handleQuestion] is straight-line code: every path through it is
    followed to its end. *)
Lemma keeps_handleQuestion : keeps handleQuestion.
Proof.
  intros w b out w' b' E. unfold handleQuestion, waitAndLogRanking in E.
  cbv beta iota zeta delta
    [mbind mret Bot.M_bind Bot.M_ret Bot.getBot Bot.modifyBot Bot.modifyWorld
     Bot.throw Bot.sleep Bot.call Bot.viaPageActions] in E.
  cbn [pageActions set_questionNumber set_gameResults driver set_driver set_now] in E.
  repeat match type of E with
  | context [match ?x with _ => _ end] =>
      lazymatch x with
      | context [match _ with _ => _ end] => fail
      | _ => destruct x eqn:?
      end
  end;
  injection E as <- <- <-; unfold advances; cbn; repeat split; lia.
Qed.

#[local] Hint Resolve keeps_handleQuestion keeps_waitAndLogRanking : keeps.

Lemma advances_score score b :
  advances b
    (set_gameResults
       {| questionsAnswered := questionsAnswered (gameResults b);
          correctAnswers := correctAnswers (gameResults b);
          finalScore := score; finalRank := finalRank (gameResults b) |} b).
Proof. unfold advances. cbn. repeat split; lia. Qed.

Lemma keeps_gameLoop : forall fuel errorCount, keeps (gameLoop fuel errorCount).
Proof.
  induction fuel as [|fuel IH]; intros errorCount w b out w' b'; cbn [gameLoop];
    destruct (negb (isRunning b));
    try (intros [= <- <- <-]; apply advances_refl).
  revert w b out w' b'. apply keeps_bind; [apply keeps_detect|]. intros state.
  destruct state; repeat keeps_step; try apply IH;
    first [apply advances_score | apply advances_isRunning].
Qed.

Lemma keeps_playGame fuel : keeps (playGame fuel).
Proof.
  unfold playGame. repeat first [ apply keeps_gameLoop | keeps_step ].
Qed.

Lemma keeps_run url fuel : keeps (run url fuel).
Proof.
  unfold run.
  repeat first [ apply keeps_joinGame | apply keeps_waitForGameStart
               | apply keeps_playGame | keeps_step ].
  intros w b out w' b' [= <- <- <-]. apply advances_refl.
Qed.

(** X18: an agent built by the constructor and run once ends, whatever
    the browser and the page do, with no more correct answers than
    counted answers and no more counted answers than questions handled,
    and with the profile and the options it was built with. *)
Theorem run_scoreboard_consistent (profile : Timing.Profile) (options : BotOptions)
    (url : option string) (fuel : nat) (w : World) :
  let b' := (run url fuel w (newTriviaBot profile options)).2 in
  (correctAnswers (gameResults b') <= questionsAnswered (gameResults b'))%nat /\
  (questionsAnswered (gameResults b') <= Bot.questionNumber b')%nat /\
  Bot.profile b' = profile /\ Bot.options b' = options.
Proof.
  cbv zeta.
  destruct (run url fuel w (newTriviaBot profile options)) as [[out w'] b'] eqn:E.
  apply keeps_run in E. destruct E as (H1 & H2 & H3 & H4 & H5 & H6 & H7).
  cbn in *. repeat split; try lia; assumption.
Qed.

End Scoreboard.

Section PoolBook.
Import Bot Pool Spec.

Lemma map_has_keys {V} k (m : list (string * V)) :
  map_has k m = true <-> k ∈ map_keys m.
Proof. unfold map_has, map_keys. apply bool_decide_eq_true. Qed.

Lemma map_keys_set {V} k (v : V) m :
  map_keys (map_set k v m) =
  if map_has k m then map_keys m else map_keys m ++ [k].
Proof.
  unfold map_has, map_keys. induction m as [|[k' v'] m IH]; cbn.
  - reflexivity.
  - destruct (decide (k' = k)) as [->|Hne]; cbn.
    + rewrite bool_decide_eq_true_2 by (apply elem_of_cons; now left). reflexivity.
    + rewrite IH. destruct (bool_decide (k ∈ m.*1)) eqn:E.
      * apply bool_decide_eq_true in E.
        rewrite bool_decide_eq_true_2 by (apply elem_of_cons; now right). reflexivity.
      * apply bool_decide_eq_false in E.
        rewrite bool_decide_eq_false_2; [reflexivity|].
        intros H. apply elem_of_cons in H as [H|H]; [congruence | tauto].
Qed.

Lemma map_keys_set_known {V} k (v : V) m :
  k ∈ map_keys m -> map_keys (map_set k v m) = map_keys m.
Proof.
  intros H. rewrite map_keys_set. apply map_has_keys in H. now rewrite H.
Qed.

Lemma map_get_known {V} k (m : list (string * V)) v :
  map_get k m = Some v -> k ∈ map_keys m.
Proof.
  unfold map_keys. induction m as [|[k' v'] m IH]; cbn; [discriminate|].
  destruct (decide (k' = k)) as [->|Hne].
  - intros _. apply elem_of_cons. now left.
  - intros H. apply elem_of_cons. right. apply IH, H.
Qed.

Lemma map_keys_delete {V} k (m : list (string * V)) :
  map_keys (map_delete k m) = filter (fun x => x <> k) (map_keys m).
Proof.
  unfold map_keys, map_delete. induction m as [|[k' v'] m IH]; [reflexivity|].
  rewrite filter_cons. cbn [fst fmap list_fmap].
  change (list_fmap _ _ fst m) with (m.*1).
  rewrite (filter_cons _ k' (m.*1)). cbn [fst].
  destruct (decide (k' <> k)); cbn; rewrite IH; reflexivity.
Qed.

Ltac pool_simpl :=
  cbn [bots activeBots results Pool.isRunning set_bots set_activeBots set_results
       Pool.set_isRunning newPlayerPool startBot_end stopAll clear snd].

Lemma pool_ok_new config maxC hl : pool_ok (newPlayerPool config maxC hl).
Proof.
  split; pool_simpl.
  - constructor.
  - intros x H. apply elem_of_empty in H. contradiction.
Qed.

Lemma pool_ok_addPlayer config profile p : pool_ok p -> pool_ok (addPlayer config profile p).
Proof.
  intros [Hnd Hact]. unfold addPlayer.
  destruct (map_has (Timing.id profile) (bots p)) eqn:E; [split; assumption|].
  split; pool_simpl; rewrite map_keys_set, E.
  - apply NoDup_app. split; [exact Hnd|]. split; [|apply NoDup_singleton].
    intros x Hx Hin. apply list_elem_of_singleton in Hin. subst x.
    apply map_has_keys in Hx. congruence.
  - intros x Hx. apply elem_of_app. left. apply Hact, Hx.
Qed.

Lemma pool_ok_addPlayers config profiles : forall p,
  pool_ok p -> pool_ok (addPlayers config profiles p).
Proof.
  unfold addPlayers. induction profiles as [|profile profiles IH]; intros p H; cbn.
  - exact H.
  - apply IH, pool_ok_addPlayer, H.
Qed.

Lemma pool_ok_removePlayer playerId p : pool_ok p -> pool_ok (removePlayer playerId p).
Proof.
  intros [Hnd Hact]. unfold removePlayer.
  destruct (map_get playerId (bots p)); [|split; assumption].
  split; pool_simpl; rewrite map_keys_delete.
  - apply NoDup_filter, Hnd.
  - intros x Hx. apply elem_of_difference in Hx as [Hx Hne].
    apply list_elem_of_filter. split; [|apply Hact, Hx].
    intros ->. apply Hne, elem_of_singleton. reflexivity.
Qed.

Lemma pool_ok_begin playerId p : pool_ok p -> pool_ok (startBot_begin playerId p).2.
Proof.
  intros [Hnd Hact]. unfold startBot_begin.
  destruct (map_get playerId (bots p)) as [bot|] eqn:E; [|split; assumption].
  destruct (bool_decide _); [split; assumption|].
  split; pool_simpl; [exact Hnd|].
  intros x Hx. apply elem_of_union in Hx as [Hx|Hx]; [|apply Hact, Hx].
  apply elem_of_singleton in Hx. subst x. eapply map_get_known, E.
Qed.

Lemma pool_ok_end playerId ran p : pool_ok p -> pool_ok (startBot_end playerId ran p).2.
Proof.
  intros [Hnd Hact]. split; pool_simpl; [exact Hnd|].
  intros x Hx. apply elem_of_difference in Hx as [Hx _]. apply Hact, Hx.
Qed.

Lemma pool_ok_set_bot playerId bot p :
  playerId ∈ map_keys (bots p) ->
  pool_ok p -> pool_ok (set_bots (map_set playerId bot (bots p)) p).
Proof.
  intros Hin [Hnd Hact]. split; pool_simpl; rewrite map_keys_set_known by exact Hin; assumption.
Qed.

Lemma pool_ok_startBot playerId url fuel w p :
  pool_ok p -> pool_ok (startBot playerId url fuel w p).2.
Proof.
  intros H. unfold startBot.
  destruct (map_get playerId (bots p)) as [bot|] eqn:E; [|exact H].
  pose proof (pool_ok_begin playerId p H) as Hb.
  pose proof (startBot_begin_active playerId p) as (_ & _ & _ & Hbots & _).
  destruct (startBot_begin playerId p) as [[] p1]; cbn [snd] in Hb, Hbots; try exact Hb.
  assert (Hin : playerId ∈ map_keys (bots p1)).
  { rewrite Hbots. eapply map_get_known, E. }
  destruct (run url fuel w bot) as [[[v|e|] w1] bot1]; cbn [snd].
  - apply (pool_ok_end playerId (RanReturned v)), pool_ok_set_bot; assumption.
  - apply (pool_ok_end playerId (RanThrew e)), pool_ok_set_bot; assumption.
  - exact Hb.
Qed.

Lemma pool_ok_stopAll w p : pool_ok p -> pool_ok (stopAll w p).
Proof.
  intros [Hnd Hact]. split; pool_simpl.
  - unfold map_keys in *. rewrite <- list_fmap_compose.
    erewrite list_fmap_ext; [exact Hnd|]. now intros i [k v].
  - intros x H. apply elem_of_empty in H. contradiction.
Qed.

Lemma pool_ok_clear w p : pool_ok (clear w p).
Proof.
  split; pool_simpl.
  - constructor.
  - intros x H. apply elem_of_empty in H. contradiction.
Qed.

Lemma pool_ok_size p :
  pool_ok p -> (size (activeBots p) <= length (bots p))%nat.
Proof.
  intros [Hnd Hact].
  transitivity (size (list_to_set (C := gset string) (map_keys (bots p)))).
  - apply subseteq_size. intros x Hx. apply elem_of_list_to_set, Hact, Hx.
  - rewrite size_list_to_set by exact Hnd. unfold map_keys.
    rewrite length_fmap. reflexivity.
Qed.

End PoolBook.

(** X19: whatever sequence of calls writes a pool after its
    construction (adding and removing players, starting agents and
    letting their runs settle, stopping all, clearing), the bots keep
    distinct ids, every active id is the id of a bot in the pool, and
    [getStats] never reports more active players than players. *)
Theorem pool_stats_consistent (config : Pool.Config) (maxC : option nat)
    (hl : option bool) (ops : list Spec.PoolOp) :
  let p := foldl (Spec.apply_pool_op config) (Pool.newPlayerPool config maxC hl) ops in
  Spec.pool_ok p /\
  (Pool.stats_activePlayers (Pool.getStats p) <=
   Pool.stats_totalPlayers (Pool.getStats p))%nat.
Proof.
  cbv zeta.
  assert (H : Spec.pool_ok
    (foldl (Spec.apply_pool_op config) (Pool.newPlayerPool config maxC hl) ops)).
  { generalize (pool_ok_new config maxC hl).
    generalize (Pool.newPlayerPool config maxC hl) as p.
    induction ops as [|op ops IH]; intros p Hp; cbn [foldl]; [exact Hp|].
    apply IH. destruct op; cbn [Spec.apply_pool_op].
    - apply pool_ok_addPlayer, Hp.
    - apply pool_ok_addPlayers, Hp.
    - apply pool_ok_removePlayer, Hp.
    - apply pool_ok_startBot, Hp.
    - apply pool_ok_begin, Hp.
    - apply pool_ok_end, Hp.
    - apply pool_ok_stopAll, Hp.
    - apply pool_ok_clear. }
  split; [exact H|]. cbn. apply pool_ok_size, H.
Qed.

Section PoolRemoval.
Import Bot Pool Spec.

Lemma map_get_delete_eq {V} k (m : list (string * V)) :
  map_get k (map_delete k m) = None.
Proof.
  unfold map_delete. induction m as [|[k' v'] m IH]; [reflexivity|].
  rewrite filter_cons. cbn [fst].
  destruct (decide (k' <> k)) as [Hne|He]; [|exact IH].
  cbn [map_get]. rewrite decide_False by exact Hne. exact IH.
Qed.

Lemma map_get_delete_ne {V} k other (m : list (string * V)) :
  other <> k -> map_get other (map_delete k m) = map_get other m.
Proof.
  intros Hne. unfold map_delete. induction m as [|[k' v'] m IH]; [reflexivity|].
  rewrite filter_cons. cbn [fst].
  destruct (decide (k' <> k)) as [H|H]; cbn [map_get].
  - destruct (decide (k' = other)); [reflexivity | exact IH].
  - apply dec_stable in H. subst k'.
    rewrite decide_False by congruence. exact IH.
Qed.

Lemma length_delete {V} k (m : list (string * V)) :
  NoDup (map_keys m) -> k ∈ map_keys m ->
  S (length (map_delete k m)) = length m.
Proof.
  unfold map_keys, map_delete. induction m as [|[k' v'] m IH]; cbn [fmap list_fmap fst].
  - intros _ H. inversion H.
  - change (list_fmap _ _ fst m) with (m.*1).
    intros Hnd Hin. apply NoDup_cons in Hnd as [Hk' Hnd].
    rewrite filter_cons. cbn [fst length].
    destruct (decide (k' <> k)) as [Hne|He].
    + cbn [length]. f_equal. apply IH; [exact Hnd|].
      apply elem_of_cons in Hin as [Hin|Hin]; [congruence | exact Hin].
    + apply dec_stable in He. subst k'. f_equal.
      clear IH Hnd Hin. induction m as [|[k2 v2] m IH]; [reflexivity|].
      rewrite filter_cons. cbn [fst].
      apply not_elem_of_cons in Hk' as [Hne Hk'].
      cbn [fst] in Hne. rewrite decide_True by congruence.
      cbn [length]. f_equal. apply IH, Hk'.
Qed.

(** X20: [removePlayer] on a player of the pool drops that bot and its
    active mark and nothing else: every other bot and active mark stays,
    and so does the result table, the removed player's entry included, so
    that [getResults] counts one player fewer in total but the same
    completed and failed players as before. *)
Theorem remove_player_forgets_one_bot (playerId : string) (p : PlayerPool)
    (Hok : pool_ok p) (Hbot : is_Some (map_get playerId (bots p))) :
  let p' := removePlayer playerId p in
  map_get playerId (bots p') = None /\
  (playerId ∉ activeBots p') /\
  (forall other, other <> playerId ->
     map_get other (bots p') = map_get other (bots p) /\
     (other ∈ activeBots p' <-> other ∈ activeBots p)) /\
  results p' = results p /\
  S (totalPlayers (getResults p')) = totalPlayers (getResults p) /\
  completed (getResults p') = completed (getResults p) /\
  failed (getResults p') = failed (getResults p).
Proof.
  destruct Hbot as [bot Hbot]. destruct Hok as [Hnd _].
  cbv zeta. unfold removePlayer. rewrite Hbot.
  unfold getResults.
  cbn [bots activeBots results set_bots set_activeBots].
  split; [apply map_get_delete_eq|].
  split. { intros H. apply elem_of_difference in H as [_ H].
           apply H, elem_of_singleton. reflexivity. }
  split. { intros other Hne. split; [apply map_get_delete_ne, Hne|].
           rewrite elem_of_difference, elem_of_singleton. tauto. }
  split; [reflexivity|].
  assert (Hlen := length_delete playerId (bots p) Hnd (map_get_known _ _ _ Hbot)).
  rewrite <- Hlen.
  generalize (length (map_delete playerId (bots p))) as n. intros n.
  assert (G : forall rs a a',
    completed a' = completed a -> failed a' = failed a ->
    S (totalPlayers a') = totalPlayers a ->
    S (totalPlayers (foldl tally a' rs)) = totalPlayers (foldl tally a rs) /\
    completed (foldl tally a' rs) = completed (foldl tally a rs) /\
    failed (foldl tally a' rs) = failed (foldl tally a rs)).
  { induction rs as [|[k r] rs IH]; intros a a' Hc Hf Ht; cbn [foldl]; [auto|].
    apply IH; unfold tally; destruct (counts_completed r); cbn; congruence. }
  apply (G (results p)); reflexivity.
Qed.

Lemma remove_player_forgets_one_bot_witness :
  map_get "alice" (bots (removePlayer "alice" (Samples.pool_of Samples.on_time))) = None.
Proof.
  apply (remove_player_forgets_one_bot "alice" (Samples.pool_of Samples.on_time)).
  - split.
    + apply (bool_decide_unpack _). vm_compute. exact I.
    + intros x H. apply elem_of_empty in H. contradiction.
  - eexists. reflexivity.
Defined.

Lemma map_get_fmap {V W} (f : V -> W) k (m : list (string * V)) :
  map_get k ((fun kv => (kv.1, f kv.2)) <$> m) = f <$> map_get k m.
Proof.
  induction m as [|[k' v'] m IH]; [reflexivity|].
  cbn [fmap list_fmap map_get fst snd].
  destruct (decide (k' = k)); [reflexivity | exact IH].
Qed.

(** X21: [stopAll] leaves the pool stopped with no active bot; the pool
    keeps the same players in the same order and the same results; every
    bot is stopped, has released its page, and keeps its profile and its
    game results.  [clear] then leaves a pool whose results and statistics
    are all zero. *)
Theorem stop_all_halts_every_bot (w : World) (p : PlayerPool) :
  let p' := stopAll w p in
  Pool.isRunning p' = false /\ activeBots p' = ∅ /\
  map_keys (bots p') = map_keys (bots p) /\ results p' = results p /\
  (forall playerId bot', map_get playerId (bots p') = Some bot' ->
     Bot.isRunning bot' = false /\ hasPage bot' = false /\
     exists bot, map_get playerId (bots p) = Some bot /\
                 profile bot' = profile bot /\ gameResults bot' = gameResults bot) /\
  getResults (clear w p) =
    {| totalPlayers := 0; completed := 0; failed := 0; players := [] |} /\
  getStats (clear w p) =
    {| stats_totalPlayers := 0; stats_activePlayers := 0;
       stats_maxConcurrent := maxConcurrent p; stats_isRunning := false |}.
Proof.
  cbv zeta. unfold clear, stopAll, getResults, getStats.
  cbn [bots activeBots results Pool.isRunning maxConcurrent set_bots set_activeBots
       set_results Pool.set_isRunning length foldl].
  split; [reflexivity|]. split; [reflexivity|].
  split. { unfold map_keys. rewrite <- list_fmap_compose.
           apply list_fmap_ext. now intros i [k v]. }
  split; [reflexivity|].
  split. { intros playerId bot'. rewrite map_get_fmap.
           destruct (map_get playerId (bots p)) as [bot|]; [|discriminate].
           intros [= <-]. split; [reflexivity|]. split; [reflexivity|].
           exists bot. split; [reflexivity|]. split; reflexivity. }
  split; [reflexivity|]. rewrite size_empty. reflexivity.
Qed.

End PoolRemoval.

Section Books.
Import Bot Pool Spec.

Lemma same_books_at_loc l s : same_books s (at_loc l s).
Proof. repeat split. Qed.

Lemma same_books_stagger_sleep i s :
  same_books s (stagger_sleep i s) /\
  exists d, loc (task (stagger_sleep i s)) = AtStagger i d.
Proof.
  unfold stagger_sleep. destruct (randomDelay _ _ _) as [d g].
  split; [repeat split | exists d; reflexivity].
Qed.

Lemma loop_head_next_books i s :
  same_books s (loop_head_next i s) /\
  (loc (task (loop_head_next i s)) = AtWhile i \/
   loc (task (loop_head_next i s)) = AtJoin \/
   exists d, loc (task (loop_head_next i s)) = AtStagger i d).
Proof.
  unfold loop_head_next. destruct (_ && _).
  - pose proof (suspend_or_break_cases i s) as C.
    destruct (suspend_or_break i s) as [s'|].
    + destruct C as [-> | ->]; split; auto using same_books_at_loc.
    + destruct (same_books_stagger_sleep i s) as [H [d Hd]]. split; eauto.
  - split; auto using same_books_at_loc.
Qed.

Lemma launch_books i s :
  results (pool (launch i s)) = results (pool s) /\
  Pool.isRunning (pool (launch i s)) = Pool.isRunning (pool s) /\
  loc (task (launch i s)) = loc (task s) /\
  playerIds (task (launch i s)) = playerIds (task s) /\
  ((launched (task (launch i s)) = launched (task s) /\
    pending (task (launch i s)) = pending (task s)) \/
   exists x, playerIds (task s) !! i = Some x /\
     launched (task (launch i s)) = launched (task s) ++ [x] /\
     pending (task (launch i s)) = {[x]} ∪ pending (task s)).
Proof.
  unfold launch. destruct (playerIds (task s) !! i) as [x|]; [|auto 10].
  unfold startBot_begin. destruct (map_get x (bots (pool s))); [|auto 10].
  destruct (bool_decide _); [auto 10|].
  cbn. repeat split. right. exists x. auto.
Qed.

End Books.

Section Settled.
Import Bot Pool Spec.

Lemma accounted_books s s' :
  same_books s s' -> (forall r, loc (task s') <> Returned r) ->
  accounted s -> accounted s'.
Proof.
  intros (Hp & Hl & Hpe & _) Hloc (A1 & A2 & A3). unfold accounted.
  rewrite Hp, Hl, Hpe. split; [exact A1|]. split; [exact A2|].
  intros r Hr. destruct (Hloc r Hr).
Qed.

Lemma accounted_loop_head_next i s : accounted s -> accounted (loop_head_next i s).
Proof.
  destruct (loop_head_next_books i s) as [Hb Hloc].
  apply accounted_books; [exact Hb|].
  intros r Hr. destruct Hloc as [H|[H|[d H]]]; congruence.
Qed.

Lemma accounted_launch i s :
  (forall r, loc (task s) <> Returned r) -> accounted s -> accounted (launch i s).
Proof.
  intros Hloc (A1 & A2 & A3).
  destruct (launch_books i s) as (Hr & _ & Hl & _ & [[Hla Hpe] | (x & _ & Hla & Hpe)]);
    unfold accounted; rewrite Hr, Hl, Hla, Hpe.
  - split; [exact A1|]. split; [exact A2|]. intros r H. destruct (Hloc r H).
  - split; [|split].
    + intros y Hy. apply elem_of_app. apply elem_of_union in Hy as [Hy|Hy].
      * right. apply elem_of_singleton in Hy. subst y. apply list_elem_of_singleton.
        reflexivity.
      * left. apply A1, Hy.
    + intros y Hy. apply elem_of_app in Hy as [Hy|Hy].
      * destruct (A2 y Hy) as [H|H]; [left; apply elem_of_union; right; exact H | right; exact H].
      * apply list_elem_of_singleton in Hy. subst y. left.
        apply elem_of_union. left. apply elem_of_singleton. reflexivity.
    + intros r H. destruct (Hloc r H).
Qed.

Lemma accounted_after_stagger i s :
  (forall r, loc (task s) <> Returned r) -> accounted s -> accounted (after_stagger i s).
Proof. intros Hloc H. apply accounted_loop_head_next, accounted_launch; assumption. Qed.

Lemma accounted_while_test i s :
  (forall r, loc (task s) <> Returned r) -> accounted s -> accounted (while_test i s).
Proof.
  intros Hloc H. unfold while_test. pose proof (suspend_or_break_cases i s) as C.
  destruct (suspend_or_break i s) as [s'|].
  - destruct C as [-> | ->];
      (eapply accounted_books; [apply same_books_at_loc | discriminate | exact H]).
  - destruct (0 <? i)%nat; [|apply accounted_after_stagger; assumption].
    destruct (same_books_stagger_sleep i s) as [Hb [d Hd]].
    eapply accounted_books; [exact Hb | congruence | exact H].
Qed.

Lemma accounted_step e s : accounted s -> accounted (step e s).
Proof.
  intros H. destruct e as [|x ran| |]; cbn [step].
  - unfold resume. destruct (loc (task s)) as [i|i d| |r] eqn:L.
    + apply accounted_while_test; [congruence | exact H].
    + apply accounted_after_stagger; [congruence | exact H].
    + destruct (bool_decide (pending (task s) = ∅)) eqn:E; [|exact H].
      apply bool_decide_eq_true in E. destruct H as (A1 & A2 & A3).
      split; [exact A1|]. split; [|intros r _; split; [exact E | reflexivity]].
      intros y Hy. destruct (A2 y Hy) as [Hp|Hr]; [|right; exact Hr].
      rewrite E in Hp. apply elem_of_empty in Hp. contradiction.
    + exact H.
  - unfold settle. destruct (bool_decide (x ∈ pending (task s))) eqn:E; [|exact H].
    apply bool_decide_eq_true in E. destruct H as (A1 & A2 & A3).
    split; [|split]; cbn [task pool pending launched loc startBot_end snd results
                          set_results set_activeBots Pool.isRunning].
    + intros y Hy. apply elem_of_difference in Hy as [Hy _]. apply A1, Hy.
    + intros y Hy. destruct (decide (y = x)) as [->|Hne].
      * right. rewrite map_get_set_eq. eauto.
      * destruct (A2 y Hy) as [Hp|Hr].
        -- left. apply elem_of_difference. split; [exact Hp|].
           intros Hx. apply elem_of_singleton in Hx. contradiction.
        -- right. rewrite map_get_set_ne by exact Hne. exact Hr.
    + intros r Hr. destruct (A3 r Hr) as [Hp _]. rewrite Hp in E.
      apply elem_of_empty in E. contradiction.
  - destruct H as (A1 & A2 & A3). split; [exact A1|]. split; [exact A2|].
    intros r Hr. destruct (A3 r Hr) as [Hp _]. split; [exact Hp | reflexivity].
  - destruct H as (A1 & A2 & A3). split; [exact A1|]. split; [exact A2|].
    intros r Hr. exact (A3 r Hr).
Qed.

Lemma accounted_startAll opts g p : accounted (startAll opts g p).
Proof.
  unfold startAll, loop_head.
  match goal with |- context [while_test 0 ?s0] => set (s := s0) end.
  assert (H : accounted s).
  { split; [|split].
    - intros x Hx. apply elem_of_empty in Hx. contradiction.
    - intros x Hx. inversion Hx.
    - intros r Hr. discriminate. }
  destruct (_ && _).
  - apply accounted_while_test; [discriminate | exact H].
  - eapply accounted_books; [apply same_books_at_loc | discriminate | exact H].
Qed.

(** X22: when [startAll] has returned, under any interleaving of task
    resumptions, agent completions and [stopAll] calls, no launched agent
    is still pending, the pool is no longer running, and every agent the
    call launched has an entry in the result table. *)
Theorem start_all_returns_after_every_launch_settled
    (opts : StartOptions) (g : Js.rng) (p : PlayerPool)
    (schedule : nat -> Event) (n : nat) (r : Results)
    (Hreturned : loc (task (state_at schedule n (startAll opts g p))) = Returned r) :
  let s := state_at schedule n (startAll opts g p) in
  pending (task s) = ∅ /\ Pool.isRunning (pool s) = false /\
  forall x, x ∈ launched (task s) -> is_Some (map_get x (results (pool s))).
Proof.
  cbv zeta.
  assert (H : forall k, accounted (state_at schedule k (startAll opts g p))).
  { induction k as [|k IH]; [apply accounted_startAll|].
    cbn [state_at]. apply accounted_step, IH. }
  destruct (H n) as (A1 & A2 & A3). destruct (A3 r Hreturned) as [Hp Hr].
  split; [exact Hp|]. split; [exact Hr|].
  intros x Hx. destruct (A2 x Hx) as [Hin|Hres]; [|exact Hres].
  rewrite Hp in Hin. apply elem_of_empty in Hin. contradiction.
Qed.

Lemma start_all_returns_after_every_launch_settled_witness :
  let s := state_at Samples.round_robin 5
             (startAll two_at_a_time Samples.half (Samples.pool_of Samples.on_time)) in
  pending (task s) = ∅ /\ Pool.isRunning (pool s) = false /\
  forall x, x ∈ launched (task s) -> is_Some (map_get x (results (pool s))).
Proof.
  apply (start_all_returns_after_every_launch_settled two_at_a_time Samples.half
           (Samples.pool_of Samples.on_time) Samples.round_robin 5
           (getResults
              (pool (state_at Samples.round_robin 5
                       (startAll two_at_a_time Samples.half
                          (Samples.pool_of Samples.on_time)))))).
  vm_compute. reflexivity.
Defined.

End Settled.

Section WindingDown.
Import Bot Pool Spec.

Lemma loop_head_next_stopped i s :
  Pool.isRunning (pool s) = false -> loop_head_next i s = at_loc AtJoin s.
Proof. intros H. unfold loop_head_next. rewrite H, andb_false_r. reflexivity. Qed.

Lemma while_test_stopped i s :
  Pool.isRunning (pool s) = false -> while_test i s = at_loc AtJoin s.
Proof.
  intros H. unfold while_test, suspend_or_break. rewrite H, andb_false_r. reflexivity.
Qed.

Lemma wound_down_step e s s' : wound_down s s' -> wound_down s (step e s').
Proof.
  intros (Hrun & Hids & Hcase). destruct e as [|x ran| |]; cbn [step].
  - unfold resume. destruct (loc (task s')) as [i|i d| |r] eqn:L;
      rewrite <- L in Hcase.
    + rewrite while_test_stopped by exact Hrun.
      split; [exact Hrun|]. split; [exact Hids|].
      destruct Hcase as [[Hla _] | (i0 & d0 & x0 & H1 & H2 & H3 & H4)].
      * left. split; [exact Hla | right; left; reflexivity].
      * right. exists i0, d0, x0. repeat split; try assumption. left. reflexivity.
    + destruct (launch_books i s') as (_ & Hr & _ & Hi & Hl).
      unfold after_stagger. rewrite loop_head_next_stopped by (rewrite Hr; exact Hrun).
      split; [cbn; rewrite Hr; exact Hrun|]. split; [cbn; rewrite Hi; exact Hids|].
      destruct Hcase as [[Hla [Hloc|[Hj|[r Hj]]]] | (i0 & d0 & x0 & H1 & H2 & H3 & [Hj|[r Hj]])];
        try congruence.
      destruct Hl as [[Hl _] | (x0 & Hx & Hl & _)].
      * left. split; [cbn; congruence | right; left; reflexivity].
      * right. exists i, d, x0. rewrite <- Hloc, <- Hids.
        repeat split; try assumption; [cbn; congruence | left; reflexivity].
    + destruct (bool_decide _).
      * split; [reflexivity|]. split; [exact Hids|].
        destruct Hcase as [[Hla _] | (i0 & d0 & x0 & H1 & H2 & H3 & H4)].
        -- left. split; [exact Hla | right; right; eexists; reflexivity].
        -- right. exists i0, d0, x0. repeat split; try assumption.
           right. eexists. reflexivity.
      * split; [exact Hrun|]. split; [exact Hids|]. exact Hcase.
    + split; [exact Hrun|]. split; [exact Hids|]. exact Hcase.
  - unfold settle. destruct (bool_decide _); [|repeat split; assumption].
    split; [exact Hrun|]. split; [exact Hids|]. exact Hcase.
  - split; [reflexivity|]. split; [exact Hids|]. exact Hcase.
  - split; [exact Hrun|]. split; [exact Hids|]. exact Hcase.
Qed.

(** X23: once the pool is stopped, [startAll] launches at most one more
    agent, under any later events: none when the task waits for a free
    slot or has left the loop, and exactly the agent it was about to
    launch when it sleeps through a stagger delay, because [isRunning] is
    not read again between that sleep and the launch. *)
Theorem stopped_pool_launches_at_most_one_more
    (s : System) (schedule : nat -> Event) (n : nat)
    (Hstopped : Pool.isRunning (pool s) = false) :
  let s' := state_at schedule n s in
  Pool.isRunning (pool s') = false /\
  (launched (task s') = launched (task s) \/
   exists i d x,
     loc (task s) = AtStagger i d /\ playerIds (task s) !! i = Some x /\
     launched (task s') = launched (task s) ++ [x]).
Proof.
  cbv zeta.
  assert (H : wound_down s (state_at schedule n s)).
  { induction n as [|n IH].
    - split; [exact Hstopped|]. split; [reflexivity|]. left. split; [reflexivity | now left].
    - cbn [state_at]. apply wound_down_step, IH. }
  destruct H as (Hrun & _ & [[Hl _] | (i & d & x & H1 & H2 & H3 & _)]).
  - split; [exact Hrun | left; exact Hl].
  - split; [exact Hrun | right; exists i, d, x; auto].
Qed.

Lemma stopped_pool_launches_at_most_one_more_witness :
  let s := step StopAll
             (startAll two_at_a_time Samples.half
                (three_agents Samples.site Samples.on_time Samples.bob Samples.carol)) in
  let s' := state_at Samples.round_robin 9 s in
  Pool.isRunning (pool s') = false /\
  (launched (task s') = launched (task s) \/
   exists i d x,
     loc (task s) = AtStagger i d /\ playerIds (task s) !! i = Some x /\
     launched (task s') = launched (task s) ++ [x]).
Proof.
  apply (stopped_pool_launches_at_most_one_more
           (step StopAll
              (startAll two_at_a_time Samples.half
                 (three_agents Samples.site Samples.on_time Samples.bob Samples.carol)))
           Samples.round_robin 9).
  reflexivity.
Defined.

End WindingDown.

Section SessionLife.
Import Bot Pool Spec.

Lemma keys_addPlayer config profile p x :
  x ∈ map_keys (bots (addPlayer config profile p)) <->
  x ∈ map_keys (bots p) \/ x = Timing.id profile.
Proof.
  unfold addPlayer. destruct (map_has (Timing.id profile) (bots p)) eqn:E.
  - apply map_has_keys in E. split; [auto|]. intros [H| ->]; assumption.
  - cbn [bots set_bots]. rewrite map_keys_set, E, elem_of_app, list_elem_of_singleton.
    reflexivity.
Qed.

Lemma keys_addPlayers config profiles : forall p x,
  x ∈ map_keys (bots (addPlayers config profiles p)) <->
  x ∈ map_keys (bots p) \/ x ∈ Timing.id <$> profiles.
Proof.
  unfold addPlayers. induction profiles as [|profile profiles IH]; intros p x; cbn [foldl].
  - split; [auto|]. intros [H|H]; [exact H | inversion H].
  - rewrite IH, keys_addPlayer, fmap_cons, elem_of_cons. tauto.
Qed.

Lemma keys_addPlayer_grow config profile p :
  exists extra, map_keys (bots (addPlayer config profile p)) = map_keys (bots p) ++ extra.
Proof.
  unfold addPlayer. destruct (map_has (Timing.id profile) (bots p)) eqn:E.
  - exists []. now rewrite app_nil_r.
  - cbn [bots set_bots]. rewrite map_keys_set, E. eauto.
Qed.

Lemma keys_addPlayers_grow config profiles : forall p,
  exists extra, map_keys (bots (addPlayers config profiles p)) = map_keys (bots p) ++ extra.
Proof.
  unfold addPlayers. induction profiles as [|profile profiles IH]; intros p; cbn [foldl].
  - exists []. now rewrite app_nil_r.
  - destruct (IH (addPlayer config profile p)) as [e1 ->].
    destruct (keys_addPlayer_grow config profile p) as [e2 ->].
    exists (e2 ++ e1). now rewrite app_assoc.
Qed.

(** X24: [initialize] succeeds only on an idle session; it then leaves
    the session initializing, with its URL and players unchanged and a
    pool that holds a bot for every player of the session under distinct
    ids; and a second [initialize] is refused. *)
Theorem session_initializes_once (config : Config) (s s' : Session.GameSession)
    (Hinit : Session.initialize config s = inr s') :
  Session.status s = Session.idle /\
  Session.status s' = Session.initializing /\
  Session.gameUrl s' = Session.gameUrl s /\
  Session.players s' = Session.players s /\
  (exists p, Session.pool s' = Some p /\ pool_ok p /\
     forall profile, profile ∈ Session.players s ->
       is_Some (map_get (Timing.id profile) (bots p))) /\
  Session.initialize config s' =
    inl "Cannot initialize session in initializing state".
Proof.
  unfold Session.initialize in Hinit.
  destruct (decide (Session.status s <> Session.idle)) as [Hne|He]; [discriminate|].
  apply dec_stable in He. injection Hinit as <-.
  cbn [Session.status Session.gameUrl Session.players Session.pool].
  split; [exact He|]. split; [reflexivity|]. split; [reflexivity|].
  split; [reflexivity|]. split; [|reflexivity].
  eexists. split; [reflexivity|]. split.
  - apply pool_ok_addPlayers, pool_ok_new.
  - intros profile Hin. apply map_get_keys, keys_addPlayers. right.
    apply list_elem_of_fmap. exists profile. auto.
Qed.

Lemma session_initializes_once_witness :
  Session.status Samples.empty_session = Session.idle.
Proof.
  eapply (session_initializes_once Samples.site Samples.empty_session).
  reflexivity.
Defined.

(** X25: a session that is not idle cannot be started again once
    [cleanup] has dropped its pool: [start] then goes through
    [initialize], which refuses with the session's status in the message,
    and the session is left as [cleanup] left it. *)
Theorem session_cannot_restart_after_cleanup (config : Config) (clock : Z)
    (g : Js.rng) (s : Session.GameSession)
    (Hstatus : Session.status s <> Session.idle) :
  Session.start config clock g (Session.cleanup s) =
    (Session.Raised
       ("Cannot initialize session in "
          +:+ Session.status_name (Session.status s) +:+ " state"),
     Session.cleanup s).
Proof.
  unfold Session.start, Session.initialize.
  cbn [Session.cleanup Session.pool Session.status].
  rewrite decide_True by exact Hstatus. reflexivity.
Qed.

Lemma session_cannot_restart_after_cleanup_witness :
  Session.start Samples.site 20 Samples.half
    (Session.cleanup (Session.start_returns 10 Samples.empty_session)) =
    (Session.Raised "Cannot initialize session in completed state",
     Session.cleanup (Session.start_returns 10 Samples.empty_session)).
Proof.
  apply (session_cannot_restart_after_cleanup Samples.site 20 Samples.half
           (Session.start_returns 10 Samples.empty_session)).
  discriminate.
Defined.

End SessionLife.

Section SessionLaunch.
Import Bot Pool Spec.

(** X26: [start] on a newly constructed session with at least one
    player, a game URL and a concurrency limit of at least one
    initialises the session, marks it running with the start time, and
    reaches its first wait with exactly the first player launched and
    active: the first agent is started without a stagger delay. *)
Theorem session_start_launches_first_player
    (config : Config) (args : Session.SessionArgs) (clock : Z) (g : Js.rng)
    (first : Timing.Profile) (rest : list Timing.Profile)
    (Hplayers : Session.arg_players args = Some (first :: rest))
    (Hurl : Js.truthy_str (Session.gameUrl (Session.newGameSession config args)) = true)
    (Hlimit : (1 <= Session.opt_maxConcurrent
                      (Session.options (Session.newGameSession config args)))%nat) :
  exists system s',
    Session.start config clock g (Session.newGameSession config args)
      = (Session.Started system, s') /\
    Session.status s' = Session.running /\
    Session.startTime s' = Some clock /\
    Session.pool s' = Some (pool system) /\
    launched (task system) = [Timing.id first] /\
    activeBots (pool system) = {[Timing.id first]} /\
    limit (task system) =
      Session.opt_maxConcurrent (Session.options (Session.newGameSession config args)).
Proof.
  set (s := Session.newGameSession config args) in *.
  assert (Hps : Session.players s = first :: rest).
  { unfold s, Session.newGameSession. cbn [Session.players]. now rewrite Hplayers. }
  unfold Session.start. change (Session.pool s) with (@None PlayerPool).
  unfold Session.initialize. change (Session.status s) with Session.idle.
  rewrite decide_False by (intros H; apply H; reflexivity).
  unfold Session.start_checked.
  cbn [Session.players Session.gameUrl Session.pool Session.options].
  rewrite Hps, Hurl. cbn [length bool_decide negb].
  rewrite bool_decide_eq_false_2 by discriminate.
  set (p := addPlayers config (first :: rest) _).
  set (opts := {| staggerDelay := _; optMaxConcurrent := _ |}).
  eexists _, _. split; [reflexivity|].
  cbn [Session.status Session.startTime Session.pool].
  split; [reflexivity|]. split; [reflexivity|]. split; [reflexivity|].
  (* the roster starts with the first player *)
  assert (Hkeys : exists more, map_keys (bots p) = Timing.id first :: more).
  { unfold p, addPlayers. cbn [foldl].
    destruct (keys_addPlayers_grow config rest
                (addPlayer config first
                   (newPlayerPool config
                      (Some (Session.opt_maxConcurrent (Session.options s)))
                      (Some (Session.opt_headless (Session.options s))))))
      as [extra E].
    unfold addPlayers in E. rewrite E. exists extra. reflexivity. }
  destruct Hkeys as [more Hkeys].
  assert (Hact : activeBots p = ∅).
  { assert (G : forall ps q, activeBots (addPlayers config ps q) = activeBots q).
    { unfold addPlayers. induction ps as [|x ps IH]; intros q; cbn [foldl]; [reflexivity|].
      rewrite IH. unfold addPlayer. now destruct (map_has _ _). }
    unfold p. rewrite G. reflexivity. }
  assert (Hbot : is_Some (map_get (Timing.id first) (bots p))).
  { apply map_get_keys. rewrite Hkeys. apply elem_of_cons. now left. }
  unfold startAll.
  match goal with |- context [loop_head 0 ?x] => set (s0 := x) end.
  assert (Hrun : Pool.isRunning (pool s0) = true) by reflexivity.
  assert (Hids : playerIds (task s0) = Timing.id first :: more) by exact Hkeys.
  assert (Hlim : limit (task s0) = Session.opt_maxConcurrent (Session.options s))
    by reflexivity.
  assert (Hact0 : activeBots (pool s0) = ∅) by exact Hact.
  assert (Hbot0 : is_Some (map_get (Timing.id first) (bots (pool s0)))) by exact Hbot.
  assert (Hla0 : launched (task s0) = []) by reflexivity.
  clearbody s0.
  unfold loop_head. rewrite Hids, Hrun. cbn [length Nat.ltb Nat.leb andb].
  unfold while_test. rewrite suspend_or_break_running by exact Hrun.
  rewrite Hact0, size_empty, Hlim.
  replace (Session.opt_maxConcurrent (Session.options s) <=? 0)%nat with false
    by (symmetry; apply Nat.leb_gt; lia).
  cbn [Nat.ltb Nat.leb].
  unfold after_stagger.
  destruct (loop_head_next_books 1 (launch 0 s0)) as [(Hp & Hl & _ & _) _].
  rewrite Hp, Hl, limit_loop_head_next.
  destruct (launch_facts 0 s0) as (_ & Hlimit' & _).
  rewrite Hlimit', Hlim.
  unfold launch. rewrite Hids. cbn [lookup list_lookup].
  unfold startBot_begin. destruct Hbot0 as [bot Hbot0]. rewrite Hbot0, Hact0.
  rewrite bool_decide_eq_false_2 by apply not_elem_of_empty.
  cbn [task pool launched activeBots set_activeBots]. rewrite Hla0.
  split; [reflexivity|]. split; [apply union_empty_r_L | reflexivity].
Qed.

Lemma session_start_launches_first_player_witness :
  let args := {| Session.arg_gameUrl := None;
                 Session.arg_players := Some [Samples.on_time; Samples.bob];
                 Session.arg_maxConcurrent := Some 2%nat;
                 Session.arg_headless := None;
                 Session.arg_staggerDelay := None |} in
  exists system s',
    Session.start Samples.site 0 Samples.half (Session.newGameSession Samples.site args)
      = (Session.Started system, s') /\
    Session.status s' = Session.running /\
    Session.startTime s' = Some 0 /\
    Session.pool s' = Some (pool system) /\
    launched (task system) = [Timing.id Samples.on_time] /\
    activeBots (pool system) = {[Timing.id Samples.on_time]} /\
    limit (task system) =
      Session.opt_maxConcurrent
        (Session.options (Session.newGameSession Samples.site args)).
Proof.
  cbv zeta.
  apply (session_start_launches_first_player Samples.site _ 0 Samples.half
           Samples.on_time [Samples.bob]).
  - reflexivity.
  - reflexivity.
  - cbn. lia.
Defined.

End SessionLaunch.

Section Release.
Import Bot.

(** X27: [run] releases the browser on every path: whether it returns
    results, returns nothing or raises, the agent has no page afterwards. *)
Theorem run_releases_browser (url : option string) (fuel : nat)
    (w : World) (b : TriviaBot) :
  let r := run url fuel w b in
  r.1.1 = Unfinished \/ hasPage r.2 = false.
Proof.
  cbv zeta. unfold run, try_finally.
  match goal with |- context [try_catch ?c ?h w b] =>
    destruct (try_catch c h w b) as [[[v|e|] w1] b1]
  end; cbn; auto.
Qed.

End Release.

Section Validation.
Import Js Timing Schema.

Lemma calculateAnswerDelay_clamped profile questionDifficulty g :
  (rt_min (reactionTime profile) <= rt_max (reactionTime profile))%Q ->
  (rt_min (reactionTime profile)
     <= (calculateAnswerDelay profile questionDifficulty g).1)%Q /\
  ((calculateAnswerDelay profile questionDifficulty g).1
     <= rt_max (reactionTime profile))%Q.
Proof.
  intros Henvelope. unfold calculateAnswerDelay, randomDelay, Math_random.
  repeat match goal with |- context [if ?c then _ else _] => destruct c end;
    cbv beta iota zeta delta [fst]; split;
    solve [ apply Math_max_lower
          | apply Math_max_upper; [exact Henvelope | apply Math_min_upper] ].
Qed.

(** A profile object without accuracy and reaction times passes
    [validateProfile]: every comparison with [undefined] is false. *)
Example validateProfile_accepts_missing_numbers :
  validateProfile Samples.numberless_raw = {| valid := true; errors := [] |}.
Proof. reflexivity. Qed.

(** X28: a profile object that [validateProfile] accepts has no error
    listed, a non-empty id, nickname and email, and one of the four known
    personalities.  Its numeric fields are checked only as far as they are
    numbers: an accuracy that is a number lies between 0 and 1, and a
    reaction-time range whose two ends are numbers has [min < max].  When
    the object holds the numbers of a typed profile, [calculateAnswerDelay]
    on that profile always answers within the reaction-time range. *)
Theorem validated_profile_is_well_formed (raw : RawProfile)
    (Hvalid : valid (validateProfile raw) = true) :
  errors (validateProfile raw) = [] /\
  truthy_str (raw_id raw) = true /\
  truthy_str (raw_nickname raw) = true /\ truthy_str (raw_email raw) = true /\
  (forall a, raw_accuracy raw = Some a -> (0 <= a)%Q /\ (a <= 1)%Q) /\
  (forall lo hi, raw_rt_min raw = Some lo -> raw_rt_max raw = Some hi -> (lo < hi)%Q) /\
  (exists p, raw_personality raw = Some p /\ p ∈ validPersonalities) /\
  forall profile, Spec.reads_as raw profile ->
    forall questionDifficulty g,
      (rt_min (reactionTime profile)
         <= (calculateAnswerDelay profile questionDifficulty g).1)%Q /\
      ((calculateAnswerDelay profile questionDifficulty g).1
         <= rt_max (reactionTime profile))%Q.
Proof.
  unfold validateProfile in *. cbv zeta in *. cbn [valid errors] in *.
  apply bool_decide_eq_true in Hvalid.
  destruct (truthy_str (raw_id raw)) eqn:Eid;
    destruct (truthy_str (raw_nickname raw)) eqn:En;
    destruct (truthy_str (raw_email raw)) eqn:Ee;
    destruct (lt_nan (raw_accuracy raw) (Some 0%Q)) eqn:E0;
    destruct (lt_nan (Some 1%Q) (raw_accuracy raw)) eqn:E1;
    destruct (ge_nan (raw_rt_min raw) (raw_rt_max raw)) eqn:Er;
    destruct (match raw_personality raw with
              | Some p => bool_decide (p ∈ validPersonalities)
              | None => false
              end) eqn:Ep;
    cbn [negb orb app] in Hvalid;
    try (rewrite ?length_app in Hvalid; cbn [length] in Hvalid; lia).
  cbn [negb orb app].
  assert (Hp : exists p, raw_personality raw = Some p /\ p ∈ validPersonalities).
  { destruct (raw_personality raw) as [p|]; [|discriminate].
    exists p. split; [reflexivity|]. apply bool_decide_eq_true in Ep. exact Ep. }
  assert (Hrange : forall lo hi,
    raw_rt_min raw = Some lo -> raw_rt_max raw = Some hi -> (lo < hi)%Q).
  { intros lo hi Hlo Hhi. rewrite Hlo, Hhi in Er. cbn [ge_nan] in Er.
    apply Qnot_le_lt. intros H. apply Qle_bool_iff in H. congruence. }
  split; [reflexivity|]. split; [reflexivity|]. split; [reflexivity|].
  split; [reflexivity|]. split.
  { intros a Ha. rewrite Ha in E0, E1. cbn [lt_nan] in E0, E1.
    apply lt_num_false in E0, E1. split; assumption. }
  split; [exact Hrange|]. split; [exact Hp|].
  intros profile (_ & _ & Hlo & Hhi & _) questionDifficulty g.
  apply calculateAnswerDelay_clamped, Qlt_le_weak, (Hrange _ _ Hlo Hhi).
Qed.

Lemma validated_profile_is_well_formed_witness :
  errors (validateProfile Samples.alice_raw) = [] /\
  (forall questionDifficulty g,
     (2000 <= (calculateAnswerDelay Samples.on_time questionDifficulty g).1)%Q /\
     ((calculateAnswerDelay Samples.on_time questionDifficulty g).1 <= 10000)%Q).
Proof.
  destruct (validated_profile_is_well_formed Samples.alice_raw)
    as (H1 & _ & _ & _ & _ & _ & _ & H8).
  - reflexivity.
  - split; [exact H1|]. apply (H8 Samples.on_time). repeat split; reflexivity.
Defined.

End Validation.

Section PlainCategory.
Import Js Timing Behavior Spec.

(** X29: away from the names of inherited members the clamp does its
    work: when the profile has no knowledge areas, or the category is one
    of their own keys, or it is not a name that objects inherit, the
    accuracy [shouldAnswerCorrectly] compares its roll against is a number
    in [0.10, 0.95], for every player state, difficulty and draw, and the
    answer is planned right exactly when the roll is below it. *)
Theorem clamp_holds_on_plain_categories (profile : Profile) (options : DecisionOptions)
    (Hplain : plain_category profile options) :
  (forall state r, exists a,
     effectiveAccuracy profile state options r = Some a /\
     (0.1 <= a)%Q /\ (a <= 0.95)%Q) /\
  (forall e g, exists a,
     effectiveAccuracy profile (getPlayerState profile e).1 options (g 0%nat) = Some a /\
     (shouldAnswerCorrectly profile options e g).1.1 = lt_num (g 1%nat) a).
Proof.
  assert (H : forall state r, exists a,
    effectiveAccuracy profile state options r = Some a /\
    (0.1 <= a)%Q /\ (a <= 0.95)%Q).
  { intros state r. unfold effectiveAccuracy, plain_category, get_member in *.
    cbv zeta.
    assert (G : forall x, (0.1 <= Math_max 0.1 (Math_min 0.95 x))%Q /\
                          (Math_max 0.1 (Math_min 0.95 x) <= 0.95)%Q).
    { intros x. split; [apply Math_max_lower|].
      apply Math_max_upper; [lra | apply Math_min_upper]. }
    destruct (knowledgeAreas profile) as [areas|]; [|eexists; split; [reflexivity | apply G]].
    destruct (areas !! default "general" (category options)) as [a|] eqn:E.
    - destruct (truthy_num a); eexists; (split; [reflexivity | apply G]).
    - destruct Hplain as [[a Ha]|Hout]; [discriminate|].
      rewrite bool_decide_eq_false_2 by exact Hout.
      eexists; split; [reflexivity | apply G]. }
  split; [exact H|].
  intros e g. unfold shouldAnswerCorrectly.
  destruct (getPlayerState profile e) as [state e']. cbn [fst Math_random].
  destruct (H state (g 0%nat)) as (a & Ea & _).
  exists a. rewrite Ea. split; reflexivity.
Qed.

Lemma clamp_holds_on_plain_categories_witness :
  exists a,
    effectiveAccuracy Samples.versed newPlayerState
      {| category := Some "sports"; difficulty := None |} (1 # 2) = Some a /\
    (0.1 <= a)%Q /\ (a <= 0.95)%Q.
Proof.
  assert (Hplain : plain_category Samples.versed
                     {| category := Some "sports"; difficulty := None |}).
  { left. exists 0.75%Q. vm_compute. reflexivity. }
  destruct (clamp_holds_on_plain_categories Samples.versed
              {| category := Some "sports"; difficulty := None |} Hplain) as [H _].
  exact (H newPlayerState (1 # 2)).
Defined.

End PlainCategory.

(** ** Agent: the recovery budget over the agent's lifetime *)

Section Lifetime.
Import GameState Bot Spec.

Lemma stays_down_refl b : stays_down b b.
Proof. unfold stays_down, budget_kept. auto. Qed.

Lemma stays_down_trans b1 b2 b3 : stays_down b1 b2 -> stays_down b2 b3 -> stays_down b1 b3.
Proof.
  unfold stays_down, budget_kept. intros [[A1 A2] A3] [[B1 B2] B3].
  repeat split; [lia | congruence | auto].
Qed.

Lemma budget_kept_trans b1 b2 b3 : budget_kept b1 b2 -> budget_kept b2 b3 -> budget_kept b1 b3.
Proof. unfold budget_kept. intros [A1 A2] [B1 B2]. split; [lia | congruence]. Qed.

Lemma rearms_ret {A} (a : A) : never_rearms (mret a).
Proof. intros w b out w' b' [= <- <- <-]. apply stays_down_refl. Qed.

Lemma rearms_throw {A} e : never_rearms (@throw A e).
Proof. intros w b out w' b' [= <- <- <-]. apply stays_down_refl. Qed.

Lemma rearms_getBot : never_rearms getBot.
Proof. intros w b out w' b' [= <- <- <-]. apply stays_down_refl. Qed.

Lemma rearms_modifyWorld f : never_rearms (modifyWorld f).
Proof. intros w b out w' b' [= <- <- <-]. apply stays_down_refl. Qed.

Lemma rearms_sleep ms : never_rearms (sleep ms).
Proof. apply rearms_modifyWorld. Qed.

Lemma rearms_modifyBot f : (forall b, stays_down b (f b)) -> never_rearms (modifyBot f).
Proof. intros Hf w b out w' b' [= <- <- <-]. apply Hf. Qed.

Lemma rearms_bind {A B} (c : M A) (f : A -> M B) :
  never_rearms c -> (forall a, never_rearms (f a)) -> never_rearms (c ≫= f).
Proof.
  intros Hc Hf w b out w' b'. rewrite bind_unfold.
  destruct (c w b) as [[o w1] b1] eqn:E. specialize (Hc _ _ _ _ _ E).
  destruct o as [a|e|].
  - intros H. apply Hf in H. eapply stays_down_trans; eassumption.
  - intros [= <- <- <-]. exact Hc.
  - intros [= <- <- <-]. exact Hc.
Qed.

Lemma rearms_try_catch {A} (c : M A) h :
  never_rearms c -> (forall e, never_rearms (h e)) -> never_rearms (try_catch c h).
Proof.
  intros Hc Hh w b out w' b'. rewrite try_catch_unfold.
  destruct (c w b) as [[o w1] b1] eqn:E. specialize (Hc _ _ _ _ _ E).
  destruct o as [a|e|].
  - intros [= <- <- <-]. exact Hc.
  - intros H. apply Hh in H. eapply stays_down_trans; eassumption.
  - intros [= <- <- <-]. exact Hc.
Qed.

Lemma rearms_withRandom {A} (f : Js.rng -> A * Js.rng) : never_rearms (withRandom f).
Proof.
  intros w b out w' b'. unfold withRandom.
  destruct (f (random w)). intros [= <- <- <-]. apply stays_down_refl.
Qed.

Lemma rearms_call : never_rearms call.
Proof.
  intros w b out w' b'. unfold call.
  destruct (driver w 0%nat); intros [= <- <- <-]; apply stays_down_refl.
Qed.

Lemma rearms_viaPageActions : never_rearms viaPageActions.
Proof.
  apply rearms_bind; [apply rearms_getBot|].
  intros b. destruct (pageActions b); [apply rearms_call | apply rearms_throw].
Qed.

Lemma stays_down_resources pg pa sm b : stays_down b (set_resources pg pa sm b).
Proof. unfold stays_down, budget_kept. cbn. auto. Qed.

Lemma stays_down_stop b : stays_down b (set_isRunning false b).
Proof. unfold stays_down, budget_kept. cbn. repeat split; auto. discriminate. Qed.

Lemma stays_down_count b : stays_down b (set_retryCount (S (retryCount b)) b).
Proof. unfold stays_down, budget_kept. cbn. repeat split; auto. Qed.

Lemma rearms_detect : never_rearms detect.
Proof.
  intros w b out w' b'. unfold detect.
  destruct (stateManager b) as [m|].
  - destruct (detectState (page w 0%nat) m). intros [= <- <- <-].
    apply stays_down_resources.
  - intros [= <- <- <-]. apply stays_down_refl.
Qed.

Lemma rearms_initialize : never_rearms initialize.
Proof.
  unfold initialize.
  apply rearms_bind; [apply rearms_call|]. intros _.
  apply rearms_bind; [apply rearms_modifyBot, stays_down_resources|]. intros _.
  apply rearms_bind; [apply rearms_getBot|]. intros b.
  apply rearms_modifyWorld.
Qed.

Lemma rearms_cleanupSilent : never_rearms cleanupSilent.
Proof. apply rearms_modifyBot, stays_down_resources. Qed.

Lemma rearms_cleanup : never_rearms cleanup.
Proof. apply rearms_modifyBot. intros b. apply stays_down_resources. Qed.

Lemma rearms_stop : never_rearms stop.
Proof. apply rearms_modifyBot, stays_down_stop. Qed.

Lemma rearms_randomSleep min max : never_rearms (randomSleep min max).
Proof.
  apply rearms_bind; [apply rearms_withRandom|]. intros d.
  apply rearms_bind; [apply rearms_sleep|]. intros _. apply rearms_ret.
Qed.

Create HintDb rearms.

#[local] Hint Resolve rearms_ret rearms_throw rearms_getBot rearms_modifyWorld
  rearms_sleep rearms_withRandom rearms_call rearms_viaPageActions rearms_detect
  rearms_initialize rearms_cleanupSilent rearms_cleanup rearms_stop
  rearms_randomSleep stays_down_resources stays_down_stop stays_down_count
  stays_down_refl : rearms.

Ltac rearms_step :=
  first
    [ solve [auto with rearms]
    | apply rearms_bind; [|intros ?]
    | apply rearms_try_catch; [|intros ?]
    | apply rearms_modifyBot; intros ?
    | match goal with
      | |- never_rearms (if ?c then _ else _) => destruct c
      | |- never_rearms (match ?c with _ => _ end) => destruct c
      end ].

Lemma rearms_attemptRecovery : never_rearms attemptRecovery.
Proof.
  intros w b out w' b' E.
  destruct (le_lt_dec (maxRetries (options b)) (retryCount b)) as [H|H].
  - rewrite (attemptRecovery_refuses w b H) in E. injection E as <- <- <-.
    apply stays_down_stop.
  - apply Nat.leb_gt in H.
    unfold attemptRecovery in E. rewrite bind_unfold in E. cbn [getBot] in E.
    rewrite H in E.
    cbv beta iota zeta delta
      [mbind mret M_bind M_ret getBot modifyBot modifyWorld throw try_catch sleep
       call viaPageActions initialize cleanupSilent] in E.
    cbn in E.
    repeat match type of E with
    | context [match ?x with _ => _ end] =>
        lazymatch x with
        | context [match _ with _ => _ end] => fail
        | _ => destruct x eqn:?
        end
    end;
    injection E as <- <- <-; unfold stays_down, budget_kept; cbn; auto.
Qed.

Lemma rearms_withRetry_from {A} (operation : M A) :
  never_rearms operation ->
  forall more attempt, never_rearms (withRetry_from operation attempt more).
Proof.
  intros Hop. induction more as [|more IH]; intros attempt w b out w' b';
    cbn [withRetry_from];
    destruct (operation w b) as [[o w1] b1] eqn:E; specialize (Hop _ _ _ _ _ E);
    destruct o as [a|e|]; try (intros [= <- <- <-]; exact Hop).
  destruct (needsRecovery e).
  - destruct (attemptRecovery w1 b1) as [[o2 w2] b2] eqn:E2.
    apply rearms_attemptRecovery in E2.
    destruct o2 as [[|]|e2|];
      try (intros [= <- <- <-]; eapply stays_down_trans; eassumption).
    intros H. apply IH in H.
    eapply stays_down_trans; [exact Hop|]. eapply stays_down_trans; eassumption.
  - cbn. intros H. apply IH in H. eapply stays_down_trans; eassumption.
Qed.

Lemma rearms_withRetry {A} (operation : M A) :
  never_rearms operation -> never_rearms (withRetry operation).
Proof. intros H. apply rearms_withRetry_from, H. Qed.

Lemma rearms_waitForState_from targets timeout startTime :
  forall polls, never_rearms (waitForState_from targets timeout startTime polls).
Proof.
  induction polls as [|polls IH]; intros w b out w' b'; cbn [waitForState_from];
    destruct (now w - startTime <? timeout);
    try (intros [= <- <- <-]; apply stays_down_refl).
  revert w b out w' b'.
  change (never_rearms
    (currentState ← detect;
     if bool_decide (currentState ∈ targets) then mret currentState
     else if decide (currentState = GAME_ENDED) then mret currentState
     else sleep 500;; waitForState_from targets timeout startTime polls)).
  repeat rearms_step.
Qed.

Lemma rearms_waitForState targets timeout : never_rearms (waitForState targets timeout).
Proof.
  intros w b out w' b'. unfold waitForState.
  destruct (stateManager b).
  - apply rearms_waitForState_from.
  - intros [= <- <- <-]. apply stays_down_refl.
Qed.

Lemma rearms_waitForGameStart timeout : never_rearms (waitForGameStart timeout).
Proof.
  unfold waitForGameStart.
  repeat first [ apply rearms_waitForState | rearms_step ].
Qed.

Lemma rearms_waitAndLogRanking : never_rearms waitAndLogRanking.
Proof. unfold waitAndLogRanking. repeat rearms_step. Qed.

(** [handleQuestion] is straight-line code that writes the question
    number and the game results only. *)
Lemma rearms_handleQuestion : never_rearms handleQuestion.
Proof.
  intros w b out w' b' E. unfold handleQuestion, waitAndLogRanking in E.
  cbv beta iota zeta delta
    [mbind mret Bot.M_bind Bot.M_ret Bot.getBot Bot.modifyBot Bot.modifyWorld
     Bot.throw Bot.sleep Bot.call Bot.viaPageActions] in E.
  cbn [pageActions set_questionNumber set_gameResults driver set_driver set_now] in E.
  repeat match type of E with
  | context [match ?x with _ => _ end] =>
      lazymatch x with
      | context [match _ with _ => _ end] => fail
      | _ => destruct x eqn:?
      end
  end;
  injection E as <- <- <-; unfold stays_down, budget_kept; cbn; auto.
Qed.

#[local] Hint Resolve rearms_attemptRecovery rearms_waitForGameStart
  rearms_waitAndLogRanking rearms_handleQuestion : rearms.

Ltac frame_bot := intros; unfold stays_down, budget_kept; cbn; auto.

Lemma rearms_gameLoop : forall fuel errorCount, never_rearms (gameLoop fuel errorCount).
Proof.
  induction fuel as [|fuel IH]; intros errorCount w b out w' b'; cbn [gameLoop];
    destruct (negb (isRunning b));
    try (intros [= <- <- <-]; apply stays_down_refl).
  revert w b out w' b'. apply rearms_bind; [apply rearms_detect|]. intros state.
  destruct state; repeat rearms_step; try apply IH; frame_bot.
Qed.

Lemma rearms_join_sequence (timing : Timing.JoinTiming) :
  never_rearms
    ((if 0 <? Timing.delay timing then sleep (Timing.delay timing) else mret tt);;
     withRetry viaPageActions;;
     state ← detect;
     (if decide (state = REGISTRATION) then
        withRetry viaPageActions;;
        randomSleep 500 1500;;
        joined ← withRetry viaPageActions;
        if negb (truthy joined) then mret false
        else randomSleep 1000 2000;; mret true
      else mret true)).
Proof. repeat first [ apply rearms_withRetry | rearms_step ]. Qed.

(** [joinGame] ends in one of two ways: the join is confirmed and the
    counter is back at zero, or it is not and the agent's budget and
    running flag are no better than before. *)
Lemma joinGame_outcomes url w b out w' b' :
  joinGame url w b = (out, w', b') ->
  (out = Ret true /\ retryCount b' = 0%nat /\ options b' = options b) \/
  (out <> Ret true /\ stays_down b b').
Proof.
  unfold joinGame. rewrite bind_unfold. cbn [getBot].
  rewrite bind_unfold. unfold withRandom at 1.
  destruct (Timing.calculateJoinTiming (profile b) (random w)) as [timing g1].
  destruct (negb (Timing.shouldJoin timing)).
  - intros [= <- <- <-]. right. split; [discriminate | apply stays_down_refl].
  - rewrite bind_unfold.
    match goal with
    | |- context [match ?c ?w0 b with _ => _ end] =>
        destruct (c w0 b) as [[o w1] b1] eqn:E;
        pose proof (rearms_join_sequence timing _ _ _ _ _ E) as Hg
    end.
    destruct o as [[|]|e|].
    + intros [= <- <- <-]. left. split; [reflexivity|]. split; [reflexivity|].
      cbn. apply Hg.
    + intros [= <- <- <-]. right. split; [discriminate | exact Hg].
    + intros [= <- <- <-]. right. split; [discriminate | exact Hg].
    + intros [= <- <- <-]. right. split; [discriminate | exact Hg].
Qed.

Lemma refunds_of_rearms {A} (c : M A) : never_rearms c -> never_refunds c.
Proof. intros H w b out w' b' E. apply (H _ _ _ _ _ E). Qed.

Lemma refunds_bind {A B} (c : M A) (f : A -> M B) :
  never_refunds c -> (forall a, never_refunds (f a)) -> never_refunds (c ≫= f).
Proof.
  intros Hc Hf w b out w' b'. rewrite bind_unfold.
  destruct (c w b) as [[o w1] b1] eqn:E. specialize (Hc _ _ _ _ _ E).
  destruct o as [a|e|].
  - intros H. apply Hf in H. eapply budget_kept_trans; eassumption.
  - intros [= <- <- <-]. exact Hc.
  - intros [= <- <- <-]. exact Hc.
Qed.

(** [playGame] sets the agent running, and refunds nothing. *)
Lemma refunds_playGame fuel : never_refunds (playGame fuel).
Proof.
  unfold playGame. apply refunds_bind.
  { intros w b out w' b' [= <- <- <-]. unfold budget_kept. cbn. auto. }
  intros _. apply refunds_of_rearms.
  repeat first [ apply rearms_gameLoop | rearms_step ].
Qed.

(** What follows a confirmed join in [run]. *)
Lemma refunds_after_join fuel :
  never_refunds
    (gameStarted ← waitForGameStart 300000;
     if negb gameStarted then mret None
     else results ← playGame fuel; mret (Some results)).
Proof.
  apply refunds_bind; [apply refunds_of_rearms, rearms_waitForGameStart|].
  intros gameStarted. destruct (negb gameStarted).
  - apply refunds_of_rearms, rearms_ret.
  - apply refunds_bind; [apply refunds_playGame|]. intros r.
    apply refunds_of_rearms, rearms_ret.
Qed.

(** Over a whole [run] the budget is refunded only by a confirmed
    join: either the counter and the options end no better than they
    began, or the run's [joinGame] returned [true] with the counter at
    zero and nothing after it refunded anything. *)
Lemma run_budget url fuel w b out w' b' :
  run url fuel w b = (out, w', b') ->
  budget_kept b b' \/
  exists w1 b1 w2 b2,
    initialize w b = (Ret tt, w1, b1) /\
    joinGame url w1 b1 = (Ret true, w2, b2) /\
    retryCount b2 = 0%nat /\ options b2 = options b /\ budget_kept b2 b'.
Proof.
  unfold run, try_finally. rewrite try_catch_unfold, bind_unfold.
  destruct (initialize w b) as [[o1 w1] b1] eqn:E1.
  pose proof (rearms_initialize _ _ _ _ _ E1) as [H1 _].
  destruct o1 as [[]|e|]; cbn [throw cleanup modifyBot];
    try (intros [= <- <- <-]; left;
         eapply budget_kept_trans; [exact H1 | unfold budget_kept; cbn; auto]).
  rewrite bind_unfold.
  destruct (joinGame url w1 b1) as [[o2 w2] b2] eqn:E2.
  destruct (joinGame_outcomes _ _ _ _ _ _ E2) as [(-> & Hz & Ho) | (Hne & [H2 _])].
  - cbn [negb].
    match goal with
    | |- context [match ?c w2 b2 with _ => _ end] =>
        destruct (c w2 b2) as [[o3 w3] b3] eqn:E3;
        pose proof (refunds_after_join fuel _ _ _ _ _ E3) as H3
    end.
    assert (Hend : budget_kept b2 (set_resources false (pageActions b3) (stateManager b3) b3)).
    { eapply budget_kept_trans; [exact H3 | unfold budget_kept; cbn; auto]. }
    destruct o3 as [r|e|]; intros [= <- <- <-]; right;
      exists w1, b1, w2, b2;
      (split; [first [reflexivity | exact E1]|]);
      (split; [first [exact E2 | reflexivity]|]); (split; [exact Hz|]);
      (split; [destruct H1 as [_ H1]; congruence|]);
      first [exact Hend | exact H3].
  - assert (H12 : budget_kept b b2) by (eapply budget_kept_trans; eassumption).
    destruct o2 as [[|]|e|]; [congruence| | |]; cbn [negb M_ret mret];
      intros [= <- <- <-]; left;
      first [ exact H12
            | eapply budget_kept_trans; [exact H12 | unfold budget_kept; cbn; auto] ].
Qed.

Lemma spent_refuses w b :
  spent b -> attemptRecovery w b = (Ret false, w, set_isRunning false b).
Proof. intros H. apply attemptRecovery_refuses, H. Qed.

(** C3: the recovery counter is set back to zero only by a confirmed
    join, over the agent's whole lifetime.
    - At [retryCount >= maxRetries], [attemptRecovery] refuses and clears
      [isRunning]; below it, a recovery, successful or not, adds one to
      the counter and never resets it.
    - [joinGame] leaves the counter at zero exactly when it returns
      [true]; otherwise it leaves the budget and the running flag no
      better than they were.  In the scenario of two recoverable
      navigation failures the counter stands at 2 after the navigation and
      at 0 once the join is confirmed.
    - No other phase of the agent refunds the budget or sets the agent
      running again: [initialize], [attemptRecovery], [withRetry],
      [waitForGameStart], [handleQuestion], the game loop, [cleanup],
      [stop]; [playGame] sets it running and refunds nothing.
    - Over a whole [run] the budget ends no better than it began unless
      the run's join was confirmed.
    - A spent agent stays spent and stopped through every such phase:
      afterwards [attemptRecovery] still refuses, and the game loop does
      not take another turn. *)
Theorem retry_budget (w : World) (used fresh : TriviaBot)
    (url : option string) (fuel : nat)
    (Hspent : (maxRetries (options used) <= retryCount used)%nat)
    (Hfresh : (retryCount fresh < maxRetries (options fresh))%nat) :
  attemptRecovery w used = (Ret false, w, set_isRunning false used) /\
  (exists ok w' b',
      attemptRecovery w fresh = (Ret ok, w', b') /\
      retryCount b' = S (retryCount fresh)) /\
  (forall w0 b out w' b',
      joinGame url w0 b = (out, w', b') ->
      (out = Ret true /\ retryCount b' = 0%nat) \/
      (out <> Ret true /\ stays_down b b')) /\
  (let w0 := Samples.world [] Samples.two_navigation_failures in
   (exists w' b', withRetry viaPageActions w0 Samples.ready_agent
                    = (Ret VNull, w', b') /\ retryCount b' = 2%nat) /\
   (exists w' b', joinGame None w0 Samples.ready_agent = (Ret true, w', b') /\
                  retryCount b' = 0%nat)) /\
  (never_rearms initialize /\ never_rearms attemptRecovery /\
   (forall A (operation : M A),
      never_rearms operation -> never_rearms (withRetry operation)) /\
   (forall timeout, never_rearms (waitForGameStart timeout)) /\
   never_rearms handleQuestion /\
   (forall fuel' errorCount, never_rearms (gameLoop fuel' errorCount)) /\
   never_rearms cleanup /\ never_rearms stop /\
   (forall fuel', never_refunds (playGame fuel'))) /\
  (forall w0 b out w' b',
      run url fuel w0 b = (out, w', b') ->
      budget_kept b b' \/
      exists w1 b1 w2 b2,
        initialize w0 b = (Ret tt, w1, b1) /\
        joinGame url w1 b1 = (Ret true, w2, b2) /\
        retryCount b2 = 0%nat /\ options b2 = options b /\ budget_kept b2 b') /\
  (forall A (c : M A) w0 out w' b',
      never_rearms c ->
      c w0 (set_isRunning false used) = (out, w', b') ->
      isRunning b' = false /\ spent b' /\
      forall w'', attemptRecovery w'' b' = (Ret false, w'', set_isRunning false b')) /\
  (forall fuel' errorCount w0,
      gameLoop fuel' errorCount w0 (set_isRunning false used)
        = (Ret tt, w0, set_isRunning false used)).
Proof.
  split; [apply attemptRecovery_refuses, Hspent|].
  split.
  { destruct (attemptRecovery_counts w fresh Hfresh) as (ok & w' & b' & E & Hc & _).
    eauto. }
  split.
  { intros w0 b out w' b' E.
    destruct (joinGame_outcomes _ _ _ _ _ _ E) as [(H1 & H2 & _) | H]; auto. }
  split.
  { cbv zeta. split; eexists _, _; split; vm_compute; reflexivity. }
  split.
  { split; [apply rearms_initialize|]. split; [apply rearms_attemptRecovery|].
    split; [intros A operation; apply rearms_withRetry|].
    split; [apply rearms_waitForGameStart|]. split; [apply rearms_handleQuestion|].
    split; [apply rearms_gameLoop|]. split; [apply rearms_cleanup|].
    split; [apply rearms_stop | apply refunds_playGame]. }
  split; [intros w0 b out w' b'; apply run_budget|].
  split.
  - intros A c w0 out w' b' Hc E.
    destruct (Hc _ _ _ _ _ E) as [[Hcount Hopts] Hrun]. cbn in Hcount, Hopts, Hrun.
    assert (Hs : spent b') by (unfold spent; rewrite Hopts; lia).
    split.
    + destruct (isRunning b'); [|reflexivity]. symmetry. apply Hrun. reflexivity.
    + split; [exact Hs|]. intros w''. apply spent_refuses, Hs.
  - intros fuel' errorCount w0. apply gameLoop_stopped. reflexivity.
Qed.

Lemma retry_budget_witness :
  attemptRecovery (Samples.world [] []) Samples.spent_agent
    = (Ret false, Samples.world [] [], set_isRunning false Samples.spent_agent) /\
  (exists ok w' b',
      attemptRecovery (Samples.world [] []) Samples.ready_agent = (Ret ok, w', b') /\
      retryCount b' = 1%nat).
Proof.
  destruct (retry_budget (Samples.world [] []) Samples.spent_agent Samples.ready_agent
              None 0) as (H1 & H2 & _).
  - vm_compute. lia.
  - vm_compute. lia.
  - split; [exact H1 | exact H2].
Defined.

End Lifetime.
